(** * Transformer_Propagator/transformer.ipynb: a shallow embedding

    The notebook trains a transformer encoder to propagate a one-dimensional
    wavefunction.  This development embeds its tensor plumbing (stacking,
    [view], slicing, broadcasting), the two [QuantumTransformer] classes,
    [QuantumWaveDataset], the training loop, [propagate_wavefunction] and
    the cells that prepare and run the propagation, proves or refutes the
    properties C1 to C10 of its specification, and proves further
    properties (X1, X2, ...) of the code.

    Conventions.
    - A tensor is a shape together with its contiguous row-major storage.
    - Floating-point numbers are idealised as real numbers ([R]).
    - A Python exception is a value of [exception]; code that can raise
      returns a [result].
    - [nn.TransformerEncoder] is library code.  The general theorems take it
      as a parameter (class [TransformerEncoder]: a transform of one sequence
      of tokens) and the embedding fixes along which axis of its input the
      library runs it; module [Torch] writes the library's layer out over the
      reals for the evaluations on concrete inputs.
    - The optimizer step and the sampler's permutations are parameters of
      the training loop.
    - The code is embedded twice: as what it returns, and as what it does
      to the objects it shares with its caller (module [OnObject]); the two
      are proved to agree.

    The definitions come first, then the properties. *)

From Stdlib Require Import List Arith Lia ZArith Bool Permutation.
From Stdlib Require Import Reals Lra.
Import ListNotations.

(** ** Exceptions and results *)

Inductive exception : Type :=
| ValueError_unpack (expected got : nat)
    (* "not enough values to unpack" / "too many values to unpack" *)
| RuntimeError_stack      (* "stack expects each tensor to be equal size" *)
| RuntimeError_view       (* "shape ... is invalid for input of size ..." *)
| RuntimeError_broadcast  (* "The size of tensor a must match the size of tensor b" *)
| RuntimeError_linear     (* "mat1 and mat2 shapes cannot be multiplied" *)
| RuntimeError_assign     (* "The expanded size of the tensor must match the existing size" *)
| AssertionError_encoder  (* an assertion of the attention layer: the rank and
                             width of its input, the heads dividing the width *)
| RuntimeError_numpy      (* "Can't call numpy() on Tensor that requires grad" *)
| IndexError
| ValueError              (* an argument the library refuses *)
| TypeError_iter          (* "iteration over a 0-d tensor" *)
| ZeroDivisionError.

Inductive result (A : Type) : Type :=
| Ok (a : A)
| Raise (e : exception).

Arguments Ok {A} a.
Arguments Raise {A} e.

Definition bind {A B : Type} (r : result A) (k : A -> result B) : result B :=
  match r with
  | Ok a => k a
  | Raise e => Raise e
  end.

Notation "x <- c ;; k" := (bind c (fun x => k))
  (at level 61, c at next level, right associativity).

Definition is_ok {A : Type} (r : result A) : bool :=
  match r with Ok _ => true | Raise _ => false end.

(** ** Index arithmetic *)

Definition tabulate {A : Type} (n : nat) (f : nat -> A) : list A :=
  map f (seq 0 n).

Definition numel (s : list nat) : nat := fold_right Nat.mul 1 s.

(** Row-major flat offset of a multi-index, and its inverse. *)
Fixpoint ravel (s idx : list nat) : nat :=
  match s, idx with
  | d :: s', i :: idx' => i * numel s' + ravel s' idx'
  | _, _ => 0
  end.

Fixpoint unravel (s : list nat) (off : nat) : list nat :=
  match s with
  | [] => []
  | d :: s' => (off / numel s') mod d :: unravel s' (off mod numel s')
  end.

Fixpoint in_range (s idx : list nat) : Prop :=
  match s, idx with
  | [], [] => True
  | d :: s', i :: idx' => i < d /\ in_range s' idx'
  | _, _ => False
  end.

(** ** Tensors *)

Record tensor : Type := mk_tensor {
  shape : list nat;
  data : list R
}.

Definition wf (t : tensor) : Prop := length (data t) = numel (shape t).

Definition list_nat_eqb (a b : list nat) : bool :=
  if list_eq_dec Nat.eq_dec a b then true else false.

(** [t[i0, i1, ...]] for a full multi-index. *)
Definition get (t : tensor) (idx : list nat) : R :=
  nth (ravel (shape t) idx) (data t) 0%R.

(** [t.view(s)]: the storage is shared, only the shape changes; it raises
    when the element counts differ. *)
Definition view (t : tensor) (s : list nat) : result tensor :=
  if numel s =? length (data t)
  then Ok (mk_tensor s (data t))
  else Raise RuntimeError_view.

(** [t.unsqueeze(0)] *)
Definition unsqueeze0 (t : tensor) : tensor :=
  mk_tensor (1 :: shape t) (data t).

(** [t[i]] for a non-negative Python integer [i]. *)
Definition select0 (t : tensor) (i : nat) : result tensor :=
  match shape t with
  | [] => Raise IndexError
  | d :: s =>
      if i <? d
      then Ok (mk_tensor s (firstn (numel s) (skipn (i * numel s) (data t))))
      else Raise IndexError
  end.

(** [t[i]] for any Python integer: negative indices count from the end. *)
Definition getitem (t : tensor) (i : Z) : result tensor :=
  match shape t with
  | [] => Raise IndexError
  | d :: _ =>
      if ((0 <=? i) && (i <? Z.of_nat d))%Z then select0 t (Z.to_nat i)
      else if ((- Z.of_nat d <=? i) && (i <? 0))%Z
           then select0 t (Z.to_nat (i + Z.of_nat d))
           else Raise IndexError
  end.

(** [t[..., c]] *)
Definition select_last (t : tensor) (c : nat) : result tensor :=
  match rev (shape t) with
  | [] => Raise IndexError
  | w :: rs =>
      if c <? w
      then Ok (mk_tensor (rev rs)
                 (tabulate (numel (rev rs))
                    (fun i => nth (i * w + c) (data t) 0%R)))
      else Raise IndexError
  end.

(** [torch.stack((a, b, c), dim=-1)] *)
Definition stack_last (a b c : tensor) : result tensor :=
  if list_nat_eqb (shape a) (shape b) && list_nat_eqb (shape a) (shape c)
  then Ok (mk_tensor (shape a ++ [3])
             (flat_map (fun i => [nth i (data a) 0%R;
                                  nth i (data b) 0%R;
                                  nth i (data c) 0%R])
                (seq 0 (numel (shape a)))))
  else Raise RuntimeError_stack.

(** *** Broadcasting (the rule behind [a + b] and [MSELoss]) *)

Definition broadcast_dim (x y : nat) : option nat :=
  if x =? y then Some x
  else if x =? 1 then Some y
  else if y =? 1 then Some x
  else None.

(** Shapes are aligned on their last axes: the lists are read reversed. *)
Fixpoint broadcast_rev (a b : list nat) : option (list nat) :=
  match a, b with
  | [], _ => Some b
  | _, [] => Some a
  | x :: a', y :: b' =>
      match broadcast_dim x y, broadcast_rev a' b' with
      | Some d, Some r => Some (d :: r)
      | _, _ => None
      end
  end.

Definition broadcast_shapes (a b : list nat) : option (list nat) :=
  option_map (@rev nat) (broadcast_rev (rev a) (rev b)).

(** An axis of length 1 is read at index 0 whatever the result index is. *)
Fixpoint clamp (s idx : list nat) : list nat :=
  match s, idx with
  | d :: s', i :: idx' => (if d =? 1 then 0 else i) :: clamp s' idx'
  | _, _ => []
  end.

(** Offset in an operand of shape [sa] of the element that lands at offset
    [off] of the broadcast result of shape [s]. *)
Definition src_offset (sa s : list nat) (off : nat) : nat :=
  ravel sa (clamp sa (skipn (length s - length sa) (unravel s off))).

Definition broadcast_map2 (f : R -> R -> R) (a b : tensor) : result tensor :=
  match broadcast_shapes (shape a) (shape b) with
  | Some s =>
      Ok (mk_tensor s
            (tabulate (numel s)
               (fun off => f (nth (src_offset (shape a) s off) (data a) 0%R)
                             (nth (src_offset (shape b) s off) (data b) 0%R))))
  | None => Raise RuntimeError_broadcast
  end.

Definition tensor_add : tensor -> tensor -> result tensor :=
  broadcast_map2 Rplus.

(** [t[:, :n, :]] *)
Definition slice1 (t : tensor) (n : nat) : result tensor :=
  match shape t with
  | p :: l :: d :: rest =>
      let inner := numel (d :: rest) in
      Ok (mk_tensor (p :: Nat.min n l :: d :: rest)
            (flat_map (fun i => firstn (Nat.min n l * inner)
                                  (skipn (i * (l * inner)) (data t)))
               (seq 0 p)))
  | _ => Raise IndexError
  end.

(** *** [nn.Linear] *)

Record Linear : Type := mk_Linear {
  in_features : nat;
  out_features : nat;
  weight : list (list R);   (* [out_features] rows of [in_features] entries *)
  bias : list R
}.

Definition sum_list (l : list R) : R := fold_right Rplus 0%R l.

Definition dot (n : nat) (u v : list R) : R :=
  sum_list (tabulate n (fun k => (nth k u 0 * nth k v 0)%R)).

(** [y_j = sum_k W[j][k] * x[k] + b[j]] *)
Definition linear_token (l : Linear) (tok : list R) : list R :=
  tabulate (out_features l)
    (fun j => (dot (in_features l) (nth j (weight l) []) tok
               + nth j (bias l) 0)%R).

Definition token_at (x : list R) (w i : nat) : list R :=
  firstn w (skipn (i * w) x).

(** The layer acts on the last axis and raises when its width is not
    [in_features]. *)
Definition linear (l : Linear) (x : tensor) : result tensor :=
  match rev (shape x) with
  | [] => Raise RuntimeError_linear
  | w :: rs =>
      if w =? in_features l
      then Ok (mk_tensor (rev rs ++ [out_features l])
                 (flat_map (fun i => linear_token l (token_at (data x) w i))
                    (seq 0 (numel (rev rs)))))
      else Raise RuntimeError_linear
  end.

(** *** [nn.TransformerEncoder]

    The library's encoder stack, for one sequence of tokens: from its
    weights, the module's training flag (dropout is active only when it is
    set) and the tokens, the transformed tokens. *)

Class TransformerEncoder : Type := {
  encoder_weights : Type;
  encoder_forward : encoder_weights -> bool -> list (list R) -> list (list R)
}.

Section Encoder.
Context {E : TransformerEncoder}.

(** The encoder's [forward] on a tensor.  The library reads a 3-D input as
    (batch, sequence, embedding) when [batch_first] is set and as
    (sequence, batch, embedding) otherwise; a 2-D input is one unbatched
    sequence.  The result has the shape of the input. *)
Definition transformer_encoder (batch_first : bool) (d_model : nat)
    (w : encoder_weights) (training : bool) (x : tensor) : result tensor :=
  match shape x with
  | [d0; e] =>
      if e =? d_model then
        let out := encoder_forward w training
                     (tabulate d0 (fun s => token_at (data x) e s)) in
        Ok (mk_tensor [d0; e]
              (flat_map (fun i => tabulate e (fun k => nth k (nth i out []) 0%R))
                 (seq 0 d0)))
      else Raise AssertionError_encoder
  | [d0; d1; e] =>
      if e =? d_model then
        Ok (mk_tensor [d0; d1; e]
              (flat_map (fun i =>
                 flat_map (fun j =>
                   let out :=
                     if batch_first
                     then encoder_forward w training
                            (tabulate d1 (fun s => token_at (data x) e (i * d1 + s)))
                     else encoder_forward w training
                            (tabulate d0 (fun s => token_at (data x) e (s * d1 + j))) in
                   let tok := nth (if batch_first then j else i) out [] in
                   tabulate e (fun k => nth k tok 0%R))
                   (seq 0 d1))
                 (seq 0 d0)))
      else Raise AssertionError_encoder
  | _ => Raise AssertionError_encoder
  end.
End Encoder.

(** ** Positional encoding (cell 3, [create_positional_encoding]) *)

(** A slice assignment [target[:, k::2] = source] copies when the column
    counts agree and expands a single source column otherwise. *)
Definition assign_cols_ok (target_cols source_cols : nat) : bool :=
  (source_cols =? target_cols) || (source_cols =? 1).

(** [torch.exp(torch.arange(0, d_model, 2).float() * (-math.log(10000.0) / d_model))],
    entry [i]. *)
Definition div_term (d_model i : nat) : R :=
  exp (INR (2 * i) * (- ln 10000 / INR d_model)).

(** The table both classes build: [pe[:, 0::2] = sin(position * div_term)],
    [pe[:, 1::2] = cos(position * div_term)], then [unsqueeze(0)]. *)
Definition positional_table (full_seq_length d_model : nat) : result tensor :=
  let n_div := (d_model + 1) / 2 in        (* len(arange(0, d_model, 2)) *)
  let n_even := (d_model + 1) / 2 in       (* columns 0::2 *)
  let n_odd := d_model / 2 in              (* columns 1::2 *)
  let src c := if n_div =? 1 then 0 else c / 2 in
  if assign_cols_ok n_even n_div then
    if assign_cols_ok n_odd n_div then
      Ok (mk_tensor [1; full_seq_length; d_model]
            (flat_map (fun p =>
               tabulate d_model (fun c =>
                 if Nat.even c
                 then sin (INR p * div_term d_model (src c))
                 else cos (INR p * div_term d_model (src c))))
               (seq 0 full_seq_length)))
    else Raise RuntimeError_assign
  else Raise RuntimeError_assign.

(** [-math.log(10000.0) / d_model] is a Python division: it raises for
    [d_model = 0] before any tensor is built. *)
Definition create_positional_encoding (full_seq_length d_model : nat)
  : result tensor :=
  if d_model =? 0 then Raise ZeroDivisionError
  else positional_table full_seq_length d_model.

(** ** What a call of a model returns to Python *)

Inductive pyvalue : Type :=
| PyTensor (t : tensor)
| PyTuple2 (a b : tensor).

(** [a, b = v]: a pair unpacks to its components; a tensor is iterated along
    its first axis and must have exactly two slices. *)
Definition unpack2 (v : pyvalue) : result (tensor * tensor) :=
  match v with
  | PyTuple2 a b => Ok (a, b)
  | PyTensor t =>
      match shape t with
      | [] => Raise TypeError_iter
      | d :: _ =>
          if d =? 2
          then (a <- select0 t 0 ;; b <- select0 t 1 ;; Ok (a, b))
          else Raise (ValueError_unpack 2 d)
      end
  end.

(** The part of [nn.Module] the notebook relies on. *)
Class Module (M : Type) : Type := {
  params : Type;
  parameters : M -> params;
  is_training : M -> bool;
  call : M -> tensor -> tensor -> tensor -> result pyvalue;
  eval : M -> M;     (* [model.eval()] *)
  train : M -> M     (* [model.train()] *)
}.

(** ** What the library's constructors refuse *)

(** [nn.TransformerEncoderLayer(d_model, nhead, dim_feedforward, dropout)],
    as far as it can raise, in the order of the library's checks: it builds
    [nn.MultiheadAttention(d_model, nhead)], which raises ValueError unless
    the width and the number of heads are positive and then asserts that the
    heads divide the width; then [nn.Dropout(dropout)], which raises
    ValueError for a probability outside [0, 1].  The feed-forward width
    sizes two linear layers and is never refused. *)
Definition TransformerEncoderLayer_init (d_model nhead dim_feedforward : nat)
    (dropout : R) : result unit :=
  if (d_model =? 0) || (nhead =? 0) then Raise ValueError
  else if negb (d_model mod nhead =? 0) then Raise AssertionError_encoder
  else if Rlt_dec dropout 0 then Raise ValueError
  else if Rlt_dec 1 dropout then Raise ValueError
  else Ok tt.

(** ** The first [QuantumTransformer] (cell 3) *)

Module Model1.
Section WithEncoder.
Context {E : TransformerEncoder}.

Record QuantumTransformer : Type := mk {
  embedding : Linear;
  positional_encoding : tensor;
  d_model : nat;
  encoder : encoder_weights;
  output_layer : Linear;
  training : bool
}.

(** [nn.TransformerEncoderLayer(d_model=..., nhead=..., dim_feedforward=...,
    dropout=...)]: [batch_first] is not passed and keeps its default. *)
Definition batch_first : bool := false.

(** What [__init__] assembles once the library has built the encoder
    layer, from the freshly drawn weights of the three learned layers.  The
    refusals of the encoder layer's constructor are not here: see [new]. *)
Definition init (d seq_length n_grid : nat)
    (emb_w : list (list R)) (emb_b : list R) (enc : encoder_weights)
    (out_w : list (list R)) (out_b : list R)
  : result QuantumTransformer :=
  pe <- create_positional_encoding (seq_length * n_grid) d ;;
  Ok (mk (mk_Linear 3 d emb_w emb_b) pe d enc (mk_Linear d 2 out_w out_b) true).

(** [QuantumTransformer(d_model, num_heads, num_layers, dim_feedforward,
    dropout, seq_length, n_grid, device)]: the whole of [__init__], statement
    by statement.  The weights the library draws are arguments; [num_layers]
    only says how many copies of the layer [nn.TransformerEncoder] makes. *)
Definition new (d_model num_heads num_layers dim_feedforward : nat) (dropout : R)
    (seq_length n_grid : nat)
    (emb_w : list (list R)) (emb_b : list R) (enc : encoder_weights)
    (out_w : list (list R)) (out_b : list R)
  : result QuantumTransformer :=
  let embedding := mk_Linear 3 d_model emb_w emb_b in
  positional_encoding <- create_positional_encoding (seq_length * n_grid) d_model ;;
  _ <- TransformerEncoderLayer_init d_model num_heads dim_feedforward dropout ;;
  let output_layer := mk_Linear d_model 2 out_w out_b in
  Ok (mk embedding positional_encoding d_model enc output_layer true).

(** [forward], with the layout flag of the encoder layer as a parameter so
    that the effect of the flag can be stated. *)
Definition forward_with (layout : bool) (m : QuantumTransformer)
    (psi_real psi_imag potential : tensor) : result tensor :=
  x <- stack_last psi_real psi_imag potential ;;
  match shape x with
  | [batch_size; seq_length; n_grid; _] =>
      x <- view x [batch_size; seq_length * n_grid; 3] ;;
      x <- linear (embedding m) x ;;
      pe <- slice1 (positional_encoding m) (nth 1 (shape x) 0) ;;
      x <- tensor_add x pe ;;
      x <- transformer_encoder layout (d_model m) (encoder m) (training m) x ;;
      x <- linear (output_layer m) x ;;
      view x [batch_size; seq_length; n_grid; 2]
  | s => Raise (ValueError_unpack 4 (length s))
  end.

Definition forward : QuantumTransformer -> tensor -> tensor -> tensor -> result tensor :=
  forward_with batch_first.

#[global] Instance QuantumTransformer_Module : Module QuantumTransformer := {
  params := Linear * tensor * encoder_weights * Linear;
  parameters m := (embedding m, positional_encoding m, encoder m, output_layer m);
  is_training := training;
  call m a b c := x <- forward m a b c ;; Ok (PyTensor x);
  eval m := mk (embedding m) (positional_encoding m) (d_model m) (encoder m)
               (output_layer m) false;
  train m := mk (embedding m) (positional_encoding m) (d_model m) (encoder m)
                (output_layer m) true
}.
End WithEncoder.
End Model1.

(** ** The second [QuantumTransformer] (last cell) *)

Module Model2.
Section WithEncoder.
Context {E : TransformerEncoder}.

Record PositionalEncoding : Type := mk_pe { pe : tensor }.

(** [PositionalEncoding(d_model, max_len=1000)]; here the logarithm is a
    tensor, so dividing it by [d_model = 0] does not raise. *)
Definition max_len : nat := 1000.

Definition PositionalEncoding_init (d : nat) : result PositionalEncoding :=
  t <- positional_table max_len d ;; Ok (mk_pe t).

Definition PositionalEncoding_forward (p : PositionalEncoding) (x : tensor)
  : result tensor :=
  s <- slice1 (pe p) (nth 1 (shape x) 0) ;;
  tensor_add x s.

Record QuantumTransformer : Type := mk {
  n_grid : nat;
  d_model : nat;
  input_proj : Linear;
  output_proj : Linear;
  positional_encoding : PositionalEncoding;
  encoder : encoder_weights;
  training : bool
}.

(** [nn.TransformerEncoderLayer(d_model, num_heads, dim_feedforward, dropout,
    batch_first=True)] *)
Definition batch_first : bool := true.

(** What [__init__] assembles once the library has built the encoder
    layer.  The refusals of the encoder layer's constructor are not here:
    see [new]. *)
Definition init (grid d : nat)
    (in_w : list (list R)) (in_b : list R) (enc : encoder_weights)
    (out_w : list (list R)) (out_b : list R)
  : result QuantumTransformer :=
  p <- PositionalEncoding_init d ;;
  Ok (mk grid d (mk_Linear 3 d in_w in_b) (mk_Linear d 2 out_w out_b) p enc true).

(** [QuantumTransformer(n_grid, d_model, num_layers, num_heads,
    dim_feedforward, dropout)]: the whole of [__init__], statement by
    statement. *)
Definition new (grid d_model num_layers num_heads dim_feedforward : nat)
    (dropout : R)
    (in_w : list (list R)) (in_b : list R) (enc : encoder_weights)
    (out_w : list (list R)) (out_b : list R)
  : result QuantumTransformer :=
  let input_proj := mk_Linear 3 d_model in_w in_b in
  let output_proj := mk_Linear d_model 2 out_w out_b in
  positional_encoding <- PositionalEncoding_init d_model ;;
  _ <- TransformerEncoderLayer_init d_model num_heads dim_feedforward dropout ;;
  Ok (mk grid d_model input_proj output_proj positional_encoding enc true).

(** [forward(self, psi_real, psi_imag, potential, mask=None)]; every call in
    the notebook leaves [mask] at [None]. *)
Definition forward (m : QuantumTransformer) (psi_real psi_imag potential : tensor)
  : result (tensor * tensor) :=
  match shape psi_real with
  | [batch_size; seq_length; n_grid] =>
      x <- stack_last psi_real psi_imag potential ;;
      x <- view x [batch_size; seq_length * n_grid; 3] ;;
      x <- linear (input_proj m) x ;;
      x <- PositionalEncoding_forward (positional_encoding m) x ;;
      x <- transformer_encoder batch_first (d_model m) (encoder m) (training m) x ;;
      x <- linear (output_proj m) x ;;
      x <- view x [batch_size; seq_length; n_grid; 2] ;;
      psi_real_pred <- select_last x 0 ;;
      psi_imag_pred <- select_last x 1 ;;
      Ok (psi_real_pred, psi_imag_pred)
  | s => Raise (ValueError_unpack 3 (length s))
  end.

#[global] Instance QuantumTransformer_Module : Module QuantumTransformer := {
  params := Linear * Linear * PositionalEncoding * encoder_weights;
  parameters m := (input_proj m, output_proj m, positional_encoding m, encoder m);
  is_training := training;
  call m a b c := r <- forward m a b c ;; Ok (PyTuple2 (fst r) (snd r));
  eval m := mk (n_grid m) (d_model m) (input_proj m) (output_proj m)
               (positional_encoding m) (encoder m) false;
  train m := mk (n_grid m) (d_model m) (input_proj m) (output_proj m)
                (positional_encoding m) (encoder m) true
}.
End WithEncoder.
End Model2.

(** ** [propagate_wavefunction] (cell 7) *)

Section Propagator.
Context {M : Type} {MM : Module M}.

(** The body of [for t in range(N)], over the remaining values of [t];
    [acc] is [propagated_wavefunction]. *)
Fixpoint propagate_steps (model : M) (potential : tensor) (ts : list nat)
    (psi_real psi_imag : tensor) (acc : list (tensor * tensor))
  : result (list (tensor * tensor)) :=
  match ts with
  | [] => Ok acc
  | t :: ts' =>
      v <- select0 potential t ;;
      let V_t := unsqueeze0 v in
      out <- call model psi_real psi_imag V_t ;;
      p <- unpack2 out ;;
      propagate_steps model potential ts' (fst p) (snd p) (acc ++ [p])
  end.

(** The function returns the model as [model.eval()] left it, and the list
    (or the exception that escaped). *)
Definition propagate_wavefunction (model : M)
    (initial_psi_real initial_psi_imag potential : tensor) (N : nat)
  : M * result (list (tensor * tensor)) :=
  let model := eval model in
  (model,
   propagate_steps model potential (seq 0 N)
     initial_psi_real initial_psi_imag []).
End Propagator.

(** ** [QuantumWaveDataset] and the loader (cell 4) *)

(** The two arrays read from the store file, [f["dataset_X"][:]] and
    [f["dataset_y"][:]]. *)
Record store_file : Type := mk_store {
  dataset_X : tensor;
  dataset_y : tensor
}.

Record QuantumWaveDataset : Type := mk_dataset {
  X : tensor;
  y : tensor;
  num_trajectories : nat;
  sequence_length : nat;
  n_grid : nat
}.

Definition QuantumWaveDataset_init (f : store_file) : result QuantumWaveDataset :=
  match shape (dataset_X f) with
  | [num_trajectories; sequence_length; n_grid_3] =>
      let n_grid := n_grid_3 / 3 in
      X <- view (dataset_X f) [num_trajectories; sequence_length; n_grid; 3] ;;
      y <- view (dataset_y f) [num_trajectories; sequence_length; n_grid; 2] ;;
      Ok (mk_dataset X y num_trajectories sequence_length n_grid)
  | s => Raise (ValueError_unpack 3 (length s))
  end.

(** [__len__] *)
Definition dataset_len (d : QuantumWaveDataset) : nat := num_trajectories d.

(** [__getitem__] *)
Definition dataset_getitem (d : QuantumWaveDataset) (idx : Z)
  : result (tensor * tensor) :=
  a <- getitem (X d) idx ;;
  b <- getitem (y d) idx ;;
  Ok (a, b).

(** [torch.stack(ts, 0)], the loader's collation of the items of a batch. *)
Definition stack0 (ts : list tensor) : result tensor :=
  match ts with
  | [] => Raise RuntimeError_stack
  | t :: _ =>
      if forallb (fun u => list_nat_eqb (shape u) (shape t)) ts
      then Ok (mk_tensor (length ts :: shape t) (flat_map data ts))
      else Raise RuntimeError_stack
  end.

Fixpoint mapM {A B : Type} (f : A -> result B) (l : list A) : result (list B) :=
  match l with
  | [] => Ok []
  | a :: l' => b <- f a ;; bs <- mapM f l' ;; Ok (b :: bs)
  end.

Fixpoint chunks_fuel {A : Type} (fuel size : nat) (l : list A) : list (list A) :=
  match fuel with
  | 0 => []
  | S fuel' =>
      match l with
      | [] => []
      | _ => firstn size l :: chunks_fuel fuel' size (skipn size l)
      end
  end.

(** Consecutive groups of [size] elements, the last one possibly shorter
    ([drop_last] keeps its default [False]). *)
Definition chunks {A : Type} (size : nat) (l : list A) : list (list A) :=
  chunks_fuel (length l) size l.

Record DataLoader : Type := mk_loader {
  loader_dataset : QuantumWaveDataset;
  batch_size : nat
}.

(** [DataLoader(dataset, batch_size=batch_size, shuffle=True)]: the library
    refuses a non-positive batch size, and its random sampler refuses an
    empty dataset. *)
Definition DataLoader_init (d : QuantumWaveDataset) (bs : nat) : result DataLoader :=
  if bs =? 0 then Raise ValueError
  else if dataset_len d =? 0 then Raise ValueError
  else Ok (mk_loader d bs).

(** [len(train_loader)] *)
Definition loader_len (l : DataLoader) : nat :=
  (dataset_len (loader_dataset l) + batch_size l - 1) / batch_size l.

(** The index batches of one pass, from the permutation the sampler drew. *)
Definition batch_indices (l : DataLoader) (perm : list nat) : list (list nat) :=
  chunks (batch_size l) perm.

(** Fetching one batch: the items, then their collation. *)
Definition fetch (l : DataLoader) (idxs : list nat) : result (tensor * tensor) :=
  items <- mapM (fun i => dataset_getitem (loader_dataset l) (Z.of_nat i)) idxs ;;
  bx <- stack0 (map fst items) ;;
  by_ <- stack0 (map snd items) ;;
  Ok (bx, by_).

(** ** The training loop (cells 5 and 6) *)

(** [torch.nn.MSELoss()]: the mean of the squared differences, after
    broadcasting the two operands to a common shape. *)
Definition mse_loss (output target : tensor) : result R :=
  d <- broadcast_map2 (fun u v => ((u - v) * (u - v))%R) output target ;;
  Ok (sum_list (data d) / INR (numel (shape d)))%R.

Section Trainer.
Context {E : TransformerEncoder}.

(** Adam's state, and the effect on the parameters and on that state of
    [optimizer.zero_grad(); loss.backward(); optimizer.step()] for the loss
    of one batch. *)
Variable optimizer : Type.
Variable update : Model1.QuantumTransformer -> optimizer -> tensor -> tensor ->
                  Model1.QuantumTransformer * optimizer.

(** The permutation of [range(n)] the sampler draws for pass [e]. *)
Variable randperm : nat -> nat -> list nat.

Record train_state : Type := mk_state {
  st_model : Model1.QuantumTransformer;
  st_optimizer : optimizer;
  st_total_loss : R
}.

(** One iteration of [for X, y in train_loader]. *)
Definition train_step (l : DataLoader) (st : train_state) (idxs : list nat)
  : result train_state :=
  b <- fetch l idxs ;;
  psi_real <- select_last (fst b) 0 ;;
  psi_imag <- select_last (fst b) 1 ;;
  potential <- select_last (fst b) 2 ;;
  output <- Model1.forward (st_model st) psi_real psi_imag potential ;;
  loss <- mse_loss output (snd b) ;;
  let mo := update (st_model st) (st_optimizer st) (fst b) (snd b) in
  Ok (mk_state (fst mo) (snd mo) (st_total_loss st + loss)%R).

Fixpoint train_batches (l : DataLoader) (st : train_state)
    (batches : list (list nat)) : result train_state :=
  match batches with
  | [] => Ok st
  | idxs :: rest => st' <- train_step l st idxs ;; train_batches l st' rest
  end.

(** [total_loss / len(train_loader)], a Python division. *)
Definition py_div (a : R) (n : nat) : result R :=
  if n =? 0 then Raise ZeroDivisionError else Ok (a / INR n)%R.

(** One pass of [for epoch in range(num_epochs)]; the result carries the
    value printed for the epoch. *)
Definition train_epoch (l : DataLoader) (m : Model1.QuantumTransformer)
    (o : optimizer) (epoch : nat)
  : result (Model1.QuantumTransformer * optimizer * R) :=
  let m := train m in
  st <- train_batches l (mk_state m o 0%R)
          (batch_indices l (randperm epoch (dataset_len (loader_dataset l)))) ;;
  mean <- py_div (st_total_loss st) (loader_len l) ;;
  Ok (st_model st, st_optimizer st, mean).

(** The loop over the remaining epochs; [printed] are the losses reported
    so far. *)
Fixpoint train_epochs (l : DataLoader) (m : Model1.QuantumTransformer)
    (o : optimizer) (epochs : list nat) (printed : list R)
  : result (Model1.QuantumTransformer * optimizer * list R) :=
  match epochs with
  | [] => Ok (m, o, printed)
  | e :: rest =>
      r <- train_epoch l m o e ;;
      train_epochs l (fst (fst r)) (snd (fst r)) rest (printed ++ [snd r])
  end.

Definition training_loop (l : DataLoader) (m : Model1.QuantumTransformer)
    (o : optimizer) (num_epochs : nat)
  : result (Model1.QuantumTransformer * optimizer * list R) :=
  train_epochs l m o (seq 0 num_epochs) [].
End Trainer.

Arguments mk_state {E optimizer} st_model st_optimizer st_total_loss.
Arguments st_model {E optimizer} t.
Arguments st_optimizer {E optimizer} t.
Arguments st_total_loss {E optimizer} t.
Arguments train_step {E optimizer} update l st idxs.
Arguments train_batches {E optimizer} update l st batches.
Arguments train_epoch {E optimizer} update randperm l m o epoch.
Arguments train_epochs {E optimizer} update randperm l m o epochs printed.
Arguments training_loop {E optimizer} update randperm l m o num_epochs.


(** ** The library's encoder layer, over the reals

    [nn.TransformerEncoderLayer] with its defaults (post-norm, ReLU) and
    [nn.TransformerEncoder] without a final norm, written out for one
    sequence of tokens.  Dropout draws a random mask while the module trains
    and is the identity otherwise; the mask is not modelled, so this is the
    layer as evaluated, which is also the layer trained with dropout rate 0. *)

Module Torch.

Record LayerNorm : Type := mk_LayerNorm {
  ln_weight : list R;
  ln_bias : list R;
  ln_eps : R
}.

Record MultiheadAttention : Type := mk_MultiheadAttention {
  embed_dim : nat;
  num_heads : nat;
  in_proj : Linear;    (* [embed_dim] to [3 * embed_dim]: queries, keys, values *)
  out_proj : Linear
}.

Record TransformerEncoderLayer : Type := mk_TransformerEncoderLayer {
  self_attn : MultiheadAttention;
  linear1 : Linear;
  linear2 : Linear;
  norm1 : LayerNorm;
  norm2 : LayerNorm
}.

Definition vec_add (n : nat) (u v : list R) : list R :=
  tabulate n (fun k => (nth k u 0 + nth k v 0)%R).

Definition relu (x : R) : R := Rmax 0 x.

Definition softmax (s : list R) : list R :=
  map (fun v => (exp v / sum_list (map exp s))%R) s.

(** [(x - mean) / sqrt(var + eps) * weight + bias] over the [n] entries of a
    token, with the biased variance. *)
Definition layer_norm (ln : LayerNorm) (n : nat) (x : list R) : list R :=
  let mu := (sum_list (tabulate n (fun k => nth k x 0%R)) / INR n)%R in
  let var := (sum_list (tabulate n (fun k => ((nth k x 0 - mu) * (nth k x 0 - mu))%R))
              / INR n)%R in
  tabulate n (fun k => ((nth k x 0 - mu) / sqrt (var + ln_eps ln)
                        * nth k (ln_weight ln) 0 + nth k (ln_bias ln) 0)%R).

(** Scaled dot-product self-attention with [num_heads] heads: token [i]
    attends to every token [j] of the same sequence, no mask. *)
Definition attention (a : MultiheadAttention) (tokens : list (list R))
  : list (list R) :=
  let e := embed_dim a in
  let hd := e / num_heads a in
  let n := length tokens in
  let qkv := map (linear_token (in_proj a)) tokens in
  let q i c := nth c (nth i qkv []) 0%R in
  let k j c := nth (e + c) (nth j qkv []) 0%R in
  let v j c := nth (2 * e + c) (nth j qkv []) 0%R in
  let score h i j :=
    (sum_list (tabulate hd (fun c => (q i (h * hd + c)%nat * k j (h * hd + c)%nat)%R))
     / sqrt (INR hd))%R in
  let weights h i := softmax (tabulate n (score h i)) in
  let context i :=
    tabulate e (fun c =>
      sum_list (tabulate n (fun j => (nth j (weights (c / hd)%nat i) 0 * v j c)%R))) in
  tabulate n (fun i => linear_token (out_proj a) (context i)).

Definition encoder_layer (l : TransformerEncoderLayer) (tokens : list (list R))
  : list (list R) :=
  let e := embed_dim (self_attn l) in
  let sa := attention (self_attn l) tokens in
  let x := tabulate (length tokens)
             (fun i => layer_norm (norm1 l) e
                         (vec_add e (nth i tokens []) (nth i sa []))) in
  map (fun t => layer_norm (norm2 l) e
                  (vec_add e t
                     (linear_token (linear2 l)
                        (map relu (linear_token (linear1 l) t))))) x.

Definition encoder_stack (layers : list TransformerEncoderLayer)
    (tokens : list (list R)) : list (list R) :=
  fold_left (fun s l => encoder_layer l s) layers tokens.

Definition encoder : TransformerEncoder := {|
  encoder_weights := list TransformerEncoderLayer;
  encoder_forward := fun w _ tokens => encoder_stack w tokens
|}.

End Torch.


(** ** Well-formed models and datasets *)

Section WellFormed.
Context {E : TransformerEncoder}.

(** The layers fit together, and the positional table has [L] rows: what
    [__init__] establishes and a parameter update does not disturb. *)
Definition well_formed (m : Model1.QuantumTransformer) (L : nat) : Prop :=
  in_features (Model1.embedding m) = 3 /\
  out_features (Model1.embedding m) = Model1.d_model m /\
  shape (Model1.positional_encoding m) = [1; L; Model1.d_model m] /\
  wf (Model1.positional_encoding m) /\
  in_features (Model1.output_layer m) = Model1.d_model m /\
  out_features (Model1.output_layer m) = 2.

End WellFormed.

(** The shapes of a dataset whose trajectories have [T] steps on [G] grid
    points. *)
Definition dataset_shaped (d : QuantumWaveDataset) (n T G : nat) : Prop :=
  dataset_len d = n /\ shape (X d) = [n; T; G; 3] /\ shape (y d) = [n; T; G; 2].

(** ** Sample data *)

(** A field of shape (batch 1, time 2, grid 2, channels 1). *)
Definition example_field : tensor := mk_tensor [1; 2; 2; 1] [1; 2; 3; 4]%R.

(** Fields of shape (batch 2, time 1, grid 1). *)
Definition field_211 (a b : R) : tensor := mk_tensor [2; 1; 1] [a; b].

(** Fields and schedules of the shapes [propagate_wavefunction] documents:
    an initial field of shape (1, grid) and a potential of shape (N, grid). *)
Definition row (l : list R) : tensor := mk_tensor [1; length l] l.

Definition schedule (steps grid : nat) : tensor :=
  mk_tensor [steps; grid] (repeat 0%R (steps * grid)).

(** A store file with two trajectories of one time step on a grid of one
    point, its dataset, and a loader with batches of one sample. *)
Definition example_store : store_file :=
  mk_store (mk_tensor [2; 1; 3] [1; 0; 0; 5; 0; 0]%R)
           (mk_tensor [2; 1; 2] [1; 0; 5; 0]%R).

Definition example_dataset : QuantumWaveDataset :=
  mk_dataset (mk_tensor [2; 1; 1; 3] [1; 0; 0; 5; 0; 0]%R)
             (mk_tensor [2; 1; 1; 2] [1; 0; 5; 0]%R)
             2 1 1.

Definition example_loader : DataLoader := mk_loader example_dataset 1.

(** ** Sample models *)

(** A one-layer, one-head encoder of width 2 whose queries and keys are
    zero (so that every token attends to all tokens of its sequence with
    equal weight), whose values and output projection are the identity and
    whose feed-forward block is zero. *)
Definition example_attn : Torch.MultiheadAttention :=
  Torch.mk_MultiheadAttention 2 1
    (mk_Linear 2 6 [[0; 0]; [0; 0]; [0; 0]; [0; 0]; [1; 0]; [0; 1]]%R
                   [0; 0; 0; 0; 0; 0]%R)
    (mk_Linear 2 2 [[1; 0]; [0; 1]]%R [0; 0]%R).

Definition example_linear1 : Linear := mk_Linear 2 1 [[0; 0]]%R [0]%R.
Definition example_linear2 : Linear := mk_Linear 1 2 [[0]; [0]]%R [0; 0]%R.

(** [nn.LayerNorm(2)] as constructed: weight 1, bias 0, [eps = 1e-5]. *)
Definition example_norm : Torch.LayerNorm :=
  Torch.mk_LayerNorm [1; 1]%R [0; 0]%R (1 / 100000)%R.

Definition example_layer : Torch.TransformerEncoderLayer :=
  Torch.mk_TransformerEncoderLayer
    example_attn example_linear1 example_linear2 example_norm example_norm.

(** The embedding keeps the real part of the wavefunction in its first
    entry; the output projection is the identity. *)
Definition example_emb_w : list (list R) := [[1; 0; 0]; [0; 0; 0]]%R.
Definition example_emb_b : list R := [0; 0]%R.
Definition example_out_w : list (list R) := [[1; 0]; [0; 1]]%R.
Definition example_out_b : list R := [0; 0]%R.

(** The first model for [d_model = 2], [seq_length = 1], [n_grid = 1], as
    constructed (training) and as evaluated. *)
Definition example_model1_fresh : Model1.QuantumTransformer (E := Torch.encoder) :=
  Model1.mk (E := Torch.encoder)
    (mk_Linear 3 2 example_emb_w example_emb_b)
    (mk_tensor [1; 1; 2] [0; 1]%R)
    2 [example_layer]
    (mk_Linear 2 2 example_out_w example_out_b)
    true.

Definition example_model1 : Model1.QuantumTransformer (E := Torch.encoder) :=
  eval example_model1_fresh.

(** The second model with the same weights, evaluated; its table has
    [max_len] rows. *)
Definition example_pe2 : Model2.PositionalEncoding :=
  match Model2.PositionalEncoding_init 2 with
  | Ok p => p
  | Raise _ => Model2.mk_pe (mk_tensor [] [])
  end.

Definition example_model2 : Model2.QuantumTransformer (E := Torch.encoder) :=
  Model2.mk (E := Torch.encoder) 1 2
    (mk_Linear 3 2 example_emb_w example_emb_b)
    (mk_Linear 2 2 example_out_w example_out_b)
    example_pe2 [example_layer] false.

(** A stand-in for the optimizer: its state counts the steps taken, and a
    step lowers every entry of the embedding's bias by a tenth. *)
Definition example_update (m : Model1.QuantumTransformer (E := Torch.encoder))
    (o : nat) (bx by_ : tensor)
  : Model1.QuantumTransformer (E := Torch.encoder) * nat :=
  (Model1.mk (E := Torch.encoder)
     (mk_Linear (in_features (Model1.embedding m)) (out_features (Model1.embedding m))
        (weight (Model1.embedding m))
        (map (fun b => (b - 1 / 10)%R) (bias (Model1.embedding m))))
     (Model1.positional_encoding m) (Model1.d_model m) (Model1.encoder m)
     (Model1.output_layer m) (Model1.training m),
   S o).

(** A sampler that visits the samples from the last to the first. *)
Definition example_randperm (e n : nat) : list nat := rev (seq 0 n).

(** What the layer norm of [example_norm] makes of a token [(a, b)]: with
    [d = a - b], the entries [squash d] and [squash (- d)]. *)
Definition squash (d : R) : R :=
  (d / 2 / sqrt (d / 2 * (d / 2) + 1 / 100000))%R.

Definition norm_pair (a b : R) : list R := [squash (a - b); squash (b - a)].

(** The token the example encoder returns for a batch element whose token
    enters as [(a, 1)]: with the other batch element [(b, 1)] in the same
    sequence ([out1]), and as a sequence of its own ([out2]). *)
Definition out1 (a b : R) : list R :=
  norm_pair (squash ((a + (a + b) / 2) - (1 + (1 + 1) / 2)))
            (squash ((1 + (1 + 1) / 2) - (a + (a + b) / 2))).

Definition out2 (a : R) : list R :=
  norm_pair (squash ((a + a) - (1 + 1))) (squash ((1 + 1) - (a + a))).

(** ** The forward pass in closed form

    What [forward] computes, token by token: the input triple of a token,
    its embedding with the positional row added, the token the encoder
    returns for it, and its projection onto the two output channels.  The
    encoder sees one sequence per batch element under the batch-first layout
    and one sequence per token position otherwise. *)

(** [B] batch elements of [N] tokens each, token by token. *)
Definition blocks (B N : nat) (g : nat -> nat -> list R) : list R :=
  flat_map (fun b => flat_map (fun n => g b n) (seq 0 N)) (seq 0 B).

Section ClosedForm.
Context {E : TransformerEncoder}.
Variable layout : bool.
Variable m : Model1.QuantumTransformer.
Variables psi_real psi_imag potential : tensor.
Variables B N : nat.

Definition input_token (b n : nat) : list R :=
  [nth (b * N + n) (data psi_real) 0%R;
   nth (b * N + n) (data psi_imag) 0%R;
   nth (b * N + n) (data potential) 0%R].

Definition embedded_token (b n : nat) : list R :=
  tabulate (Model1.d_model m)
    (fun k => (nth k (linear_token (Model1.embedding m) (input_token b n)) 0
               + nth (n * Model1.d_model m + k)
                     (data (Model1.positional_encoding m)) 0)%R).

Definition encoded_token (b n : nat) : list R :=
  let out :=
    if layout
    then encoder_forward (Model1.encoder m) (Model1.training m)
           (tabulate N (fun s => embedded_token b s))
    else encoder_forward (Model1.encoder m) (Model1.training m)
           (tabulate B (fun s => embedded_token s n)) in
  tabulate (Model1.d_model m)
    (fun k => nth k (nth (if layout then n else b) out []) 0%R).

Definition output_token (b n : nat) : list R :=
  linear_token (Model1.output_layer m) (encoded_token b n).
End ClosedForm.

Arguments embedded_token {E} m psi_real psi_imag potential N b n.
Arguments encoded_token {E} layout m psi_real psi_imag potential B N b n.
Arguments output_token {E} layout m psi_real psi_imag potential B N b n.

(** The second model's layers, arranged as a record of the first class. *)
Definition as_model1 {E : TransformerEncoder} (m : Model2.QuantumTransformer)
  : Model1.QuantumTransformer :=
  Model1.mk (Model2.input_proj m) (Model2.pe (Model2.positional_encoding m))
    (Model2.d_model m) (Model2.encoder m) (Model2.output_proj m)
    (Model2.training m).

(** ** The trainer as the specification words it

    "Draw all batches once (one epoch); for each batch compute the model
    output, compute the per-element mean squared error against the batch's
    target field, perform one parameter update; report the epoch's mean loss
    across batches."  These definitions follow that sentence, not the
    notebook: they are pure, they give the batch, the channels and the
    loss by their entries, without the loader, the indexing and the loss
    function of the embedding, and they are compared with [training_loop]
    below. *)

Definition unwrap {A : Type} (default : A) (r : result A) : A :=
  match r with Ok a => a | Raise _ => default end.

Definition empty_tensor : tensor := mk_tensor [0] [].

Definition mean (l : list R) : R := (sum_list l / INR (length l))%R.

(** The samples of a group of indices, one after the other: entry [r] of
    sample [j] of the batch is entry [r] of sample [idxs[j]] of the array. *)
Definition gather (t : tensor) (idxs : list nat) : tensor :=
  let item := tl (shape t) in
  mk_tensor (length idxs :: item)
    (flat_map (fun i =>
       tabulate (numel item) (fun r => nth (i * numel item + r) (data t) 0%R))
       idxs).

(** Channel [c] of a field whose last axis holds the three channels of each
    grid point. *)
Definition channel (c : nat) (x : tensor) : tensor :=
  let s := removelast (shape x) in
  mk_tensor s (tabulate (numel s) (fun q => nth (3 * q + c) (data x) 0%R)).

(** The per-element mean squared error: the mean, over the elements of the
    target, of the square of the difference between output and target. *)
Definition mean_squared_error (output target : tensor) : R :=
  mean (tabulate (numel (shape target))
          (fun k => Rsqr (nth k (data output) 0 - nth k (data target) 0)%R)).

Section TrainerSpec.
Context {E : TransformerEncoder}.
Variable optimizer : Type.
Variable update : Model1.QuantumTransformer -> optimizer -> tensor -> tensor ->
                  Model1.QuantumTransformer * optimizer.

(** The batch of inputs and targets for a group of sample indices. *)
Definition spec_batch (l : DataLoader) (idxs : list nat) : tensor * tensor :=
  (gather (X (loader_dataset l)) idxs, gather (y (loader_dataset l)) idxs).

(** The model output for a batch of inputs: the model applied to the real
    part, the imaginary part and the potential of the batch. *)
Definition spec_output (m : Model1.QuantumTransformer) (bx : tensor) : tensor :=
  unwrap empty_tensor
    (Model1.forward m (channel 0 bx) (channel 1 bx) (channel 2 bx)).

(** The loss of a batch: the per-element mean squared error of the model
    output against the batch's target. *)
Definition spec_loss (m : Model1.QuantumTransformer) (b : tensor * tensor) : R :=
  mean_squared_error (spec_output m (fst b)) (snd b).

(** One epoch: every batch once, one update per batch; the result carries
    the per-batch losses in order. *)
Fixpoint spec_epoch (l : DataLoader) (m : Model1.QuantumTransformer)
    (o : optimizer) (batches : list (list nat))
  : Model1.QuantumTransformer * optimizer * list R :=
  match batches with
  | [] => (m, o, [])
  | idxs :: rest =>
      let b := spec_batch l idxs in
      let mo := update m o (fst b) (snd b) in
      let r := spec_epoch l (fst mo) (snd mo) rest in
      (fst (fst r), snd (fst r), spec_loss m b :: snd r)
  end.

(** The epochs in order, given the batches of each; the result carries the
    mean losses reported. *)
Fixpoint spec_training (l : DataLoader) (batches_of : nat -> list (list nat))
    (m : Model1.QuantumTransformer) (o : optimizer) (epochs : list nat)
  : Model1.QuantumTransformer * optimizer * list R :=
  match epochs with
  | [] => (m, o, [])
  | e :: rest =>
      let r := spec_epoch l (train m) o (batches_of e) in
      let r' := spec_training l batches_of (fst (fst r)) (snd (fst r)) rest in
      (fst (fst r'), snd (fst r'), mean (snd r) :: snd r')
  end.
End TrainerSpec.

Arguments spec_epoch {E optimizer} update l m o batches.
Arguments spec_training {E optimizer} update l batches_of m o epochs.

(** A partition of the sample indices [0 .. n-1] into at most [size] at a
    time: every index is in exactly one batch. *)
Definition is_partition (n size : nat) (batches : list (list nat)) : Prop :=
  Permutation (concat batches) (seq 0 n) /\
  Forall (fun b => b <> [] /\ length b <= size) batches.

(** ** The cells that prepare and run the propagation (cells 9 to 13) *)

(** The bounds of a Python slice [a:b] on an axis of length [w]: both ends
    are clamped to the axis, and a stop before the start gives an empty
    slice.  The result is the first index and the number of indices. *)
Definition slice_bounds (w a : nat) (stop : option nat) : nat * nat :=
  let lo := Nat.min a w in
  let hi := match stop with Some b => Nat.min b w | None => w end in
  (lo, hi - lo).

(** [t[:, ..., :, a:b]] with [ax] full slices before [a:b]; a tensor of rank
    [ax] or less has too few axes. *)
Definition slice_axis (ax : nat) (t : tensor) (a : nat) (stop : option nat)
  : result tensor :=
  match skipn ax (shape t) with
  | [] => Raise IndexError
  | w :: post =>
      let pre := firstn ax (shape t) in
      let inner := numel post in
      let lo := fst (slice_bounds w a stop) in
      let len := snd (slice_bounds w a stop) in
      Ok (mk_tensor (pre ++ len :: post)
            (flat_map (fun r => firstn (len * inner)
                                  (skipn ((r * w + lo) * inner) (data t)))
               (seq 0 (numel pre))))
  end.

(** [t.unsqueeze(1)]; a tensor of rank 0 has no position 1. *)
Definition unsqueeze1 (t : tensor) : result tensor :=
  match shape t with
  | d :: s => Ok (mk_tensor (d :: 1 :: s) (data t))
  | [] => Raise IndexError
  end.

(** What cells 9 and 10 leave in the notebook's variables. *)
Record prepared : Type := mk_prepared {
  prep_psi_real : tensor;        (* [initial_psi_real] *)
  prep_psi_imag : tensor;        (* [initial_psi_imag] *)
  prep_potential : tensor;       (* [potential] *)
  prep_dvr_wave : list (tensor * tensor);
  prep_sequence_length : nat;
  prep_n_grid : nat
}.

(** [trajectory_idx = 0] *)
Definition trajectory_idx : nat := 0.

(** [(dataset_Y[trajectory_idx, i, :n_grid], dataset_Y[trajectory_idx, i, n_grid:])] *)
Definition dvr_pair (dataset_Y : tensor) (grid i : nat) : result (tensor * tensor) :=
  traj <- select0 dataset_Y trajectory_idx ;;
  step <- select0 traj i ;;
  re <- slice_axis 0 step 0 (Some grid) ;;
  im <- slice_axis 0 step grid None ;;
  Ok (re, im).

(** Cells 9 and 10: the dimensions are read off [dataset_X], the initial
    field is cut out of time step 0 of the first trajectory, the potential
    out of all its time steps, the reference wavefunction out of
    [dataset_y]. *)
Definition prepare_propagation (f : store_file) : result prepared :=
  match shape (dataset_X f) with
  | [num_trajectories; sequence_length; total_features] =>
      let n_grid := total_features / 3 in
      traj <- select0 (dataset_X f) trajectory_idx ;;
      step0 <- select0 traj 0 ;;
      re <- slice_axis 0 step0 0 (Some n_grid) ;;
      im <- slice_axis 0 step0 n_grid (Some (2 * n_grid)) ;;
      potential <- slice_axis 1 traj (2 * n_grid) None ;;
      dvr_wave <- mapM (dvr_pair (dataset_y f) n_grid) (seq 0 sequence_length) ;;
      Ok (mk_prepared (unsqueeze0 re) (unsqueeze0 im) potential dvr_wave
            sequence_length n_grid)
  | s => Raise (ValueError_unpack 3 (length s))
  end.

(** The first lines of cell 11: a time axis for the initial field, a batch
    axis for the potential. *)
Definition add_axes (p : prepared) : result prepared :=
  re <- unsqueeze1 (prep_psi_real p) ;;
  im <- unsqueeze1 (prep_psi_imag p) ;;
  Ok (mk_prepared re im (unsqueeze0 (prep_potential p)) (prep_dvr_wave p)
        (prep_sequence_length p) (prep_n_grid p)).

Section Cells.
Context {M : Type} {MM : Module M}.

(** The call both cell 11 and cell 13 make, with [N = sequence_length]. *)
Definition run_propagation (model : M) (p : prepared)
  : M * result (list (tensor * tensor)) :=
  propagate_wavefunction model (prep_psi_real p) (prep_psi_imag p)
    (prep_potential p) (prep_sequence_length p).

(** Cells 9, 10 and 13 in order. *)
Definition cells_9_10_13 (model : M) (f : store_file)
  : result (list (tensor * tensor)) :=
  p <- prepare_propagation f ;;
  snd (run_propagation model p).

(** Cells 9, 10 and 11 in order. *)
Definition cells_9_10_11 (model : M) (f : store_file)
  : result (list (tensor * tensor)) :=
  p <- prepare_propagation f ;;
  q <- add_axes p ;;
  snd (run_propagation model q).
End Cells.

(** A store file with one trajectory of two time steps on a grid of two
    points: columns are real part, imaginary part, potential. *)
Definition example_store_blocks : store_file :=
  mk_store (mk_tensor [1; 2; 6] [1; 2; 3; 4; 5; 6; 7; 8; 9; 10; 11; 12]%R)
           (mk_tensor [1; 2; 4] [1; 2; 3; 4; 5; 6; 7; 8]%R).

(** ** More sample models *)

(** A first model whose positional table has two rows (what [__init__]
    builds for [seq_length * n_grid = 2]), with the weights of
    [example_model1]. *)
Definition example_model1_two_rows : Model1.QuantumTransformer (E := Torch.encoder) :=
  Model1.mk (E := Torch.encoder)
    (mk_Linear 3 2 example_emb_w example_emb_b)
    (mk_tensor [1; 2; 2] [0; 1; sin 1; cos 1]%R)
    2 [example_layer]
    (mk_Linear 2 2 example_out_w example_out_b)
    false.

(** The two classes as their constructors leave them, for [d_model = 2],
    one time step and one grid point, from the same weights. *)
Definition example_model1_init : Model1.QuantumTransformer (E := Torch.encoder) :=
  match Model1.init (E := Torch.encoder) 2 1 1 example_emb_w example_emb_b
          [example_layer] example_out_w example_out_b with
  | Ok m => m
  | Raise _ => example_model1_fresh
  end.

Definition example_model2_init : Model2.QuantumTransformer (E := Torch.encoder) :=
  Model2.mk (E := Torch.encoder) 1 2
    (mk_Linear 3 2 example_emb_w example_emb_b)
    (mk_Linear 2 2 example_out_w example_out_b)
    example_pe2 [example_layer] true.

(** Fields of shape (batch 1, time 1, grid [length l]). *)
Definition field_11 (l : list R) : tensor := mk_tensor [1; 1; length l] l.

(** A dataset of one trajectory of one time step on three grid points, with
    a loader of batches of one sample: more tokens than the two rows of
    [example_model1_two_rows]. *)
Definition example_dataset_fine : QuantumWaveDataset :=
  mk_dataset (mk_tensor [1; 1; 3; 3] [1; 0; 0; 2; 0; 0; 3; 0; 0]%R)
             (mk_tensor [1; 1; 3; 2] [1; 0; 2; 0; 3; 0]%R)
             1 1 3.

Definition example_loader_fine : DataLoader := mk_loader example_dataset_fine 1.

(** ** A table of one row, tiled *)

(** The model [m] with the one row of its positional table written out [N]
    times. *)
Definition tile_table {E : TransformerEncoder} (m : Model1.QuantumTransformer) (N : nat)
  : Model1.QuantumTransformer :=
  Model1.mk (Model1.embedding m)
    (mk_tensor [1; N; Model1.d_model m]
       (flat_map (fun _ => data (Model1.positional_encoding m)) (seq 0 N)))
    (Model1.d_model m) (Model1.encoder m) (Model1.output_layer m)
    (Model1.training m).

(** ** The objects a run acts on

    [propagate_wavefunction] and the training loop act on objects that they
    share with their caller: the model, whose attributes a method may
    assign, the optimizer, and the interpreter's grad mode
    ([torch.is_grad_enabled()]).  The definitions so far give what the code
    returns.  The ones below run the same statements on these objects, in a
    state-and-exception monad, so that what a run leaves behind can be
    stated: a program takes the state of the objects and returns their state
    when it ends, with its value or the exception that ended it.  They are
    compared with the definitions above. *)

Definition prog (S A : Type) : Type := S -> S * result A.

Definition ret {S A : Type} (a : A) : prog S A := fun s => (s, Ok a).

(** A computation that touches no object. *)
Definition lift {S A : Type} (r : result A) : prog S A := fun s => (s, r).

(** Reading an attribute, [self.f]. *)
Definition attr {S A : Type} (f : S -> A) : prog S A := fun s => (s, Ok (f s)).

Definition bind_prog {S A B : Type} (c : prog S A) (k : A -> prog S B) : prog S B :=
  fun s =>
    let r := c s in
    match snd r with
    | Ok a => k a (fst r)
    | Raise e => (fst r, Raise e)
    end.

Notation "x <~ c ;; k" := (bind_prog c (fun x => k))
  (at level 61, c at next level, right associativity).

(** A model as an object: [model(a, b, c)] runs [forward] on the object. *)
Class ModuleObject (M : Type) : Type := {
  run : tensor -> tensor -> tensor -> prog M pyvalue
}.

(** The interpreter during a propagation: the model object and the grad
    mode. *)
Record interp (M : Type) : Type := mk_interp {
  the_model : M;
  grad_enabled : bool
}.

Arguments mk_interp {M} the_model grad_enabled.
Arguments the_model {M} i.
Arguments grad_enabled {M} i.

Module OnObject.

Section Forward.
Context {E : TransformerEncoder}.

(** [forward] of the first class, statement by statement, on [self]: every
    use of [self] is the reading of an attribute; no statement assigns to
    an attribute or updates a tensor in place ([x = x + ...] makes a new
    tensor). *)
Definition forward1 (psi_real psi_imag potential : tensor)
  : prog Model1.QuantumTransformer tensor :=
  x <~ lift (stack_last psi_real psi_imag potential) ;;
  match shape x with
  | [batch_size; seq_length; n_grid; _] =>
      x <~ lift (view x [batch_size; seq_length * n_grid; 3]) ;;
      embedding <~ attr Model1.embedding ;;
      x <~ lift (linear embedding x) ;;
      positional_encoding <~ attr Model1.positional_encoding ;;
      pe <~ lift (slice1 positional_encoding (nth 1 (shape x) 0)) ;;
      x <~ lift (tensor_add x pe) ;;
      self <~ attr (fun self => self) ;;
      x <~ lift (transformer_encoder Model1.batch_first (Model1.d_model self)
                   (Model1.encoder self) (Model1.training self) x) ;;
      output_layer <~ attr Model1.output_layer ;;
      x <~ lift (linear output_layer x) ;;
      lift (view x [batch_size; seq_length; n_grid; 2])
  | s => lift (Raise (ValueError_unpack 4 (length s)))
  end.

(** [forward] of the second class, on [self]; [PositionalEncoding.forward]
    reads [self.pe]. *)
Definition forward2 (psi_real psi_imag potential : tensor)
  : prog Model2.QuantumTransformer (tensor * tensor) :=
  match shape psi_real with
  | [batch_size; seq_length; n_grid] =>
      x <~ lift (stack_last psi_real psi_imag potential) ;;
      x <~ lift (view x [batch_size; seq_length * n_grid; 3]) ;;
      input_proj <~ attr Model2.input_proj ;;
      x <~ lift (linear input_proj x) ;;
      positional_encoding <~ attr Model2.positional_encoding ;;
      x <~ lift (Model2.PositionalEncoding_forward positional_encoding x) ;;
      self <~ attr (fun self => self) ;;
      x <~ lift (transformer_encoder Model2.batch_first (Model2.d_model self)
                   (Model2.encoder self) (Model2.training self) x) ;;
      output_proj <~ attr Model2.output_proj ;;
      x <~ lift (linear output_proj x) ;;
      x <~ lift (view x [batch_size; seq_length; n_grid; 2]) ;;
      psi_real_pred <~ lift (select_last x 0) ;;
      psi_imag_pred <~ lift (select_last x 1) ;;
      ret (psi_real_pred, psi_imag_pred)
  | s => lift (Raise (ValueError_unpack 3 (length s)))
  end.

#[global] Instance QuantumTransformer1_Object : ModuleObject Model1.QuantumTransformer := {
  run a b c := x <~ forward1 a b c ;; ret (PyTensor x)
}.

#[global] Instance QuantumTransformer2_Object : ModuleObject Model2.QuantumTransformer := {
  run a b c := r <~ forward2 a b c ;; ret (PyTuple2 (fst r) (snd r))
}.
End Forward.

Section Propagator.
Context {M : Type} {MM : Module M} {MO : ModuleObject M}.

(** [model.eval()] *)
Definition model_eval : prog (interp M) unit :=
  fun w => (mk_interp (eval (the_model w)) (grad_enabled w), Ok tt).

(** [with torch.no_grad(): body]: the mode is switched off for the body and
    put back on the way out, also when the body raises. *)
Definition no_grad {A : Type} (body : prog (interp M) A) : prog (interp M) A :=
  fun w =>
    let r := body (mk_interp (the_model w) false) in
    (mk_interp (the_model (fst r)) (grad_enabled w), snd r).

(** [model(a, b, c)], with the [requires_grad] of what it returns: the
    parameters of a module require grad, so what is computed from them does
    exactly when the mode is on. *)
Definition model_call (a b c : tensor) : prog (interp M) (pyvalue * bool) :=
  fun w =>
    let r := run a b c (the_model w) in
    (mk_interp (fst r) (grad_enabled w),
     match snd r with
     | Ok v => Ok (v, grad_enabled w)
     | Raise e => Raise e
     end).

(** [t.cpu().numpy()] refuses a tensor that requires grad. *)
Definition numpy (t : tensor) (requires_grad : bool) : result tensor :=
  if requires_grad then Raise RuntimeError_numpy else Ok t.

(** The body of [for t in range(N)]; the assignment
    [psi_real, psi_imag = model(...)] is inside the [with] block, the
    [append] after it. *)
Fixpoint propagate_steps (potential : tensor) (ts : list nat)
    (psi_real psi_imag : tensor) (acc : list (tensor * tensor))
  : prog (interp M) (list (tensor * tensor)) :=
  match ts with
  | [] => ret acc
  | t :: ts' =>
      v <~ lift (select0 potential t) ;;
      let V_t := unsqueeze0 v in
      out <~ no_grad (o <~ model_call psi_real psi_imag V_t ;;
                      p <~ lift (unpack2 (fst o)) ;;
                      ret (p, snd o)) ;;
      let psi_real := fst (fst out) in
      let psi_imag := snd (fst out) in
      re <~ lift (numpy psi_real (snd out)) ;;
      im <~ lift (numpy psi_imag (snd out)) ;;
      propagate_steps potential ts' psi_real psi_imag (acc ++ [(re, im)])
  end.

Definition propagate_wavefunction
    (initial_psi_real initial_psi_imag potential : tensor) (N : nat)
  : prog (interp M) (list (tensor * tensor)) :=
  _ <~ model_eval ;;
  propagate_steps potential (seq 0 N) initial_psi_real initial_psi_imag [].
End Propagator.

Section Trainer.
Context {E : TransformerEncoder}.
Variable optimizer : Type.
Variable update : Model1.QuantumTransformer -> optimizer -> tensor -> tensor ->
                  Model1.QuantumTransformer * optimizer.
Variable randperm : nat -> nat -> list nat.

(** A method of the model, run on the model the loop holds. *)
Definition on_model {A : Type} (c : prog Model1.QuantumTransformer A)
  : prog (train_state optimizer) A :=
  fun st =>
    let r := c (st_model st) in
    (mk_state (fst r) (st_optimizer st) (st_total_loss st), snd r).

(** [optimizer.zero_grad(); loss.backward(); optimizer.step()] for the loss
    of the batch, and [total_loss += loss.item()]. *)
Definition optimizer_step (bx by_ : tensor) (loss : R)
  : prog (train_state optimizer) unit :=
  fun st =>
    let mo := update (st_model st) (st_optimizer st) bx by_ in
    (mk_state (fst mo) (snd mo) (st_total_loss st + loss)%R, Ok tt).

(** One iteration of [for X, y in train_loader]. *)
Definition train_step (l : DataLoader) (idxs : list nat)
  : prog (train_state optimizer) unit :=
  b <~ lift (fetch l idxs) ;;
  psi_real <~ lift (select_last (fst b) 0) ;;
  psi_imag <~ lift (select_last (fst b) 1) ;;
  potential <~ lift (select_last (fst b) 2) ;;
  output <~ on_model (forward1 psi_real psi_imag potential) ;;
  loss <~ lift (mse_loss output (snd b)) ;;
  optimizer_step (fst b) (snd b) loss.

Fixpoint train_batches (l : DataLoader) (batches : list (list nat))
  : prog (train_state optimizer) unit :=
  match batches with
  | [] => ret tt
  | idxs :: rest => _ <~ train_step l idxs ;; train_batches l rest
  end.

(** [model.train(); total_loss = 0] *)
Definition start_epoch : prog (train_state optimizer) unit :=
  fun st => (mk_state (train (st_model st)) (st_optimizer st) 0%R, Ok tt).

(** One pass of [for epoch in range(num_epochs)]; the value is the one
    printed. *)
Definition train_epoch (l : DataLoader) (epoch : nat)
  : prog (train_state optimizer) R :=
  _ <~ start_epoch ;;
  _ <~ train_batches l
         (batch_indices l (randperm epoch (dataset_len (loader_dataset l)))) ;;
  total_loss <~ attr st_total_loss ;;
  lift (py_div total_loss (loader_len l)).

Fixpoint train_epochs (l : DataLoader) (epochs : list nat) (printed : list R)
  : prog (train_state optimizer) (list R) :=
  match epochs with
  | [] => ret printed
  | e :: rest =>
      mean <~ train_epoch l e ;;
      train_epochs l rest (printed ++ [mean])
  end.

Definition training_loop (l : DataLoader) (num_epochs : nat)
  : prog (train_state optimizer) (list R) :=
  train_epochs l (seq 0 num_epochs) [].
End Trainer.

Arguments on_model {E optimizer A} c st.
Arguments optimizer_step {E optimizer} update bx by_ loss st.
Arguments train_step {E optimizer} update l idxs st.
Arguments train_batches {E optimizer} update l batches st.
Arguments start_epoch {E optimizer} st.
Arguments train_epoch {E optimizer} update randperm l epoch st.
Arguments train_epochs {E optimizer} update randperm l epochs printed st.
Arguments training_loop {E optimizer} update randperm l num_epochs st.

End OnObject.

(** A property of the parameters of a model of the first class: its
    positional table is [t]. *)
Definition has_table {E : TransformerEncoder} (t : tensor)
    (p : @params Model1.QuantumTransformer _) : Prop :=
  snd (fst (fst p)) = t.
(** * Properties *)

(** ** Lists and index arithmetic *)

Lemma length_tabulate {A : Type} (n : nat) (f : nat -> A) :
  length (tabulate n f) = n.
Proof. unfold tabulate. now rewrite length_map, length_seq. Qed.

Lemma nth_tabulate {A : Type} (n : nat) (f : nat -> A) (i : nat) (d : A) :
  i < n -> nth i (tabulate n f) d = f i.
Proof.
  intros Hi. unfold tabulate.
  rewrite (nth_indep _ d (f 0)) by now rewrite length_map, length_seq.
  rewrite map_nth, seq_nth; auto.
Qed.

Lemma length_flat_map_const {A B : Type} (f : A -> list B) (k : nat) (l : list A) :
  (forall a, In a l -> length (f a) = k) ->
  length (flat_map f l) = length l * k.
Proof.
  induction l as [|a l IH]; intros H; simpl; [reflexivity|].
  rewrite length_app, H, IH; auto with datatypes.
Qed.

Lemma length_flat_map_seq {B : Type} (f : nat -> list B) (k n : nat) :
  (forall i, i < n -> length (f i) = k) ->
  length (flat_map f (seq 0 n)) = n * k.
Proof.
  intros H. rewrite (length_flat_map_const f k), length_seq; auto.
  intros a Ha. apply in_seq in Ha. apply H. lia.
Qed.

Lemma nth_flat_map_seq {B : Type} (f : nat -> list B) (k : nat) (d : B) :
  (forall i, length (f i) = k) ->
  forall n s i j, i < n -> j < k ->
    nth (i * k + j) (flat_map f (seq s n)) d = nth j (f (s + i)) d.
Proof.
  intros Hlen. induction n as [|n IH]; intros s i j Hi Hj; [lia|].
  simpl. destruct i as [|i].
  - simpl. rewrite app_nth1 by (rewrite Hlen; exact Hj).
    now rewrite Nat.add_0_r.
  - rewrite app_nth2 by (rewrite Hlen; simpl; lia).
    rewrite Hlen. replace (S i * k + j - k) with (i * k + j) by (simpl; lia).
    rewrite IH by lia. f_equal. f_equal. lia.
Qed.

Lemma nth_chunk {A : Type} (l : list A) (k m j : nat) (d : A) :
  j < m -> nth j (firstn m (skipn k l)) d = nth (k + j) l d.
Proof.
  intros Hj. rewrite nth_firstn, (proj2 (Nat.ltb_lt _ _) Hj).
  apply nth_skipn.
Qed.

Lemma list_nat_eqb_refl (s : list nat) : list_nat_eqb s s = true.
Proof. unfold list_nat_eqb. destruct (list_eq_dec Nat.eq_dec s s); congruence. Qed.

Lemma list_nat_eqb_eq (a b : list nat) : list_nat_eqb a b = true <-> a = b.
Proof.
  unfold list_nat_eqb. destruct (list_eq_dec Nat.eq_dec a b); split; congruence.
Qed.

Lemma numel_app (a b : list nat) : numel (a ++ b) = numel a * numel b.
Proof. induction a as [|x a IH]; simpl; [lia|]. rewrite IH. lia. Qed.

Lemma ravel_lt (s idx : list nat) : in_range s idx -> ravel s idx < numel s.
Proof.
  revert idx. induction s as [|d s IH]; intros [|i idx]; simpl; try tauto; try lia.
  intros [Hi Hr]. specialize (IH _ Hr). nia.
Qed.

(** The flat offset and the multi-index determine each other. *)
Lemma unravel_ravel (s idx : list nat) :
  in_range s idx -> unravel s (ravel s idx) = idx.
Proof.
  revert idx. induction s as [|d s IH]; intros [|i idx]; simpl; try tauto.
  intros [Hi Hr]. pose proof (ravel_lt _ _ Hr) as Hlt.
  assert (Hn : numel s <> 0) by lia.
  rewrite Nat.div_add_l by exact Hn.
  rewrite (Nat.div_small (ravel s idx)) by exact Hlt.
  rewrite Nat.add_0_r, (Nat.mod_small i d) by exact Hi.
  rewrite Nat.add_comm, Nat.Div0.mod_add, (Nat.mod_small _ _ Hlt).
  now rewrite IH.
Qed.

Lemma ravel_unravel (s : list nat) (off : nat) :
  off < numel s -> ravel s (unravel s off) = off.
Proof.
  revert off. induction s as [|d s IH]; intros off H; simpl in *; [lia|].
  assert (Hn : numel s <> 0) by (intros E0; rewrite E0 in H; lia).
  rewrite IH by (apply Nat.mod_upper_bound; exact Hn).
  rewrite Nat.mod_small.
  - pose proof (Nat.div_mod_eq off (numel s)). lia.
  - apply Nat.Div0.div_lt_upper_bound. lia.
Qed.

Lemma in_range_unravel (s : list nat) (off : nat) :
  off < numel s -> in_range s (unravel s off).
Proof.
  revert off. induction s as [|d s IH]; intros off H; simpl in *; [exact I|].
  assert (Hn : numel s <> 0) by (intros E0; rewrite E0 in H; lia).
  split.
  - apply Nat.mod_upper_bound. intros E0; subst d; lia.
  - apply IH. apply Nat.mod_upper_bound; exact Hn.
Qed.

(** ** [view]: flattening and unflattening (C6) *)

Lemma view_ok (t : tensor) (s : list nat) :
  numel s = length (data t) -> view t s = Ok (mk_tensor s (data t)).
Proof. intros H. unfold view. now rewrite (proj2 (Nat.eqb_eq _ _) H). Qed.

Lemma view_inv (t u : tensor) (s : list nat) :
  view t s = Ok u -> shape u = s /\ data u = data t /\ wf u.
Proof.
  unfold view. destruct (numel s =? length (data t)) eqn:Hn; [|discriminate].
  intros H; injection H as <-. apply Nat.eqb_eq in Hn.
  unfold wf; simpl. auto.
Qed.

(** The token that [view] gives the pair (time [t], grid point [g]) is
    number [t * G + g]. *)
Lemma flatten_index (B T G C b t g c : nat) :
  ravel [B; T * G; C] [b; t * G + g; c] = ravel [B; T; G; C] [b; t; g; c].
Proof. simpl. ring. Qed.

(** C6. Flattening the time and grid axes of a (batch, time, grid, channels)
    field into one token axis of length time*grid and unflattening it with the
    same dimensions gives back the field itself; the flattened field holds
    entry (b, t, g, c) of the field at token t*grid+g. *)
Theorem flatten_unflatten_roundtrip (x : tensor) (B T G C : nat) :
  shape x = [B; T; G; C] ->
  wf x ->
  exists f,
    view x [B; T * G; C] = Ok f /\
    shape f = [B; T * G; C] /\
    (forall b t g c, get f [b; t * G + g; c] = get x [b; t; g; c]) /\
    view f [B; T; G; C] = Ok x.
Proof.
  intros Hs Hwf. destruct x as [s d]. unfold wf in Hwf. simpl in *. subst s.
  exists (mk_tensor [B; T * G; C] d). repeat split.
  - apply view_ok. simpl in *. lia.
  - intros b t g c. unfold get. cbn [shape data].
    now rewrite flatten_index.
  - rewrite view_ok by (symmetry; exact Hwf). reflexivity.
Qed.

Lemma flatten_unflatten_roundtrip_witness :
  exists f,
    view example_field [1; 2 * 2; 1] = Ok f /\
    shape f = [1; 2 * 2; 1] /\
    (forall b t g c, get f [b; t * 2 + g; c] = get example_field [b; t; g; c]) /\
    view f [1; 2; 2; 1] = Ok example_field.
Proof.
  apply (flatten_unflatten_roundtrip example_field 1 2 2 1); reflexivity.
Defined.

(** ** Shapes through the layers *)

Lemma stack_last_ok (a b c : tensor) (s : list nat) :
  shape a = s -> shape b = s -> shape c = s ->
  exists x, stack_last a b c = Ok x /\
            shape x = s ++ [3] /\ length (data x) = numel s * 3.
Proof.
  intros Ha Hb Hc. unfold stack_last.
  rewrite Ha, Hb, Hc, list_nat_eqb_refl. simpl.
  eexists; split; [reflexivity|]. simpl. split; [reflexivity|].
  apply length_flat_map_seq. reflexivity.
Qed.

Lemma stack_last_raise (a b c : tensor) :
  shape a <> shape b \/ shape a <> shape c ->
  stack_last a b c = Raise RuntimeError_stack.
Proof.
  intros H. unfold stack_last.
  destruct (list_nat_eqb (shape a) (shape b)) eqn:E1;
    destruct (list_nat_eqb (shape a) (shape c)) eqn:E2; simpl; try reflexivity.
  apply list_nat_eqb_eq in E1, E2. tauto.
Qed.

Lemma linear_ok (l : Linear) (x : tensor) (pre : list nat) :
  shape x = pre ++ [in_features l] ->
  exists z, linear l x = Ok z /\
            shape z = pre ++ [out_features l] /\
            length (data z) = numel pre * out_features l.
Proof.
  intros Hs. unfold linear. rewrite Hs, rev_app_distr. simpl.
  rewrite Nat.eqb_refl, rev_involutive.
  eexists; split; [reflexivity|]. simpl. split; [reflexivity|].
  apply length_flat_map_seq. intros i _. apply length_tabulate.
Qed.

Lemma slice1_ok (t : tensor) (L D n : nat) :
  shape t = [1; L; D] -> n <= L -> length (data t) = L * D ->
  exists z, slice1 t n = Ok z /\ shape z = [1; n; D] /\
            data z = firstn (n * D) (data t).
Proof.
  intros Hs Hn Hl. unfold slice1. rewrite Hs.
  eexists; split; [reflexivity|]. simpl.
  rewrite (Nat.min_l n L) by exact Hn. split; [reflexivity|].
  now rewrite Nat.mul_1_r, app_nil_r.
Qed.

Lemma broadcast_dim_same (x : nat) : broadcast_dim x x = Some x.
Proof. unfold broadcast_dim. now rewrite Nat.eqb_refl. Qed.

Lemma broadcast_dim_one (x : nat) : broadcast_dim x 1 = Some x.
Proof.
  unfold broadcast_dim. destruct (x =? 1) eqn:E; [reflexivity|].
  now rewrite Nat.eqb_refl.
Qed.

Lemma broadcast_shapes_pe (B N D : nat) :
  broadcast_shapes [B; N; D] [1; N; D] = Some [B; N; D].
Proof.
  unfold broadcast_shapes. simpl.
  now rewrite !broadcast_dim_same, broadcast_dim_one.
Qed.

Lemma tensor_add_pe_ok (x p : tensor) (B N D : nat) :
  shape x = [B; N; D] -> shape p = [1; N; D] ->
  exists z, tensor_add x p = Ok z /\ shape z = [B; N; D] /\
            length (data z) = B * N * D.
Proof.
  intros Hx Hp. unfold tensor_add, broadcast_map2.
  rewrite Hx, Hp, broadcast_shapes_pe.
  eexists; split; [reflexivity|]. simpl. split; [reflexivity|].
  rewrite length_tabulate. simpl. lia.
Qed.

Lemma transformer_encoder_ok {E : TransformerEncoder} (bf : bool) (d : nat)
    (w : encoder_weights) (tr : bool) (x : tensor) (d0 d1 : nat) :
  shape x = [d0; d1; d] ->
  exists z, transformer_encoder bf d w tr x = Ok z /\ shape z = [d0; d1; d] /\
            length (data z) = d0 * d1 * d.
Proof.
  intros Hs. unfold transformer_encoder. rewrite Hs, Nat.eqb_refl.
  eexists; split; [reflexivity|]. simpl. split; [reflexivity|].
  rewrite (length_flat_map_seq _ (d1 * d)); [lia|].
  intros i _. apply length_flat_map_seq. intros j _. apply length_tabulate.
Qed.

(** ** The forward pass of the first model (C1) *)

Module Model1Facts.
Section WithEncoder.
Context {E : TransformerEncoder}.
Import Model1.

Lemma positional_table_inv (L D : nat) (t : tensor) :
  positional_table L D = Ok t -> shape t = [1; L; D] /\ wf t.
Proof.
  unfold positional_table.
  destruct (assign_cols_ok _ _); [|discriminate].
  destruct (assign_cols_ok _ _); [|discriminate].
  intros H; injection H as <-. unfold wf; simpl. split; [reflexivity|].
  rewrite (length_flat_map_seq _ D); [lia|].
  intros i _. apply length_tabulate.
Qed.

Lemma init_well_formed d seq_length n_grid emb_w emb_b enc out_w out_b m :
  init d seq_length n_grid emb_w emb_b enc out_w out_b = Ok m ->
  well_formed m (seq_length * n_grid).
Proof.
  unfold init, create_positional_encoding.
  destruct (d =? 0); [discriminate|].
  destruct (positional_table _ _) as [t|] eqn:Ht; [|discriminate].
  simpl. intros H; injection H as <-.
  apply positional_table_inv in Ht as [Hs Hw].
  unfold well_formed; simpl. auto 10.
Qed.

Lemma forward_with_shape (layout : bool) (m : QuantumTransformer) (L : nat)
    (psi_real psi_imag potential : tensor) (B T G : nat) :
  well_formed m L ->
  shape psi_real = [B; T; G] ->
  shape psi_imag = [B; T; G] ->
  shape potential = [B; T; G] ->
  T * G <= L ->
  exists out,
    forward_with layout m psi_real psi_imag potential = Ok out /\
    shape out = [B; T; G; 2] /\ wf out.
Proof.
  intros (Hi & Ho & Hpe & Hpw & Hi2 & Ho2) Hr Him Hp HL.
  unfold forward_with.
  destruct (stack_last_ok _ _ _ _ Hr Him Hp)
    as (x0 & -> & Hs0 & Hl0).
  cbn [bind]. rewrite Hs0. cbn [app].
  rewrite view_ok by (rewrite Hl0; simpl; lia). cbn [bind].
  destruct (linear_ok (embedding m) (mk_tensor [B; T * G; 3] (data x0)) [B; T * G])
    as (x1 & -> & Hs1 & Hl1); [now rewrite Hi|].
  cbn [bind]. rewrite Hs1. cbn [app nth]. rewrite Ho in *.
  unfold wf in Hpw. rewrite Hpe in Hpw.
  destruct (slice1_ok _ _ _ (T * G) Hpe HL)
    as (p & -> & Hsp & _); [simpl in Hpw; lia|].
  cbn [bind].
  destruct (tensor_add_pe_ok _ _ _ _ _ Hs1 Hsp) as (x2 & -> & Hs2 & Hl2).
  cbn [bind].
  destruct (transformer_encoder_ok layout _ (encoder m) (training m) _ _ _ Hs2)
    as (x3 & -> & Hs3 & Hl3).
  cbn [bind].
  destruct (linear_ok (output_layer m) x3 [B; T * G])
    as (x4 & -> & Hs4 & Hl4); [now rewrite Hi2|].
  cbn [bind]. rewrite Ho2 in *.
  rewrite view_ok by (rewrite Hl4; simpl; lia).
  eexists; split; [reflexivity|]. split; [reflexivity|].
  unfold wf; simpl. rewrite Hl4. simpl. lia.
Qed.

Lemma forward_shape_gen (m : QuantumTransformer) (L : nat)
    (psi_real psi_imag potential : tensor) (B T G : nat) :
  well_formed m L ->
  shape psi_real = [B; T; G] ->
  shape psi_imag = [B; T; G] ->
  shape potential = [B; T; G] ->
  T * G <= L ->
  exists out,
    forward m psi_real psi_imag potential = Ok out /\
    shape out = [B; T; G; 2] /\ wf out.
Proof. apply forward_with_shape. Qed.
End WithEncoder.
End Model1Facts.

(** ** The tensor operations on small inputs *)

Example numel_example : numel [2; 3; 4] = 24.
Proof. reflexivity. Qed.

Example ravel_example : ravel [2; 3; 4] [1; 2; 3] = 23.
Proof. reflexivity. Qed.

Example unravel_example : unravel [2; 3; 4] 23 = [1; 2; 3].
Proof. reflexivity. Qed.

Example stack_last_example :
  stack_last (mk_tensor [2] [1; 2]%R) (mk_tensor [2] [3; 4]%R) (mk_tensor [2] [5; 6]%R)
  = Ok (mk_tensor [2; 3] [1; 3; 5; 2; 4; 6]%R).
Proof. reflexivity. Qed.

Example stack_last_mismatch :
  stack_last (mk_tensor [1; 2] [1; 2]%R) (mk_tensor [1; 2] [3; 4]%R)
             (mk_tensor [1; 3] [5; 6; 7]%R)
  = Raise RuntimeError_stack.
Proof. reflexivity. Qed.

Example select_last_example :
  select_last (mk_tensor [2; 3] [1; 3; 5; 2; 4; 6]%R) 1
  = Ok (mk_tensor [2] [3; 4]%R).
Proof. reflexivity. Qed.

Example select0_example :
  select0 (mk_tensor [2; 3] [1; 3; 5; 2; 4; 6]%R) 1
  = Ok (mk_tensor [3] [2; 4; 6]%R).
Proof. reflexivity. Qed.

Example getitem_negative :
  getitem (mk_tensor [2; 3] [1; 3; 5; 2; 4; 6]%R) (-1)
  = Ok (mk_tensor [3] [2; 4; 6]%R).
Proof. reflexivity. Qed.

Example getitem_out_of_range_example :
  getitem (mk_tensor [2; 3] [1; 3; 5; 2; 4; 6]%R) 2 = Raise IndexError.
Proof. reflexivity. Qed.

Example view_example :
  view (mk_tensor [2; 3] [1; 3; 5; 2; 4; 6]%R) [3; 2]
  = Ok (mk_tensor [3; 2] [1; 3; 5; 2; 4; 6]%R).
Proof. reflexivity. Qed.

Example view_mismatch :
  view (mk_tensor [2; 3] [1; 3; 5; 2; 4; 6]%R) [4; 2] = Raise RuntimeError_view.
Proof. reflexivity. Qed.

Example broadcast_shapes_example :
  broadcast_shapes [4; 3; 2] [1; 3; 2] = Some [4; 3; 2] /\
  broadcast_shapes [4; 3; 2] [2] = Some [4; 3; 2] /\
  broadcast_shapes [4; 5; 2] [1; 1; 2] = Some [4; 5; 2] /\
  broadcast_shapes [4; 5; 2] [1; 3; 2] = None.
Proof. repeat split. Qed.

(** A table with a single row is added to every token. *)
Example tensor_add_broadcast_example :
  tensor_add (mk_tensor [1; 2; 2] [1; 2; 3; 4]%R) (mk_tensor [1; 1; 2] [10; 20]%R)
  = Ok (mk_tensor [1; 2; 2] [1 + 10; 2 + 20; 3 + 10; 4 + 20]%R).
Proof. reflexivity. Qed.

Example slice1_example :
  slice1 (mk_tensor [1; 3; 2] [1; 2; 3; 4; 5; 6]%R) 2
  = Ok (mk_tensor [1; 2; 2] [1; 2; 3; 4]%R) /\
  slice1 (mk_tensor [1; 3; 2] [1; 2; 3; 4; 5; 6]%R) 5
  = Ok (mk_tensor [1; 3; 2] [1; 2; 3; 4; 5; 6]%R).
Proof. split; reflexivity. Qed.

Example unpack2_tensor_example :
  unpack2 (PyTensor (mk_tensor [2; 2] [1; 2; 3; 4]%R))
  = Ok (mk_tensor [2] [1; 2]%R, mk_tensor [2] [3; 4]%R) /\
  unpack2 (PyTensor (mk_tensor [1; 2] [1; 2]%R)) = Raise (ValueError_unpack 2 1).
Proof. split; reflexivity. Qed.

Example chunks_example :
  chunks 2 [0; 1; 2; 3; 4] = [[0; 1]; [2; 3]; [4]].
Proof. reflexivity. Qed.

Example loader_len_example :
  loader_len (mk_loader (mk_dataset (mk_tensor [] []) (mk_tensor [] []) 5 1 1) 2) = 3.
Proof. reflexivity. Qed.

Example create_positional_encoding_widths :
  create_positional_encoding 4 0 = Raise ZeroDivisionError /\
  create_positional_encoding 4 3 = Raise RuntimeError_assign /\
  is_ok (create_positional_encoding 4 2) = true.
Proof. repeat split. Qed.

Example dataset_init_example :
  QuantumWaveDataset_init example_store = Ok example_dataset /\
  DataLoader_init example_dataset 1 = Ok example_loader /\
  fetch example_loader [1] =
    Ok (mk_tensor [1; 1; 1; 3] [5; 0; 0]%R, mk_tensor [1; 1; 1; 2] [5; 0]%R).
Proof. repeat split. Qed.

(** ** The second model is the first with the batch-first layout *)

Lemma stack_last_inv (a b c x : tensor) :
  stack_last a b c = Ok x -> shape x = shape a ++ [3].
Proof.
  unfold stack_last. destruct (_ && _); [|discriminate].
  intros H; injection H as <-. reflexivity.
Qed.

Lemma linear_inv (l : Linear) (x z : tensor) (pre : list nat) (w : nat) :
  linear l x = Ok z -> shape x = pre ++ [w] -> shape z = pre ++ [out_features l].
Proof.
  unfold linear. intros H Hs. rewrite Hs, rev_app_distr in H. simpl in H.
  destruct (w =? in_features l); [|discriminate].
  injection H as <-. simpl. now rewrite rev_involutive.
Qed.

Section Layout.
Context {E : TransformerEncoder}.

(** With the same weights, and on inputs whose tokens both positional
    tables cover alike, the second model returns the two channels of what
    the first model would return had its encoder layer been built with
    [batch_first=True]. *)
Lemma forward2_is_batch_first_forward1
    (m1 : Model1.QuantumTransformer) (m2 : Model2.QuantumTransformer)
    (psi_real psi_imag potential : tensor) (B T G : nat) :
  Model1.embedding m1 = Model2.input_proj m2 ->
  Model1.encoder m1 = Model2.encoder m2 ->
  Model1.output_layer m1 = Model2.output_proj m2 ->
  Model1.d_model m1 = Model2.d_model m2 ->
  Model1.training m1 = Model2.training m2 ->
  shape psi_real = [B; T; G] ->
  slice1 (Model1.positional_encoding m1) (T * G) =
    slice1 (Model2.pe (Model2.positional_encoding m2)) (T * G) ->
  Model2.forward m2 psi_real psi_imag potential =
    (out <- Model1.forward_with true m1 psi_real psi_imag potential ;;
     re <- select_last out 0 ;;
     im <- select_last out 1 ;;
     Ok (re, im)).
Proof.
  intros He Hw Ho Hd Ht Hs Hpe.
  unfold Model2.forward, Model1.forward_with, Model2.PositionalEncoding_forward,
    Model2.batch_first.
  rewrite Hs, He, Hw, Ho, Hd, Ht.
  destruct (stack_last psi_real psi_imag potential) as [x|e] eqn:Hx;
    cbn [bind]; [|reflexivity].
  rewrite (stack_last_inv _ _ _ _ Hx), Hs. cbn [app].
  destruct (view x [B; T * G; 3]) as [x0|e] eqn:Hx0; cbn [bind]; [|reflexivity].
  apply view_inv in Hx0 as (Hs0 & _).
  destruct (linear (Model2.input_proj m2) x0) as [x1|e] eqn:Hx1;
    cbn [bind]; [|reflexivity].
  rewrite (linear_inv _ _ _ [B; T * G] 3 Hx1 Hs0). cbn [app nth].
  rewrite Hpe. clear Hpe.
  destruct (slice1 _ _) as [p|e]; cbn [bind]; [|reflexivity].
  destruct (tensor_add x1 p) as [x2|e]; cbn [bind]; [|reflexivity].
  destruct (transformer_encoder _ _ _ _ x2) as [x3|e]; cbn [bind]; [|reflexivity].
  destruct (linear _ x3) as [x4|e]; cbn [bind]; [|reflexivity].
  destruct (view x4 _) as [x5|e]; cbn [bind]; reflexivity.
Qed.
End Layout.

(** ** The forward pass in closed form *)

Lemma flat_map_ext_seq {B : Type} (f g : nat -> list B) (a n : nat) :
  (forall i, a <= i < a + n -> f i = g i) ->
  flat_map f (seq a n) = flat_map g (seq a n).
Proof.
  revert a. induction n as [|n IH]; intros a H; simpl; [reflexivity|].
  rewrite H by lia. f_equal. apply IH. intros i Hi. apply H. lia.
Qed.

Lemma flat_map_seq_shift {B : Type} (f : nat -> list B) (a n : nat) :
  flat_map f (seq a n) = flat_map (fun i => f (a + i)) (seq 0 n).
Proof.
  revert f a. induction n as [|n IH]; intros f a; simpl; [reflexivity|].
  rewrite Nat.add_0_r. f_equal.
  rewrite (IH f (S a)), (IH (fun i => f (a + i)) 1). apply flat_map_ext_seq.
  intros i _. f_equal. lia.
Qed.

Lemma flat_map_seq_mul {B : Type} (f : nat -> list B) (b n : nat) :
  flat_map f (seq 0 (b * n)) =
  flat_map (fun i => flat_map (fun j => f (i * n + j)) (seq 0 n)) (seq 0 b).
Proof.
  induction b as [|b IH]; [reflexivity|].
  replace (S b * n) with (b * n + n) by lia.
  rewrite seq_app, flat_map_app, IH, seq_S, flat_map_app. f_equal.
  cbn [flat_map]. rewrite app_nil_r. apply flat_map_seq_shift.
Qed.

Lemma token_at_flat_map (f : nat -> list R) (k : nat) :
  (forall i, length (f i) = k) ->
  forall n a i, i < n -> token_at (flat_map f (seq a n)) k i = f (a + i).
Proof.
  intros Hlen. unfold token_at.
  induction n as [|n IH]; intros a i Hi; [lia|].
  cbn [seq flat_map]. destruct i as [|i].
  - cbn [Nat.mul skipn]. rewrite firstn_app, Hlen, Nat.sub_diag, firstn_O, app_nil_r.
    rewrite firstn_all2 by (rewrite Hlen; lia). now rewrite Nat.add_0_r.
  - rewrite skipn_app, Hlen.
    rewrite skipn_all2 by (rewrite Hlen; simpl; lia).
    replace (S i * k - k) with (i * k) by (simpl; lia).
    cbn [app]. rewrite IH by lia. f_equal. lia.
Qed.

Lemma tabulate_as_flat_map {A : Type} (n : nat) (f : nat -> A) :
  tabulate n f = flat_map (fun i => [f i]) (seq 0 n).
Proof.
  unfold tabulate. induction (seq 0 n) as [|a l IH]; simpl; congruence.
Qed.

Lemma tabulate_blocks (B N D : nat) (F : nat -> R) :
  tabulate (B * (N * D)) F =
  blocks B N (fun b n => tabulate D (fun k => F ((b * N + n) * D + k))).
Proof.
  rewrite tabulate_as_flat_map, Nat.mul_assoc, flat_map_seq_mul, flat_map_seq_mul.
  unfold blocks. apply flat_map_ext_seq. intros b _.
  apply flat_map_ext_seq. intros n _.
  now rewrite tabulate_as_flat_map.
Qed.

Lemma blocks_flat (B N : nat) (g : nat -> nat -> list R) :
  blocks B N g = flat_map (fun q => g (q / N) (q mod N)) (seq 0 (B * N)).
Proof.
  rewrite flat_map_seq_mul. unfold blocks.
  apply flat_map_ext_seq. intros b _. apply flat_map_ext_seq. intros n Hn.
  assert (N <> 0) by lia.
  rewrite Nat.div_add_l, Nat.div_small, Nat.add_0_r by lia.
  rewrite Nat.add_comm, Nat.Div0.mod_add, Nat.mod_small by lia.
  reflexivity.
Qed.

Lemma token_at_blocks (B N w : nat) (g : nat -> nat -> list R) (b n : nat) :
  (forall b n, length (g b n) = w) -> b < B -> n < N ->
  token_at (blocks B N g) w (b * N + n) = g b n.
Proof.
  intros Hlen Hb Hn. rewrite blocks_flat.
  rewrite (token_at_flat_map _ w) by (auto; nia).
  cbn [Nat.add]. assert (N <> 0) by lia.
  rewrite Nat.div_add_l, Nat.div_small, Nat.add_0_r by lia.
  rewrite Nat.add_comm, Nat.Div0.mod_add, Nat.mod_small by lia.
  reflexivity.
Qed.

Lemma nth_blocks (B N w : nat) (g : nat -> nat -> list R) (b n k : nat) :
  (forall b n, length (g b n) = w) -> b < B -> n < N -> k < w ->
  nth ((b * N + n) * w + k) (blocks B N g) 0%R = nth k (g b n) 0%R.
Proof.
  intros Hlen Hb Hn Hk. rewrite blocks_flat.
  rewrite (nth_flat_map_seq _ w) by (auto; nia).
  cbn [Nat.add]. assert (N <> 0) by lia.
  rewrite Nat.div_add_l, Nat.div_small, Nat.add_0_r by lia.
  rewrite Nat.add_comm, Nat.Div0.mod_add, Nat.mod_small by lia.
  reflexivity.
Qed.

Lemma clamp_in_range (s idx : list nat) : in_range s idx -> clamp s idx = idx.
Proof.
  revert idx. induction s as [|d s IH]; intros [|i idx]; simpl; try tauto.
  intros [Hi Hr]. rewrite IH by exact Hr.
  destruct (d =? 1) eqn:E1; [|reflexivity].
  apply Nat.eqb_eq in E1. f_equal. lia.
Qed.

Lemma src_offset_same (s : list nat) (off : nat) :
  off < numel s -> src_offset s s off = off.
Proof.
  intros H. unfold src_offset. rewrite Nat.sub_diag. cbn [skipn].
  rewrite clamp_in_range by now apply in_range_unravel.
  now apply ravel_unravel.
Qed.

Lemma src_offset_pe (B N D b n k : nat) :
  b < B -> n < N -> k < D ->
  src_offset [1; N; D] [B; N; D] ((b * N + n) * D + k) = n * D + k.
Proof.
  intros Hb Hn Hk. unfold src_offset. cbn [length Nat.sub skipn].
  replace ((b * N + n) * D + k) with (ravel [B; N; D] [b; n; k]) by (simpl; ring).
  rewrite unravel_ravel by (simpl; auto).
  cbn [clamp Nat.eqb].
  replace (if N =? 1 then 0 else n) with n
    by (destruct (N =? 1) eqn:E1; [apply Nat.eqb_eq in E1; lia | reflexivity]).
  replace (if D =? 1 then 0 else k) with k
    by (destruct (D =? 1) eqn:E1; [apply Nat.eqb_eq in E1; lia | reflexivity]).
  simpl. ring.
Qed.

Lemma tabulate_ext {A : Type} (n : nat) (f g : nat -> A) :
  (forall i, i < n -> f i = g i) -> tabulate n f = tabulate n g.
Proof.
  intros H. unfold tabulate. apply map_ext_in. intros i Hi.
  apply in_seq in Hi. apply H. lia.
Qed.

Lemma blocks_ext (B N : nat) (g h : nat -> nat -> list R) :
  (forall b n, b < B -> n < N -> g b n = h b n) -> blocks B N g = blocks B N h.
Proof.
  intros H. unfold blocks. apply flat_map_ext_seq. intros b Hb.
  apply flat_map_ext_seq. intros n Hn. apply H; lia.
Qed.


Lemma length_blocks (B N w : nat) (g : nat -> nat -> list R) :
  (forall b n, length (g b n) = w) -> length (blocks B N g) = B * N * w.
Proof.
  intros H. unfold blocks.
  rewrite (length_flat_map_seq _ (N * w)); [lia|].
  intros b _. now apply length_flat_map_seq.
Qed.

Lemma token_index_lt (b n B N : nat) : b < B -> n < N -> b * N + n < B * N.
Proof.
  intros Hb Hn. apply Nat.lt_le_trans with ((b + 1) * N); [lia|].
  apply Nat.mul_le_mono_r. lia.
Qed.

Lemma flat_index_lt (b n k B N D : nat) :
  b < B -> n < N -> k < D -> (b * N + n) * D + k < B * (N * D).
Proof.
  intros Hb Hn Hk. pose proof (token_index_lt b n B N Hb Hn) as Hq.
  rewrite Nat.mul_assoc.
  apply Nat.lt_le_trans with ((b * N + n + 1) * D); [lia|].
  apply Nat.mul_le_mono_r. lia.
Qed.

Section ClosedFormProof.
Context {E : TransformerEncoder}.

Lemma forward_with_closed_form (layout : bool) (m : Model1.QuantumTransformer)
    (L : nat) (psi_real psi_imag potential : tensor) (B T G : nat) :
  well_formed m L ->
  shape psi_real = [B; T; G] ->
  shape psi_imag = [B; T; G] ->
  shape potential = [B; T; G] ->
  T * G <= L ->
  Model1.forward_with layout m psi_real psi_imag potential =
    Ok (mk_tensor [B; T; G; 2]
          (blocks B (T * G)
             (output_token layout m psi_real psi_imag potential B (T * G)))).
Proof.
  intros (Hi & Ho & Hpe & Hpw & Hi2 & Ho2) Hr Him Hp HL.
  set (N := T * G).
  set (D := Model1.d_model m) in *.
  unfold Model1.forward_with.
  (* stack and view *)
  unfold stack_last. rewrite Hr, Him, Hp, !list_nat_eqb_refl.
  cbn [andb bind shape app].
  replace (numel [B; T; G]) with (B * N) by (subst N; simpl; lia).
  rewrite view_ok
    by (cbn [data]; rewrite (length_flat_map_seq _ 3) by reflexivity; simpl; lia).
  cbn [bind data]. fold N.
  (* embedding *)
  unfold linear at 1. cbn [shape rev app]. rewrite Hi, Nat.eqb_refl.
  cbn [bind shape nth data]. rewrite Ho.
  replace (numel [B; N]) with (B * N) by (simpl; lia).
  rewrite (flat_map_ext_seq _
             (fun q => linear_token (Model1.embedding m)
                         [nth q (data psi_real) 0%R; nth q (data psi_imag) 0%R;
                          nth q (data potential) 0%R]))
    by (intros q Hq; rewrite (token_at_flat_map _ 3) by (auto; lia); reflexivity).
  (* positional encoding *)
  unfold wf in Hpw. rewrite Hpe in Hpw.
  destruct (slice1_ok _ _ _ N Hpe HL) as (p & -> & Hsp & Hdp); [simpl in Hpw; lia|].
  destruct p as [sp dp]. cbn [shape data] in Hsp, Hdp. subst sp dp.
  cbn [bind]. unfold tensor_add, broadcast_map2. cbn [shape data].
  rewrite broadcast_shapes_pe. cbn [bind].
  replace (numel [B; N; D]) with (B * (N * D)) by (simpl; lia).
  rewrite tabulate_blocks.
  rewrite (blocks_ext B N _ (embedded_token m psi_real psi_imag potential N)).
  2:{ intros b n Hb Hn. unfold embedded_token, input_token. fold D.
      apply tabulate_ext. intros k Hk.
      rewrite src_offset_same
        by (cbn [numel fold_right]; rewrite Nat.mul_1_r; now apply flat_index_lt).
      rewrite src_offset_pe by assumption.
      rewrite (nth_flat_map_seq _ D)
        by (try (intros; unfold linear_token; rewrite length_tabulate; exact Ho);
            auto using token_index_lt).
      rewrite nth_firstn.
      replace (n * D + k <? N * D) with true
        by (symmetry; apply Nat.ltb_lt;
            pose proof (flat_index_lt 0 n k 1 N D); simpl in *; lia).
      reflexivity. }
  (* encoder *)
  unfold transformer_encoder. cbn [shape data]. subst D. rewrite Nat.eqb_refl.
  cbn [bind].
  set (emb := blocks B N (embedded_token m psi_real psi_imag potential N)).
  match goal with
  | |- context [mk_tensor _ (flat_map ?f (seq 0 B))] =>
      rewrite (flat_map_ext_seq f
                 (fun b => flat_map
                             (encoded_token layout m psi_real psi_imag potential B N b)
                             (seq 0 N)) 0 B)
  end.
  2:{ intros b Hb. apply flat_map_ext_seq. intros n Hn.
      unfold encoded_token. cbv zeta.
      apply tabulate_ext. intros k Hk. f_equal. f_equal.
      subst emb.
      destruct layout; f_equal; apply tabulate_ext; intros s Hs;
        apply token_at_blocks; auto; try lia;
        intros; unfold embedded_token; apply length_tabulate. }
  clear emb.
  change (flat_map
            (fun b => flat_map
                        (encoded_token layout m psi_real psi_imag potential B N b)
                        (seq 0 N)) (seq 0 B))
    with (blocks B N (encoded_token layout m psi_real psi_imag potential B N)).
  (* output layer *)
  unfold linear. cbn [shape rev app data]. rewrite Hi2, Nat.eqb_refl.
  cbn [bind]. rewrite Ho2.
  replace (numel [B; N]) with (B * N) by (simpl; lia).
  rewrite flat_map_seq_mul.
  set (enc := blocks B N (encoded_token layout m psi_real psi_imag potential B N)).
  match goal with
  | |- context [mk_tensor _ (flat_map ?f (seq 0 B))] =>
      rewrite (flat_map_ext_seq f
                 (fun b => flat_map
                             (output_token layout m psi_real psi_imag potential B N b)
                             (seq 0 N)) 0 B)
  end.
  2:{ intros b Hb. apply flat_map_ext_seq. intros n Hn.
      unfold output_token. f_equal. subst enc.
      apply token_at_blocks; auto; try lia.
      intros; unfold encoded_token; apply length_tabulate. }
  clear enc.
  change (flat_map
            (fun b => flat_map
                        (output_token layout m psi_real psi_imag potential B N b)
                        (seq 0 N)) (seq 0 B))
    with (blocks B N (output_token layout m psi_real psi_imag potential B N)).
  rewrite view_ok; [reflexivity|].
  cbn [data]. rewrite (length_blocks B N 2).
  - subst N. simpl. lia.
  - intros. unfold output_token, linear_token. now rewrite length_tabulate.
Qed.
End ClosedFormProof.

(** ** Which inputs an output depends on *)

Lemma get_blocks (B T G : nat) (f : nat -> nat -> list R) (b t g c : nat) :
  (forall b n, length (f b n) = 2) ->
  b < B -> t < T -> g < G -> c < 2 ->
  get (mk_tensor [B; T; G; 2] (blocks B (T * G) f)) [b; t; g; c] =
    nth c (f b (t * G + g)) 0%R.
Proof.
  intros Hlen Hb Ht Hg Hc. unfold get. cbn [shape data].
  replace (ravel [B; T; G; 2] [b; t; g; c])
    with ((b * (T * G) + (t * G + g)) * 2 + c) by (simpl; ring).
  apply nth_blocks; auto using token_index_lt.
Qed.

Lemma get_field (x : tensor) (B T G b t g : nat) :
  shape x = [B; T; G] ->
  get x [b; t; g] = nth (b * (T * G) + (t * G + g)) (data x) 0%R.
Proof.
  intros Hs. unfold get. rewrite Hs. f_equal. simpl. ring.
Qed.

Section TokenDependence.
Context {E : TransformerEncoder}.
Variable m : Model1.QuantumTransformer.
Variables re im pot re' im' pot' : tensor.
Variables B N : nat.

(** Sequence-first: the token at position [n] of any batch element is
    computed from the inputs at position [n] of the batch elements. *)
Lemma output_token_sequence_first (b n : nat) :
  (forall s, s < B -> input_token re im pot N s n = input_token re' im' pot' N s n) ->
  output_token false m re im pot B N b n = output_token false m re' im' pot' B N b n.
Proof.
  intros H. unfold output_token, encoded_token. cbv zeta. f_equal.
  apply tabulate_ext. intros k _. f_equal. f_equal. f_equal.
  apply tabulate_ext. intros s Hs. unfold embedded_token. now rewrite H.
Qed.

(** Batch-first: the tokens of batch element [b] are computed from the
    inputs of batch element [b]. *)
Lemma output_token_batch_first (b n : nat) :
  (forall s, s < N -> input_token re im pot N b s = input_token re' im' pot' N b s) ->
  output_token true m re im pot B N b n = output_token true m re' im' pot' B N b n.
Proof.
  intros H. unfold output_token, encoded_token. cbv zeta. f_equal.
  apply tabulate_ext. intros k _. f_equal. f_equal. f_equal.
  apply tabulate_ext. intros s Hs. unfold embedded_token. now rewrite H.
Qed.
End TokenDependence.

Section Dependence.
Context {E : TransformerEncoder}.

Lemma length_output_token layout m re im pot B N b n :
  out_features (Model1.output_layer m) = 2 ->
  length (output_token layout m re im pot B N b n) = 2.
Proof. intros H. unfold output_token, linear_token. now rewrite length_tabulate. Qed.

(** X1. In the first model the output at token (t, g), for every batch element,
    is determined by the inputs at token (t, g) of the batch elements: the
    other tokens of a batch element have no influence on it. *)
Theorem first_model_token_isolated (m : Model1.QuantumTransformer) (L : nat)
    (re im pot re' im' pot' : tensor) (B T G t g : nat) :
  well_formed m L ->
  shape re = [B; T; G] -> shape im = [B; T; G] -> shape pot = [B; T; G] ->
  shape re' = [B; T; G] -> shape im' = [B; T; G] -> shape pot' = [B; T; G] ->
  T * G <= L -> t < T -> g < G ->
  (forall s, s < B ->
     get re [s; t; g] = get re' [s; t; g] /\
     get im [s; t; g] = get im' [s; t; g] /\
     get pot [s; t; g] = get pot' [s; t; g]) ->
  exists out out',
    Model1.forward m re im pot = Ok out /\
    Model1.forward m re' im' pot' = Ok out' /\
    forall b c, b < B -> c < 2 -> get out [b; t; g; c] = get out' [b; t; g; c].
Proof.
  intros Hwf Hr Hi Hp Hr' Hi' Hp' HL Ht Hg Hagree.
  unfold Model1.forward, Model1.batch_first.
  rewrite (forward_with_closed_form false m L re im pot B T G) by assumption.
  rewrite (forward_with_closed_form false m L re' im' pot' B T G) by assumption.
  eexists; eexists; split; [reflexivity|]; split; [reflexivity|].
  intros b c Hb Hc.
  assert (Ho2 : out_features (Model1.output_layer m) = 2) by apply Hwf.
  rewrite !get_blocks by (auto using length_output_token).
  f_equal. apply output_token_sequence_first. intros s Hs.
  destruct (Hagree s Hs) as (H1 & H2 & H3).
  rewrite (get_field re B T G), (get_field re' B T G) in H1 by assumption.
  rewrite (get_field im B T G), (get_field im' B T G) in H2 by assumption.
  rewrite (get_field pot B T G), (get_field pot' B T G) in H3 by assumption.
  unfold input_token. now rewrite H1, H2, H3.
Qed.
End Dependence.

Section SecondModel.
Context {E : TransformerEncoder}.

Lemma select_last_channels (B T G c : nat) (d : list R) :
  c < 2 ->
  select_last (mk_tensor [B; T; G; 2] d) c =
    Ok (mk_tensor [B; T; G]
          (tabulate (B * (T * G)) (fun q => nth (q * 2 + c) d 0%R))).
Proof.
  intros Hc. unfold select_last. cbn [shape rev app data].
  rewrite (proj2 (Nat.ltb_lt _ _) Hc).
  replace (numel [B; T; G]) with (B * (T * G)) by (simpl; lia).
  reflexivity.
Qed.

(** The second model in closed form: the two channels of the batch-first
    tokens. *)
Lemma forward2_closed_form (m : Model2.QuantumTransformer) (L : nat)
    (re im pot : tensor) (B T G : nat) :
  well_formed (as_model1 m) L ->
  shape re = [B; T; G] -> shape im = [B; T; G] -> shape pot = [B; T; G] ->
  T * G <= L ->
  Model2.forward m re im pot =
    Ok (mk_tensor [B; T; G]
          (tabulate (B * (T * G))
             (fun q => nth (q * 2 + 0)
                         (blocks B (T * G)
                            (output_token true (as_model1 m) re im pot B (T * G)))
                         0%R)),
        mk_tensor [B; T; G]
          (tabulate (B * (T * G))
             (fun q => nth (q * 2 + 1)
                         (blocks B (T * G)
                            (output_token true (as_model1 m) re im pot B (T * G)))
                         0%R))).
Proof.
  intros Hwf Hr Hi Hp HL.
  rewrite (forward2_is_batch_first_forward1 (as_model1 m) m re im pot B T G)
    by (auto; reflexivity).
  rewrite (forward_with_closed_form true (as_model1 m) L re im pot B T G)
    by assumption.
  cbn [bind]. rewrite !select_last_channels by lia. reflexivity.
Qed.

Lemma get_channel (B T G c b t g : nat) (f : nat -> nat -> list R) :
  (forall b n, length (f b n) = 2) ->
  b < B -> t < T -> g < G -> c < 2 ->
  get (mk_tensor [B; T; G]
         (tabulate (B * (T * G))
            (fun q => nth (q * 2 + c) (blocks B (T * G) f) 0%R)))
      [b; t; g] =
  nth c (f b (t * G + g)) 0%R.
Proof.
  intros Hlen Hb Ht Hg Hc. rewrite (get_field _ B T G) by reflexivity.
  cbn [data].
  rewrite nth_tabulate by auto using token_index_lt.
  apply nth_blocks; auto using token_index_lt.
Qed.

(** X2. In the second model the outputs at batch element [b] are determined by
    the inputs at batch element [b]. *)
Theorem second_model_batch_independent (m : Model2.QuantumTransformer) (L : nat)
    (re im pot re' im' pot' : tensor) (B T G b : nat) :
  well_formed (as_model1 m) L ->
  shape re = [B; T; G] -> shape im = [B; T; G] -> shape pot = [B; T; G] ->
  shape re' = [B; T; G] -> shape im' = [B; T; G] -> shape pot' = [B; T; G] ->
  T * G <= L -> b < B ->
  (forall t g, t < T -> g < G ->
     get re [b; t; g] = get re' [b; t; g] /\
     get im [b; t; g] = get im' [b; t; g] /\
     get pot [b; t; g] = get pot' [b; t; g]) ->
  exists out out',
    Model2.forward m re im pot = Ok out /\
    Model2.forward m re' im' pot' = Ok out' /\
    forall t g, t < T -> g < G ->
      get (fst out) [b; t; g] = get (fst out') [b; t; g] /\
      get (snd out) [b; t; g] = get (snd out') [b; t; g].
Proof.
  intros Hwf Hr Hi Hp Hr' Hi' Hp' HL Hb Hagree.
  rewrite (forward2_closed_form m L re im pot B T G) by assumption.
  rewrite (forward2_closed_form m L re' im' pot' B T G) by assumption.
  eexists; eexists; split; [reflexivity|]; split; [reflexivity|].
  intros t g Ht Hg. cbn [fst snd].
  assert (Ho2 : out_features (Model1.output_layer (as_model1 m)) = 2) by apply Hwf.
  rewrite !get_channel by (auto using length_output_token).
  assert (Heq : output_token true (as_model1 m) re im pot B (T * G) b (t * G + g) =
                output_token true (as_model1 m) re' im' pot' B (T * G) b (t * G + g)).
  { apply output_token_batch_first. intros s Hs.
    assert (HG : G <> 0) by lia.
    destruct (Hagree (s / G) (s mod G)) as (H1 & H2 & H3).
    - apply Nat.Div0.div_lt_upper_bound. lia.
    - now apply Nat.mod_upper_bound.
    - rewrite (get_field re B T G), (get_field re' B T G) in H1 by assumption.
      rewrite (get_field im B T G), (get_field im' B T G) in H2 by assumption.
      rewrite (get_field pot B T G), (get_field pot' B T G) in H3 by assumption.
      replace (s / G * G + s mod G) with s in *
        by (pose proof (Nat.div_mod_eq s G); lia).
      unfold input_token. now rewrite H1, H2, H3. }
  now rewrite Heq.
Qed.
End SecondModel.

(** C1. For three input fields of one shape (batch, time, grid) whose token
    count time*grid does not exceed the number of rows of the positional
    table, the forward pass of the first model returns a tensor of shape
    (batch, time, grid, 2). *)
Theorem forward_output_shape {E : TransformerEncoder}
    (m : Model1.QuantumTransformer) (L : nat)
    (psi_real psi_imag potential : tensor) (B T G : nat) :
  well_formed m L ->
  shape psi_real = [B; T; G] ->
  shape psi_imag = [B; T; G] ->
  shape potential = [B; T; G] ->
  T * G <= L ->
  exists out,
    Model1.forward m psi_real psi_imag potential = Ok out /\
    shape out = [B; T; G; 2] /\ wf out.
Proof. apply Model1Facts.forward_shape_gen. Qed.

Lemma example_model1_well_formed : well_formed example_model1 1.
Proof. unfold well_formed. simpl. repeat split; reflexivity. Qed.

Lemma forward_output_shape_witness :
  exists out,
    Model1.forward example_model1 (field_211 1 0) (field_211 0 0) (field_211 0 0)
      = Ok out /\
    shape out = [2; 1; 1; 2] /\ wf out.
Proof.
  apply (forward_output_shape example_model1 1
           (field_211 1 0) (field_211 0 0) (field_211 0 0) 2 1 1).
  - unfold well_formed. simpl. repeat split; reflexivity.
  - reflexivity.
  - reflexivity.
  - reflexivity.
  - simpl. lia.
Defined.

(** ** The positional table (C5) *)

Lemma even_double (i : nat) : Nat.even (2 * i) = true.
Proof. rewrite Nat.even_mul. reflexivity. Qed.

Lemma even_double_succ (i : nat) : Nat.even (2 * i + 1) = false.
Proof.
  rewrite Nat.even_add, even_double. reflexivity.
Qed.

Lemma half_double (i : nat) : 2 * i / 2 = i.
Proof. rewrite Nat.mul_comm. apply Nat.div_mul. discriminate. Qed.

Lemma half_double_succ (i : nat) : (2 * i + 1) / 2 = i.
Proof.
  rewrite Nat.mul_comm, Nat.add_comm, Nat.div_add by discriminate. reflexivity.
Qed.

(** [p * exp(2i * (-ln 10000 / D))] is [p / 10000^(2i/D)]. *)
Lemma div_term_power (D p i : nat) :
  D <> 0 ->
  (INR p * div_term D i = INR p / Rpower 10000 (INR (2 * i) / INR D))%R.
Proof.
  intros HD. unfold div_term, Rpower, Rdiv.
  rewrite <- exp_Ropp. f_equal. f_equal.
  assert (INR D <> 0)%R by (apply not_0_INR; exact HD).
  field. assumption.
Qed.

Lemma positional_table_entry (L D : nat) (t : tensor) (p c : nat) :
  positional_table L D = Ok t -> p < L -> c < D ->
  get t [0; p; c] =
    let src := if (D + 1) / 2 =? 1 then 0 else c / 2 in
    if Nat.even c then sin (INR p * div_term D src)
    else cos (INR p * div_term D src).
Proof.
  unfold positional_table.
  destruct (assign_cols_ok _ _); [|discriminate].
  destruct (assign_cols_ok _ _); [|discriminate].
  intros H Hp Hc; injection H as <-. unfold get. cbn [shape data ravel numel fold_right].
  replace (0 * (L * (D * 1)) + (p * (D * 1) + (c * 1 + 0))) with (p * D + c) by lia.
  rewrite (nth_flat_map_seq _ D) by (auto; intros; apply length_tabulate).
  rewrite nth_tabulate by exact Hc. reflexivity.
Qed.

Lemma positional_table_even_ok (L D : nat) :
  Nat.even D = true -> is_ok (positional_table L D) = true.
Proof.
  intros Hev. unfold positional_table, assign_cols_ok.
  rewrite Nat.eqb_refl. cbn [orb].
  apply Nat.even_spec in Hev. destruct Hev as [k ->].
  replace ((2 * k + 1) / 2) with k by (symmetry; apply half_double_succ).
  rewrite half_double, Nat.eqb_refl. reflexivity.
Qed.

(** Whatever the width, a table that is built has these entries. *)
Lemma create_positional_encoding_spec (L D : nat) (pe : tensor) :
  create_positional_encoding L D = Ok pe ->
    shape pe = [1; L; D] /\
    (forall p i, p < L -> 2 * i < D ->
       get pe [0; p; 2 * i] = sin (INR p / Rpower 10000 (INR (2 * i) / INR D))) /\
    (forall p i, p < L -> 2 * i + 1 < D ->
       get pe [0; p; 2 * i + 1] = cos (INR p / Rpower 10000 (INR (2 * i) / INR D))) /\
    (forall c, 0 < L -> c < D ->
       get pe [0; 0; c] = if Nat.even c then 0%R else 1%R).
Proof.
  unfold create_positional_encoding.
  destruct (D =? 0) eqn:E0; [discriminate|].
  apply Nat.eqb_neq in E0. intros H.
  split; [now apply Model1Facts.positional_table_inv in H|].
  split; [|split].
  + intros p i Hp Hi.
    rewrite (positional_table_entry L D pe p (2 * i) H Hp Hi). cbv zeta.
    rewrite even_double, half_double.
    destruct ((D + 1) / 2 =? 1) eqn:E1.
    * apply Nat.eqb_eq in E1.
      assert (i = 0).
      { destruct D as [|[|[|D']]]; try lia.
        exfalso. replace (S (S (S D')) + 1) with (D' + 2 * 2) in E1 by lia.
        rewrite Nat.div_add in E1 by discriminate. lia. }
      subst i. now apply div_term_power with (i := 0) (p := p) in E0 as ->.
    * now rewrite div_term_power.
  + intros p i Hp Hi.
    rewrite (positional_table_entry L D pe p (2 * i + 1) H Hp Hi). cbv zeta.
    rewrite even_double_succ, half_double_succ.
    destruct ((D + 1) / 2 =? 1) eqn:E1.
    * apply Nat.eqb_eq in E1.
      assert (i = 0).
      { destruct D as [|[|[|D']]]; try lia.
        exfalso. replace (S (S (S D')) + 1) with (D' + 2 * 2) in E1 by lia.
        rewrite Nat.div_add in E1 by discriminate. lia. }
      subst i. now apply div_term_power with (i := 0) (p := p) in E0 as ->.
    * now rewrite div_term_power.
  + intros c HL Hc.
    rewrite (positional_table_entry L D pe 0 c H HL Hc). cbv zeta.
    simpl INR. rewrite Rmult_0_l, sin_0, cos_0. reflexivity.
Qed.

(** An odd width of 3 or more is refused: the cosine columns do not fit. *)
Lemma create_positional_encoding_odd (L k : nat) :
  create_positional_encoding L (2 * (k + 1) + 1) = Raise RuntimeError_assign.
Proof.
  unfold create_positional_encoding, positional_table, assign_cols_ok.
  replace (2 * (k + 1) + 1 =? 0) with false by (symmetry; apply Nat.eqb_neq; lia).
  rewrite Nat.eqb_refl. cbn [orb].
  replace ((2 * (k + 1) + 1 + 1) / 2) with (k + 2)
    by (replace (2 * (k + 1) + 1 + 1) with ((k + 2) * 2) by lia;
        now rewrite Nat.div_mul).
  rewrite half_double_succ.
  replace (k + 2 =? k + 1) with false by (symmetry; apply Nat.eqb_neq; lia).
  replace (k + 2 =? 1) with false by (symmetry; apply Nat.eqb_neq; lia).
  reflexivity.
Qed.

(** C5. For every even positive width D the table built by
    [create_positional_encoding] has shape (1, L, D); its entry (p, 2i) is
    sin(p / 10000^(2i/D)), its entry (p, 2i+1) is cos(p / 10000^(2i/D)), and
    its row 0 is (0, 1, 0, 1, ...). *)
Theorem positional_encoding_entries (L D : nat) :
  0 < D -> Nat.even D = true ->
  exists pe, create_positional_encoding L D = Ok pe /\
    shape pe = [1; L; D] /\
    (forall p i, p < L -> 2 * i < D ->
       get pe [0; p; 2 * i] = sin (INR p / Rpower 10000 (INR (2 * i) / INR D))) /\
    (forall p i, p < L -> 2 * i + 1 < D ->
       get pe [0; p; 2 * i + 1] = cos (INR p / Rpower 10000 (INR (2 * i) / INR D))) /\
    (forall c, 0 < L -> c < D ->
       get pe [0; 0; c] = if Nat.even c then 0%R else 1%R).
Proof.
  intros HD Hev.
  destruct (create_positional_encoding L D) as [pe|e] eqn:Hc.
  - exists pe. split; [reflexivity|]. now apply create_positional_encoding_spec.
  - exfalso. unfold create_positional_encoding in Hc.
    destruct (D =? 0) eqn:E0; [apply Nat.eqb_eq in E0; lia|].
    pose proof (positional_table_even_ok L D Hev) as Hok.
    rewrite Hc in Hok. discriminate.
Qed.

Lemma positional_encoding_entries_witness :
  exists pe, create_positional_encoding 3 4 = Ok pe /\
    shape pe = [1; 3; 4] /\
    (forall p i, p < 3 -> 2 * i < 4 ->
       get pe [0; p; 2 * i] = sin (INR p / Rpower 10000 (INR (2 * i) / INR 4))) /\
    (forall p i, p < 3 -> 2 * i + 1 < 4 ->
       get pe [0; p; 2 * i + 1] = cos (INR p / Rpower 10000 (INR (2 * i) / INR 4))) /\
    (forall c, 0 < 3 -> c < 4 ->
       get pe [0; 0; c] = if Nat.even c then 0%R else 1%R).
Proof. apply (positional_encoding_entries 3 4); [lia | reflexivity]. Defined.

(** ** The dataset (C10) *)

Lemma select0_ok (t : tensor) (d : nat) (s : list nat) (i : nat) :
  shape t = d :: s -> wf t -> i < d ->
  exists u, select0 t i = Ok u /\ shape u = s /\ wf u /\
            data u = firstn (numel s) (skipn (i * numel s) (data t)).
Proof.
  intros Hs Hw Hi. unfold select0. rewrite Hs.
  rewrite (proj2 (Nat.ltb_lt _ _) Hi).
  eexists; split; [reflexivity|]. simpl. repeat split.
  unfold wf in *. simpl. rewrite Hs in Hw. simpl in Hw.
  rewrite length_firstn, length_skipn, Hw. nia.
Qed.

Lemma getitem_ok (t : tensor) (d : nat) (s : list nat) (i : Z) :
  shape t = d :: s -> wf t -> (- Z.of_nat d <= i < Z.of_nat d)%Z ->
  exists u, getitem t i = Ok u /\ shape u = s /\ wf u.
Proof.
  intros Hs Hw Hi. unfold getitem. rewrite Hs.
  destruct ((0 <=? i)%Z) eqn:E0; cbn [andb].
  - apply Z.leb_le in E0.
    rewrite (proj2 (Z.ltb_lt _ _)) by lia.
    destruct (select0_ok t d s (Z.to_nat i) Hs Hw) as (u & -> & H1 & H2 & _);
      [lia|]. eauto.
  - apply Z.leb_gt in E0.
    rewrite (proj2 (Z.leb_le _ _)) by lia.
    rewrite (proj2 (Z.ltb_lt _ _)) by lia. cbn [andb].
    destruct (select0_ok t d s (Z.to_nat (i + Z.of_nat d)) Hs Hw)
      as (u & -> & H1 & H2 & _); [lia|]. eauto.
Qed.

Lemma getitem_out_of_range (t : tensor) (d : nat) (s : list nat) (i : Z) :
  shape t = d :: s -> (i < - Z.of_nat d \/ Z.of_nat d <= i)%Z ->
  getitem t i = Raise IndexError.
Proof.
  intros Hs Hi. unfold getitem. rewrite Hs.
  destruct ((0 <=? i)%Z) eqn:E0; cbn [andb].
  - apply Z.leb_le in E0.
    rewrite (proj2 (Z.ltb_ge _ _)) by lia.
    rewrite (proj2 (Z.ltb_ge i 0)) by lia. now rewrite andb_false_r.
  - apply Z.leb_gt in E0.
    rewrite (proj2 (Z.leb_gt _ _)) by lia. reflexivity.
Qed.

Lemma QuantumWaveDataset_init_ok (f : store_file) (n T G : nat) :
  shape (dataset_X f) = [n; T; 3 * G] -> wf (dataset_X f) ->
  shape (dataset_y f) = [n; T; 2 * G] -> wf (dataset_y f) ->
  QuantumWaveDataset_init f =
    Ok (mk_dataset (mk_tensor [n; T; G; 3] (data (dataset_X f)))
                   (mk_tensor [n; T; G; 2] (data (dataset_y f)))
                   n T G).
Proof.
  intros HX HwX Hy Hwy. unfold QuantumWaveDataset_init. rewrite HX.
  replace (3 * G / 3) with G
    by (rewrite Nat.mul_comm, Nat.div_mul; [reflexivity | discriminate]).
  unfold wf in *. rewrite HX in HwX. rewrite Hy in Hwy. simpl in HwX, Hwy.
  rewrite !view_ok by (simpl; lia). reflexivity.
Qed.

(** C10. For a store file whose [dataset_X] has shape (n, T, 3*G) and whose
    [dataset_y] has shape (n, T, 2*G), the dataset is built, its grid size is
    the integer quotient of the width of [dataset_X] by 3, which is G, its
    length is n, and its item at every valid index (from -n to n-1) is a
    pair of tensors of shapes (T, G, 3) and (T, G, 2). *)
Theorem dataset_len_and_item_shapes (f : store_file) (n T G : nat) :
  shape (dataset_X f) = [n; T; 3 * G] -> wf (dataset_X f) ->
  shape (dataset_y f) = [n; T; 2 * G] -> wf (dataset_y f) ->
  exists d,
    QuantumWaveDataset_init f = Ok d /\
    n_grid d = 3 * G / 3 /\ n_grid d = G /\
    dataset_len d = n /\
    forall idx, (- Z.of_nat n <= idx < Z.of_nat n)%Z ->
      exists a b, dataset_getitem d idx = Ok (a, b) /\
                  shape a = [T; G; 3] /\ wf a /\
                  shape b = [T; G; 2] /\ wf b.
Proof.
  intros HX HwX Hy Hwy.
  rewrite (QuantumWaveDataset_init_ok f n T G HX HwX Hy Hwy).
  eexists; split; [reflexivity|]. cbn [n_grid dataset_len num_trajectories].
  assert (HG : 3 * G / 3 = G)
    by (rewrite Nat.mul_comm, Nat.div_mul; [reflexivity | discriminate]).
  repeat split; auto.
  intros idx Hidx. unfold dataset_getitem. cbn [X y].
  unfold wf in *. rewrite HX in HwX. rewrite Hy in Hwy. simpl in HwX, Hwy.
  destruct (getitem_ok (mk_tensor [n; T; G; 3] (data (dataset_X f))) n [T; G; 3] idx)
    as (a & -> & Ha & Hwa); [reflexivity | unfold wf; simpl; lia | exact Hidx |].
  destruct (getitem_ok (mk_tensor [n; T; G; 2] (data (dataset_y f))) n [T; G; 2] idx)
    as (b & -> & Hb & Hwb); [reflexivity | unfold wf; simpl; lia | exact Hidx |].
  exists a, b. cbn [bind]. auto.
Qed.

Lemma dataset_len_and_item_shapes_witness :
  exists d,
    QuantumWaveDataset_init example_store = Ok d /\
    n_grid d = 3 * 1 / 3 /\ n_grid d = 1 /\
    dataset_len d = 2 /\
    forall idx, (- Z.of_nat 2 <= idx < Z.of_nat 2)%Z ->
      exists a b, dataset_getitem d idx = Ok (a, b) /\
                  shape a = [1; 1; 3] /\ wf a /\
                  shape b = [1; 1; 2] /\ wf b.
Proof.
  apply (dataset_len_and_item_shapes example_store 2 1 1); reflexivity.
Defined.

(** ** The propagator (C2, C3) *)

Section PropagatorFacts.
Context {M : Type} {MM : Module M}.

(** Whenever the loop completes it has recorded one pair per step. *)
Lemma propagate_steps_length (model : M) (potential : tensor) (ts : list nat) :
  forall psi_real psi_imag acc out,
    propagate_steps model potential ts psi_real psi_imag acc = Ok out ->
    length out = length acc + length ts.
Proof.
  induction ts as [|t ts IH]; intros r i acc out H; simpl in H.
  - injection H as <-. simpl. lia.
  - destruct (select0 potential t) as [v|]; [|discriminate]. cbn [bind] in H.
    destruct (call model r i (unsqueeze0 v)) as [o|]; [|discriminate].
    cbn [bind] in H.
    destruct (unpack2 o) as [p|]; [|discriminate]. cbn [bind] in H.
    apply IH in H. rewrite H, length_app. simpl. lia.
Qed.

(** With no step to take the loop body never runs: the result is the empty
    list, whatever the model and the shapes of the fields. *)
Lemma propagate_zero_steps (model : M) (r i p : tensor) :
  snd (propagate_wavefunction model r i p 0) = Ok [].
Proof. reflexivity. Qed.

(** The first step: the model is called on the initial fields and
    [potential[0].unsqueeze(0)], and an exception of that call escapes. *)
Lemma propagate_first_call_raises (model : M) (r i p v : tensor) (N : nat) (e : exception) :
  0 < N ->
  select0 p 0 = Ok v ->
  call (eval model) r i (unsqueeze0 v) = Raise e ->
  snd (propagate_wavefunction model r i p N) = Raise e.
Proof.
  intros HN Hv Hc. destruct N as [|N]; [lia|].
  unfold propagate_wavefunction. cbn [snd seq propagate_steps].
  rewrite Hv. cbn [bind]. rewrite Hc. reflexivity.
Qed.
End PropagatorFacts.

Lemma select0_shape (t : tensor) (d : nat) (s : list nat) (i : nat) :
  shape t = d :: s -> i < d ->
  exists v, select0 t i = Ok v /\ shape v = s.
Proof.
  intros Hs Hi. unfold select0. rewrite Hs, (proj2 (Nat.ltb_lt _ _) Hi).
  eexists; split; reflexivity.
Qed.

Section ModelsInPropagator.
Context {E : TransformerEncoder}.

(** The first model on fields of rank 2: the stacked input has rank 3 and
    the unpacking of its shape into four names raises. *)
Lemma forward1_rank2 (m : Model1.QuantumTransformer) (a b c : tensor) (d0 d1 : nat) :
  shape a = [d0; d1] -> shape b = [d0; d1] -> shape c = [d0; d1] ->
  Model1.forward m a b c = Raise (ValueError_unpack 4 3).
Proof.
  intros Ha Hb Hc. unfold Model1.forward, Model1.forward_with.
  destruct (stack_last_ok a b c _ Ha Hb Hc) as (x & -> & Hs & _).
  cbn [bind]. rewrite Hs. reflexivity.
Qed.

(** The first model on fields of different shapes: [torch.stack] raises. *)
Lemma forward1_shape_mismatch (m : Model1.QuantumTransformer) (a b c : tensor) :
  shape a <> shape b \/ shape a <> shape c ->
  Model1.forward m a b c = Raise RuntimeError_stack.
Proof.
  intros H. unfold Model1.forward, Model1.forward_with. now rewrite stack_last_raise.
Qed.

(** The second model unpacks the shape of [psi_real] into three names
    before anything else. *)
Lemma forward2_rank2 (m : Model2.QuantumTransformer) (a b c : tensor) (d0 d1 : nat) :
  shape a = [d0; d1] ->
  Model2.forward m a b c = Raise (ValueError_unpack 3 2).
Proof. intros Ha. unfold Model2.forward. now rewrite Ha. Qed.

(** C2 (the code does not do what the claim and the docstring say). With
    fields of the documented shapes, an initial field of shape (1, grid) and
    a potential of shape (S, grid), and at least one step to take, the
    propagator returns no list: the first call of the model raises, with the
    first model when the shape of the stacked input is unpacked into four
    names, with the second when the shape of [psi_real] is unpacked into
    three. *)
Theorem propagate_documented_shapes_raise
    (m1 : Model1.QuantumTransformer) (m2 : Model2.QuantumTransformer)
    (r i p : tensor) (G S N : nat) :
  shape r = [1; G] -> shape i = [1; G] -> shape p = [S; G] ->
  0 < N -> N <= S ->
  snd (propagate_wavefunction m1 r i p N) = Raise (ValueError_unpack 4 3) /\
  snd (propagate_wavefunction m2 r i p N) = Raise (ValueError_unpack 3 2).
Proof.
  intros Hr Hi Hp HN HS.
  destruct (select0_shape p S [G] 0 Hp) as (v & Hv & Hsv); [lia|].
  split.
  - apply (propagate_first_call_raises m1 r i p v N _ HN Hv).
    cbn [call Model1.QuantumTransformer_Module].
    rewrite (forward1_rank2 _ r i (unsqueeze0 v) 1 G); auto.
    unfold unsqueeze0. simpl. now rewrite Hsv.
  - apply (propagate_first_call_raises m2 r i p v N _ HN Hv).
    cbn [call Model2.QuantumTransformer_Module].
    rewrite (forward2_rank2 _ r i (unsqueeze0 v) 1 G); auto.
Qed.

(** C3, as amended. With the first model, an initial field of shape
    (1, G), a potential of shape (S, G') with G' different from G and at
    least one step to take, the propagator fails at step 0 with the
    [RuntimeError] that [torch.stack] raises inside the forward pass of the
    model: the exception is the one the call of the model raises.  With no
    step to take it returns the empty list. *)
Theorem propagate_grid_mismatch
    (m : Model1.QuantumTransformer) (r i p : tensor) (G G' S N : nat) :
  shape r = [1; G] -> shape i = [1; G] -> shape p = [S; G'] ->
  G' <> G -> 0 < S ->
  snd (propagate_wavefunction m r i p 0) = Ok [] /\
  (0 < N ->
   snd (propagate_wavefunction m r i p N) = Raise RuntimeError_stack /\
   exists v, select0 p 0 = Ok v /\
             call (eval m) r i (unsqueeze0 v) = Raise RuntimeError_stack).
Proof.
  intros Hr Hi Hp HG HS. split; [reflexivity|]. intros HN.
  destruct (select0_shape p S [G'] 0 Hp HS) as (v & Hv & Hsv).
  assert (Hc : call (eval m) r i (unsqueeze0 v) = Raise RuntimeError_stack).
  { cbn [call Model1.QuantumTransformer_Module].
    rewrite forward1_shape_mismatch; [reflexivity|].
    right. unfold unsqueeze0. simpl. rewrite Hr, Hsv. congruence. }
  split; [|eauto].
  exact (propagate_first_call_raises m r i p v N _ HN Hv Hc).
Qed.
End ModelsInPropagator.

(** *** The calling convention under which the loop runs *)

Section PropagatorRank3.
Context {E : TransformerEncoder}.

Lemma forward2_shapes (m : Model2.QuantumTransformer) (L : nat)
    (re im pot : tensor) (B T G : nat) :
  well_formed (as_model1 m) L ->
  shape re = [B; T; G] -> shape im = [B; T; G] -> shape pot = [B; T; G] ->
  T * G <= L ->
  exists out, Model2.forward m re im pot = Ok out /\
              shape (fst out) = [B; T; G] /\ shape (snd out) = [B; T; G].
Proof.
  intros Hwf Hr Hi Hp HL.
  rewrite (forward2_closed_form m L re im pot B T G) by assumption.
  eexists; split; [reflexivity|]. split; reflexivity.
Qed.

(** With the second model the loop does run when the fields carry the time
    axis the model expects: initial fields of shape (1, 1, G) and a potential
    of shape (S, 1, G). *)
Lemma propagate_steps_rank3 (m : Model2.QuantumTransformer) (L G S : nat)
    (p : tensor) :
  well_formed (as_model1 m) L -> 1 * G <= L ->
  shape p = [S; 1; G] ->
  forall ts r i acc,
    Forall (fun t => t < S) ts ->
    shape r = [1; 1; G] -> shape i = [1; 1; G] ->
    Forall (fun q => shape (fst q) = [1; 1; G] /\ shape (snd q) = [1; 1; G]) acc ->
    exists out,
      propagate_steps m p ts r i acc = Ok out /\
      length out = length acc + length ts /\
      Forall (fun q => shape (fst q) = [1; 1; G] /\ shape (snd q) = [1; 1; G]) out.
Proof.
  intros Hwf HL Hp. induction ts as [|t ts IH]; intros r i acc Hts Hr Hi Hacc.
  - exists acc. simpl. auto.
  - inversion Hts as [|? ? Ht Hts']; subst.
    cbn [propagate_steps].
    destruct (select0_shape p S [1; G] t Hp Ht) as (v & -> & Hv).
    cbn [bind call Model2.QuantumTransformer_Module].
    destruct (forward2_shapes m L r i (unsqueeze0 v) 1 1 G Hwf Hr Hi)
      as (out & -> & Ho1 & Ho2); [unfold unsqueeze0; simpl; now rewrite Hv | exact HL |].
    cbn [bind unpack2 fst snd].
    destruct (IH (fst out) (snd out) (acc ++ [(fst out, snd out)]) Hts' Ho1 Ho2)
      as (res & -> & Hlen & Hall).
    { apply Forall_app. split; [exact Hacc|]. constructor; [|constructor]. auto. }
    exists res. split; [reflexivity|]. split; [|exact Hall].
    rewrite Hlen, length_app. simpl. lia.
Qed.

Lemma propagate_second_model_rank3 (m : Model2.QuantumTransformer) (L G S N : nat)
    (r i p : tensor) :
  well_formed (as_model1 m) L -> G <= L ->
  shape r = [1; 1; G] -> shape i = [1; 1; G] -> shape p = [S; 1; G] ->
  N <= S ->
  exists out,
    snd (propagate_wavefunction m r i p N) = Ok out /\
    length out = N /\
    Forall (fun q => shape (fst q) = [1; 1; G] /\ shape (snd q) = [1; 1; G]) out.
Proof.
  intros Hwf HL Hr Hi Hp HN. unfold propagate_wavefunction. cbn [snd].
  assert (Hwf' : well_formed (as_model1 (eval m)) L) by exact Hwf.
  destruct (propagate_steps_rank3 (eval m) L G S p Hwf') with
    (ts := seq 0 N) (r := r) (i := i) (acc := @nil (tensor * tensor))
    as (out & Ho & Hlen & Hall); auto.
  - lia.
  - apply Forall_forall. intros t Ht. apply in_seq in Ht. lia.
  - exists out. rewrite length_seq in Hlen. auto.
Qed.

(** X19. The first model returns one tensor, which the propagator unpacks along
    its batch axis: with one batch element there is nothing for the second
    name. *)
Theorem propagate_first_model_rank3 (m : Model1.QuantumTransformer) (L G S N : nat)
    (r i p : tensor) :
  well_formed m L -> G <= L ->
  shape r = [1; 1; G] -> shape i = [1; 1; G] -> shape p = [S; 1; G] ->
  0 < N -> N <= S ->
  snd (propagate_wavefunction m r i p N) = Raise (ValueError_unpack 2 1).
Proof.
  intros Hwf HL Hr Hi Hp HN HS. destruct N as [|N]; [lia|].
  unfold propagate_wavefunction. cbn [snd seq propagate_steps].
  destruct (select0_shape p S [1; G] 0 Hp) as (v & -> & Hv); [lia|].
  cbn [bind call Model1.QuantumTransformer_Module].
  destruct (Model1Facts.forward_shape_gen (eval m) L r i (unsqueeze0 v) 1 1 G)
    as (out & -> & Ho & _); auto.
  - unfold unsqueeze0; simpl; now rewrite Hv.
  - lia.
  - cbn [bind unpack2]. rewrite Ho. reflexivity.
Qed.
End PropagatorRank3.

Lemma propagate_documented_shapes_raise_witness :
  snd (propagate_wavefunction example_model1 (row [1]%R) (row [0]%R) (schedule 1 1) 1)
    = Raise (ValueError_unpack 4 3) /\
  snd (propagate_wavefunction example_model2 (row [1]%R) (row [0]%R) (schedule 1 1) 1)
    = Raise (ValueError_unpack 3 2).
Proof.
  apply (propagate_documented_shapes_raise (E := Torch.encoder)
           example_model1 example_model2
           (row [1]%R) (row [0]%R) (schedule 1 1) 1 1 1);
    try reflexivity; lia.
Defined.

(** C3, as stated, fails: with grid sizes 2 and 3 and no step to take the
    propagator does not fail at all, and with one step the exception comes
    out of the call of the model, from [torch.stack]. *)
Lemma propagate_grid_mismatch_counterexample :
  snd (propagate_wavefunction example_model1
         (row [1; 0]%R) (row [0; 0]%R) (schedule 1 3) 0) = Ok [] /\
  call (eval example_model1) (row [1; 0]%R) (row [0; 0]%R)
       (mk_tensor [1; 3] [0; 0; 0]%R) = Raise RuntimeError_stack /\
  snd (propagate_wavefunction example_model1
         (row [1; 0]%R) (row [0; 0]%R) (schedule 1 3) 1) = Raise RuntimeError_stack.
Proof. repeat split. Qed.

Lemma propagate_grid_mismatch_witness :
  snd (propagate_wavefunction example_model1
         (row [1; 0]%R) (row [0; 0]%R) (schedule 2 3) 0) = Ok [] /\
  (0 < 2 ->
   snd (propagate_wavefunction example_model1
          (row [1; 0]%R) (row [0; 0]%R) (schedule 2 3) 2) = Raise RuntimeError_stack /\
   exists v, select0 (schedule 2 3) 0 = Ok v /\
             call (eval example_model1) (row [1; 0]%R) (row [0; 0]%R) (unsqueeze0 v)
               = Raise RuntimeError_stack).
Proof.
  apply (propagate_grid_mismatch (E := Torch.encoder) example_model1
           (row [1; 0]%R) (row [0; 0]%R) (schedule 2 3) 2 3 2 2);
    try reflexivity; lia.
Defined.

(** ** The loader's batches *)

Lemma chunks_fuel_concat {A : Type} (size : nat) :
  0 < size ->
  forall fuel (l : list A), length l <= fuel ->
    concat (chunks_fuel fuel size l) = l.
Proof.
  intros Hs. induction fuel as [|fuel IH]; intros l Hl.
  - destruct l; simpl in *; [reflexivity | lia].
  - destruct l as [|a l']; [reflexivity|].
    cbn [chunks_fuel concat]. rewrite IH.
    + apply firstn_skipn.
    + rewrite length_skipn. cbn [length] in *. lia.
Qed.

Lemma chunks_fuel_length {A : Type} (size : nat) :
  0 < size ->
  forall fuel (l : list A), length l <= fuel ->
    length (chunks_fuel fuel size l) = (length l + size - 1) / size.
Proof.
  intros Hs. induction fuel as [|fuel IH]; intros l Hl.
  - destruct l; simpl in *; [|lia].
    symmetry. apply Nat.div_small. lia.
  - destruct l as [|a l']; cbn [chunks_fuel].
    + simpl. symmetry. apply Nat.div_small. lia.
    + rewrite length_cons, IH by (rewrite length_skipn; cbn [length] in *; lia).
      rewrite length_skipn.
      assert (Hn : 1 <= length (a :: l')) by (simpl; lia).
      revert Hn. generalize (length (a :: l')) as n. intros n Hn.
      destruct (Nat.le_gt_cases n size) as [Hle|Hgt].
      * replace (n - size + size - 1) with (size - 1) by lia.
        rewrite (Nat.div_small (size - 1)) by lia.
        apply (Nat.div_unique _ _ 1 (n - 1)); lia.
      * replace (n + size - 1) with (n - size + size - 1 + 1 * size) by lia.
        rewrite Nat.div_add by lia. lia.
Qed.

Lemma chunks_fuel_Forall {A : Type} (size : nat) :
  0 < size ->
  forall fuel (l : list A),
    Forall (fun b => b <> [] /\ length b <= size) (chunks_fuel fuel size l).
Proof.
  intros Hs. induction fuel as [|fuel IH]; intros l; [constructor|].
  destruct l as [|a l']; [constructor|].
  cbn [chunks_fuel]. constructor; [|apply IH]. split.
  - destruct size; [lia|]. discriminate.
  - rewrite length_firstn. lia.
Qed.

(** The batches of one pass over a permutation of [range(n)] are a
    partition of the samples, and there are [len(train_loader)] of them. *)
Lemma batch_indices_partition (l : DataLoader) (perm : list nat) :
  0 < batch_size l ->
  Permutation perm (seq 0 (dataset_len (loader_dataset l))) ->
  is_partition (dataset_len (loader_dataset l)) (batch_size l) (batch_indices l perm) /\
  length (batch_indices l perm) = loader_len l.
Proof.
  intros Hb Hp. unfold is_partition, batch_indices, chunks, loader_len.
  rewrite chunks_fuel_concat, chunks_fuel_length by auto.
  repeat split; auto using chunks_fuel_Forall.
  now rewrite (Permutation_length Hp), length_seq.
Qed.

Lemma partition_in_range (n size : nat) (batches : list (list nat)) :
  is_partition n size batches ->
  Forall (fun b => b <> [] /\ Forall (fun i => i < n) b) batches.
Proof.
  intros [Hp Hf]. apply Forall_forall. intros b Hb.
  split; [exact (proj1 (proj1 (Forall_forall _ _) Hf b Hb))|].
  apply Forall_forall. intros i Hi.
  assert (In i (seq 0 n)) as Hin.
  { apply (Permutation_in _ Hp). apply in_concat. eauto. }
  apply in_seq in Hin. lia.
Qed.

(** ** One training step *)

Lemma mapM_ok {A B : Type} (f : A -> result B) (P : B -> Prop) (l : list A) :
  Forall (fun a => exists b, f a = Ok b /\ P b) l ->
  exists bs, mapM f l = Ok bs /\ Forall P bs /\ length bs = length l.
Proof.
  induction 1 as [|a l (b & Hb & HP) _ (bs & Hbs & HF & HL)]; simpl.
  - exists []. auto.
  - rewrite Hb, Hbs. cbn [bind]. exists (b :: bs). simpl. auto.
Qed.

Lemma stack0_ok (ts : list tensor) (s : list nat) :
  ts <> [] -> Forall (fun t => shape t = s) ts ->
  exists x, stack0 ts = Ok x /\ shape x = length ts :: s.
Proof.
  intros Hne Hf. destruct ts as [|t ts']; [congruence|].
  unfold stack0.
  assert (Hall : forallb (fun u => list_nat_eqb (shape u) (shape t)) (t :: ts') = true).
  { apply forallb_forall. intros u Hu. apply list_nat_eqb_eq.
    rewrite Forall_forall in Hf. rewrite (Hf u Hu), (Hf t); auto with datatypes. }
  rewrite Hall. eexists; split; [reflexivity|]. simpl.
  inversion Hf; subst. reflexivity.
Qed.

Lemma select_last_ok (t : tensor) (pre : list nat) (w c : nat) :
  shape t = pre ++ [w] -> c < w ->
  exists u, select_last t c = Ok u /\ shape u = pre.
Proof.
  intros Hs Hc. unfold select_last. rewrite Hs, rev_app_distr. simpl.
  rewrite (proj2 (Nat.ltb_lt _ _) Hc), rev_involutive.
  eexists; split; reflexivity.
Qed.

Lemma broadcast_rev_same (s : list nat) : broadcast_rev s s = Some s.
Proof.
  induction s as [|d s IH]; simpl; [reflexivity|].
  now rewrite broadcast_dim_same, IH.
Qed.

Lemma mse_loss_ok (a b : tensor) :
  shape a = shape b -> exists r, mse_loss a b = Ok r.
Proof.
  intros Hs. unfold mse_loss, broadcast_map2, broadcast_shapes.
  rewrite Hs, broadcast_rev_same. simpl. eexists; reflexivity.
Qed.

(** On tensors of one shape the loss is the mean over all elements of the
    squared difference. *)
Lemma mse_loss_same_shape (a b : tensor) :
  shape a = shape b ->
  mse_loss a b =
    Ok (sum_list (tabulate (numel (shape a))
                    (fun i => ((nth i (data a) 0 - nth i (data b) 0)
                               * (nth i (data a) 0 - nth i (data b) 0))%R))
        / INR (numel (shape a)))%R.
Proof.
  intros Hs. unfold mse_loss, broadcast_map2, broadcast_shapes.
  rewrite <- Hs, broadcast_rev_same. cbn [option_map bind shape data].
  rewrite rev_involutive. do 3 f_equal.
  apply tabulate_ext. intros i Hi. now rewrite src_offset_same.
Qed.

Lemma getitem_nat_shape (t : tensor) (d : nat) (s : list nat) (i : nat) :
  shape t = d :: s -> i < d ->
  exists u, getitem t (Z.of_nat i) = Ok u /\ shape u = s.
Proof.
  intros Hs Hi. unfold getitem. rewrite Hs.
  rewrite (proj2 (Z.leb_le _ _)) by lia.
  rewrite (proj2 (Z.ltb_lt _ _)) by lia. cbn [andb].
  rewrite Nat2Z.id. now apply (select0_shape t d s i).
Qed.

Lemma fetch_ok (l : DataLoader) (n T G : nat) (idxs : list nat) :
  dataset_shaped (loader_dataset l) n T G ->
  idxs <> [] -> Forall (fun i => i < n) idxs ->
  exists b, fetch l idxs = Ok b /\
            shape (fst b) = [length idxs; T; G; 3] /\
            shape (snd b) = [length idxs; T; G; 2].
Proof.
  intros (_ & HX & Hy) Hne Hin. unfold fetch.
  destruct (mapM_ok
              (fun i => dataset_getitem (loader_dataset l) (Z.of_nat i))
              (fun p => shape (fst p) = [T; G; 3] /\ shape (snd p) = [T; G; 2])
              idxs) as (items & -> & HF & HL).
  { apply Forall_forall. intros i Hi. rewrite Forall_forall in Hin.
    unfold dataset_getitem.
    destruct (getitem_nat_shape _ _ _ i HX (Hin i Hi)) as (a & -> & Ha).
    destruct (getitem_nat_shape _ _ _ i Hy (Hin i Hi)) as (b & -> & Hb).
    cbn [bind]. eauto. }
  cbn [bind].
  assert (Hitems : items <> []) by (destruct items, idxs; simpl in *; congruence).
  destruct (stack0_ok (map fst items) [T; G; 3]) as (bx & -> & Hbx).
  { destruct items; simpl; congruence. }
  { apply Forall_map. eapply Forall_impl; [|exact HF]. simpl. tauto. }
  destruct (stack0_ok (map snd items) [T; G; 2]) as (by_ & -> & Hby).
  { destruct items; simpl; congruence. }
  { apply Forall_map. eapply Forall_impl; [|exact HF]. simpl. tauto. }
  cbn [bind]. eexists; split; [reflexivity|]. simpl.
  rewrite Hbx, Hby, !length_map, HL. auto.
Qed.

Lemma getitem_nat (t : tensor) (d : nat) (s : list nat) (i : nat) :
  shape t = d :: s -> i < d -> getitem t (Z.of_nat i) = select0 t i.
Proof.
  intros Hs Hi. unfold getitem. rewrite Hs.
  rewrite (proj2 (Z.leb_le _ _)) by lia.
  rewrite (proj2 (Z.ltb_lt _ _)) by lia. cbn [andb].
  now rewrite Nat2Z.id.
Qed.

(** *** The loader, the channel split and the loss, entry by entry *)

Lemma chunk_tabulate (d : list R) (k i : nat) :
  i * k + k <= length d ->
  firstn k (skipn (i * k) d) = tabulate k (fun r => nth (i * k + r) d 0%R).
Proof.
  intros H. apply (nth_ext _ _ 0%R 0%R).
  - rewrite length_firstn, length_skipn, length_tabulate. lia.
  - intros r Hr. rewrite length_firstn, length_skipn in Hr.
    assert (Hk : r < k) by lia.
    rewrite nth_chunk by exact Hk. now rewrite nth_tabulate.
Qed.

Lemma mapM_map {A B : Type} (f : A -> result B) (g : A -> B) (l : list A) :
  (forall a, In a l -> f a = Ok (g a)) -> mapM f l = Ok (map g l).
Proof.
  induction l as [|a l IH]; intros H; [reflexivity|].
  cbn [mapM map]. rewrite H by (left; reflexivity). cbn [bind].
  rewrite IH by (intros b Hb; apply H; right; exact Hb). reflexivity.
Qed.

Lemma stack0_same_shape (ts : list tensor) (s : list nat) :
  ts <> [] -> Forall (fun t => shape t = s) ts ->
  stack0 ts = Ok (mk_tensor (length ts :: s) (flat_map data ts)).
Proof.
  intros Hne Hf. destruct ts as [|t ts']; [congruence|].
  unfold stack0.
  assert (Hall : forallb (fun u => list_nat_eqb (shape u) (shape t)) (t :: ts') = true).
  { apply forallb_forall. intros u Hu. apply list_nat_eqb_eq.
    rewrite Forall_forall in Hf. rewrite (Hf u Hu), (Hf t); auto with datatypes. }
  rewrite Hall. inversion Hf as [|? ? Ht _]; subst. reflexivity.
Qed.

Lemma flat_map_data_map {A : Type} (h : A -> tensor) (l : list A) :
  flat_map data (map h l) = flat_map (fun a => data (h a)) l.
Proof. induction l as [|a l IH]; simpl; congruence. Qed.

(** The item of an index in range, by its entries. *)
Lemma select0_gather (t : tensor) (n : nat) (item : list nat) (i : nat) :
  shape t = n :: item -> wf t -> i < n ->
  select0 t i =
    Ok (mk_tensor item
          (tabulate (numel item) (fun r => nth (i * numel item + r) (data t) 0%R))).
Proof.
  intros Hs Hw Hi. unfold select0. rewrite Hs, (proj2 (Nat.ltb_lt _ _) Hi).
  rewrite chunk_tabulate; [reflexivity|].
  unfold wf in Hw. rewrite Hs in Hw. cbn [numel fold_right] in Hw.
  fold (numel item) in Hw. rewrite Hw.
  replace (i * numel item + numel item) with ((i + 1) * numel item) by ring.
  apply Nat.mul_le_mono_r. lia.
Qed.

(** What the loader hands to the loop for a group of indices is the batch
    of the specification. *)
Lemma fetch_spec (l : DataLoader) (n T G : nat) (idxs : list nat) :
  dataset_shaped (loader_dataset l) n T G ->
  wf (X (loader_dataset l)) -> wf (y (loader_dataset l)) ->
  idxs <> [] -> Forall (fun i => i < n) idxs ->
  fetch l idxs = Ok (spec_batch l idxs).
Proof.
  intros (_ & HX & Hy) HwX Hwy Hne Hin. unfold fetch.
  set (gx := fun i => mk_tensor [T; G; 3]
                 (tabulate (numel [T; G; 3])
                    (fun r => nth (i * numel [T; G; 3] + r)
                                (data (X (loader_dataset l))) 0%R))).
  set (gy := fun i => mk_tensor [T; G; 2]
                 (tabulate (numel [T; G; 2])
                    (fun r => nth (i * numel [T; G; 2] + r)
                                (data (y (loader_dataset l))) 0%R))).
  rewrite (mapM_map _ (fun i => (gx i, gy i))).
  2:{ intros i Hi. rewrite Forall_forall in Hin. specialize (Hin i Hi).
      unfold dataset_getitem.
      rewrite (getitem_nat _ n [T; G; 3]), (getitem_nat _ n [T; G; 2]) by assumption.
      rewrite (select0_gather _ n [T; G; 3]), (select0_gather _ n [T; G; 2])
        by assumption.
      reflexivity. }
  cbn [bind].
  replace (map fst (map (fun i => (gx i, gy i)) idxs)) with (map gx idxs)
    by (rewrite map_map; reflexivity).
  replace (map snd (map (fun i => (gx i, gy i)) idxs)) with (map gy idxs)
    by (rewrite map_map; reflexivity).
  rewrite (stack0_same_shape (map gx idxs) [T; G; 3]);
    [| destruct idxs; [congruence | discriminate]
     | apply Forall_map, Forall_forall; intros; reflexivity ].
  rewrite (stack0_same_shape (map gy idxs) [T; G; 2]);
    [| destruct idxs; [congruence | discriminate]
     | apply Forall_map, Forall_forall; intros; reflexivity ].
  cbn [bind]. unfold spec_batch, gather. rewrite HX, Hy. cbn [tl].
  rewrite !length_map, !flat_map_data_map. reflexivity.
Qed.

Lemma spec_batch_shape (l : DataLoader) (n T G : nat) (idxs : list nat) :
  dataset_shaped (loader_dataset l) n T G ->
  shape (fst (spec_batch l idxs)) = [length idxs; T; G; 3] /\
  shape (snd (spec_batch l idxs)) = [length idxs; T; G; 2].
Proof.
  intros (_ & HX & Hy). unfold spec_batch, gather. cbn [fst snd shape].
  now rewrite HX, Hy.
Qed.

(** [x[..., c]] is channel [c]. *)
Lemma select_last_channel (x : tensor) (pre : list nat) (c : nat) :
  shape x = pre ++ [3] -> c < 3 ->
  select_last x c = Ok (channel c x) /\ shape (channel c x) = pre.
Proof.
  intros Hs Hc. unfold select_last, channel.
  rewrite Hs, rev_app_distr, removelast_last. cbn [rev app shape].
  rewrite (proj2 (Nat.ltb_lt _ _) Hc), rev_involutive.
  split; [|reflexivity]. do 2 f_equal.
  apply tabulate_ext. intros q _. f_equal. lia.
Qed.

(** On an output and a target of one shape, [MSELoss] is the per-element
    mean squared error. *)
Lemma mse_loss_mean_squared_error (a b : tensor) :
  shape a = shape b -> mse_loss a b = Ok (mean_squared_error a b).
Proof.
  intros Hs. rewrite (mse_loss_same_shape a b Hs).
  unfold mean_squared_error, mean. rewrite length_tabulate, Hs. reflexivity.
Qed.

(** ** The training loop against its specification (C7) *)

Section TrainerFacts.
Context {E : TransformerEncoder}.
Variable optimizer : Type.
Variable update : Model1.QuantumTransformer -> optimizer -> tensor -> tensor ->
                  Model1.QuantumTransformer * optimizer.
Variable randperm : nat -> nat -> list nat.

(** The sampler draws permutations. *)
Hypothesis randperm_perm : forall e n, Permutation (randperm e n) (seq 0 n).

(** The optimizer changes the values of the weights, not their sizes, and
    does not touch the positional table (which is not a parameter). *)
Hypothesis update_well_formed : forall m o bx by_ L,
  well_formed m L -> well_formed (fst (update m o bx by_)) L.

Variable l : DataLoader.
Variables n T G L : nat.
Hypothesis dataset_ok : dataset_shaped (loader_dataset l) n T G.
Hypothesis X_wf : wf (X (loader_dataset l)).
Hypothesis y_wf : wf (y (loader_dataset l)).
Hypothesis table_covers : T * G <= L.

Lemma train_well_formed (m : Model1.QuantumTransformer) :
  well_formed m L -> well_formed (train m) L.
Proof. intros H. exact H. Qed.

Lemma train_step_spec (st : train_state optimizer) (idxs : list nat) :
  well_formed (st_model st) L ->
  idxs <> [] -> Forall (fun i => i < n) idxs ->
  train_step update l st idxs =
    Ok (let b := spec_batch l idxs in
        let mo := update (st_model st) (st_optimizer st) (fst b) (snd b) in
        mk_state (fst mo) (snd mo)
          (st_total_loss st + spec_loss (st_model st) b)%R).
Proof.
  intros Hwf Hne Hin. unfold train_step, spec_loss, spec_output.
  rewrite (fetch_spec l n T G idxs dataset_ok X_wf y_wf Hne Hin). cbn [bind].
  destruct (spec_batch_shape l n T G idxs dataset_ok) as (Hbx & Hby).
  set (b := spec_batch l idxs) in *.
  destruct (select_last_channel (fst b) [length idxs; T; G] 0 Hbx) as (-> & Hr); [lia|].
  destruct (select_last_channel (fst b) [length idxs; T; G] 1 Hbx) as (-> & Hi); [lia|].
  destruct (select_last_channel (fst b) [length idxs; T; G] 2 Hbx) as (-> & Hp); [lia|].
  cbn [bind].
  destruct (Model1Facts.forward_shape_gen (st_model st) L
              (channel 0 (fst b)) (channel 1 (fst b)) (channel 2 (fst b))
              (length idxs) T G Hwf Hr Hi Hp table_covers) as (out & -> & Hout & _).
  cbn [bind unwrap].
  rewrite (mse_loss_mean_squared_error out (snd b)) by congruence.
  reflexivity.
Qed.

Lemma train_batches_spec (batches : list (list nat)) :
  forall st : train_state optimizer,
    well_formed (st_model st) L ->
    Forall (fun b => b <> [] /\ Forall (fun i => i < n) b) batches ->
    let r := spec_epoch update l (st_model st) (st_optimizer st) batches in
    train_batches update l st batches =
      Ok (mk_state (fst (fst r)) (snd (fst r))
            (st_total_loss st + sum_list (snd r))%R) /\
    well_formed (fst (fst r)) L /\
    length (snd r) = length batches.
Proof.
  induction batches as [|idxs rest IH]; intros st Hwf Hf; cbn zeta.
  - cbn [train_batches spec_epoch fst snd sum_list fold_right length].
    rewrite Rplus_0_r. destruct st; auto.
  - inversion Hf as [|? ? [Hne Hin] Hrest]; subst.
    cbn [train_batches]. rewrite (train_step_spec st idxs Hwf Hne Hin).
    cbn [bind]. cbv zeta.
    set (b := spec_batch l idxs).
    set (mo := update (st_model st) (st_optimizer st) (fst b) (snd b)).
    specialize (IH (mk_state (fst mo) (snd mo)
                      (st_total_loss st + spec_loss (st_model st) b)%R)).
    cbn [st_model st_optimizer st_total_loss] in IH.
    destruct IH as (Heq & Hwf' & Hlen); [now apply update_well_formed | exact Hrest |].
    rewrite Heq. cbn [spec_epoch]. fold b. fold mo. cbn [fst snd length].
    split; [|split; [exact Hwf' | now rewrite Hlen]].
    f_equal. f_equal. cbn [sum_list fold_right]. unfold sum_list. ring.
Qed.

Hypothesis loader_ok : 0 < batch_size l.
Hypothesis dataset_nonempty : 0 < n.

Lemma loader_len_pos : 0 < loader_len l.
Proof.
  unfold loader_len. destruct dataset_ok as (-> & _).
  apply Nat.div_str_pos. lia.
Qed.

Lemma batches_of_epoch (e : nat) :
  is_partition n (batch_size l) (batch_indices l (randperm e n)) /\
  length (batch_indices l (randperm e n)) = loader_len l.
Proof.
  destruct dataset_ok as (Hn & _).
  pose proof (batch_indices_partition l (randperm e n) loader_ok) as H.
  rewrite Hn in H. apply H. apply randperm_perm.
Qed.

Lemma train_epoch_spec (m : Model1.QuantumTransformer) (o : optimizer) (e : nat) :
  well_formed m L ->
  let r := spec_epoch update l (train m) o (batch_indices l (randperm e n)) in
  train_epoch update randperm l m o e =
    Ok (fst (fst r), snd (fst r), mean (snd r)) /\
  well_formed (fst (fst r)) L.
Proof.
  intros Hwf. cbv zeta.
  destruct (batches_of_epoch e) as (Hpart & Hlen).
  pose proof (partition_in_range _ _ _ Hpart) as Hrange.
  destruct (train_batches_spec _ (mk_state (train m) o 0%R)
              (train_well_formed m Hwf) Hrange) as (Heq & Hwf' & Hl).
  cbn [st_model st_optimizer st_total_loss] in *.
  split; [|exact Hwf'].
  unfold train_epoch.
  replace (dataset_len (loader_dataset l)) with n by (symmetry; apply dataset_ok).
  rewrite Heq. cbn [bind st_total_loss st_model st_optimizer].
  unfold py_div.
  replace (loader_len l =? 0) with false
    by (symmetry; apply Nat.eqb_neq; pose proof loader_len_pos; lia).
  cbn [bind]. unfold mean. rewrite Hl, Hlen, Rplus_0_l. reflexivity.
Qed.

Lemma train_epochs_spec (epochs : list nat) :
  forall (m : Model1.QuantumTransformer) (o : optimizer) (printed : list R),
    well_formed m L ->
    let r := spec_training update l (fun e => batch_indices l (randperm e n))
               m o epochs in
    train_epochs update randperm l m o epochs printed =
      Ok (fst (fst r), snd (fst r), printed ++ snd r) /\
    length (snd r) = length epochs.
Proof.
  induction epochs as [|e rest IH]; intros m o printed Hwf; cbv zeta.
  - cbn [train_epochs spec_training fst snd]. now rewrite app_nil_r.
  - cbn [train_epochs spec_training].
    destruct (train_epoch_spec m o e Hwf) as (-> & Hwf').
    cbn [bind fst snd].
    set (r := spec_epoch update l (train m) o (batch_indices l (randperm e n))) in *.
    destruct (IH (fst (fst r)) (snd (fst r)) (printed ++ [mean (snd r)]) Hwf')
      as (-> & Hlen).
    cbn [length]. rewrite Hlen, <- app_assoc. split; reflexivity.
Qed.

Lemma training_loop_spec_gen (m : Model1.QuantumTransformer) (o : optimizer)
    (num_epochs : nat) :
  well_formed m L ->
  training_loop update randperm l m o num_epochs =
    Ok (spec_training update l (fun e => batch_indices l (randperm e n))
          m o (seq 0 num_epochs)) /\
  length (snd (spec_training update l (fun e => batch_indices l (randperm e n))
                 m o (seq 0 num_epochs))) = num_epochs /\
  forall e, is_partition n (batch_size l) (batch_indices l (randperm e n)) /\
            length (batch_indices l (randperm e n)) = loader_len l.
Proof.
  intros Hwf. unfold training_loop.
  destruct (train_epochs_spec (seq 0 num_epochs) m o [] Hwf) as (-> & Hlen).
  rewrite length_seq in Hlen. cbn [app].
  split; [|split; [exact Hlen | exact batches_of_epoch]].
  now destruct (spec_training _ _ _ _ _ _) as [[? ?] ?].
Qed.
End TrainerFacts.

Lemma DataLoader_init_inv (d : QuantumWaveDataset) (bs : nat) (l : DataLoader) :
  DataLoader_init d bs = Ok l ->
  loader_dataset l = d /\ batch_size l = bs /\ 0 < bs /\ 0 < dataset_len d.
Proof.
  unfold DataLoader_init.
  destruct (bs =? 0) eqn:E1; [discriminate|].
  destruct (dataset_len d =? 0) eqn:E2; [discriminate|].
  intros H; injection H as <-. apply Nat.eqb_neq in E1, E2.
  simpl. repeat split; lia.
Qed.

(** C7 (corrected: the claim holds for the models and loaders named here,
    not for every model and loader).  For a loader built over a
    dataset of n trajectories (T steps, G grid points), a model whose layers
    fit together and whose positional table covers T*G tokens, a sampler that
    draws permutations and an optimizer that keeps the sizes of the weights,
    the training loop terminates without raising after exactly [num_epochs]
    epochs, and its result is that of the specification: in every epoch each
    batch is drawn once (the batches partition the samples and there are
    [len(train_loader)] of them), each batch gets one forward pass and one
    update, its loss is the mean over the elements of its target of the
    squared difference between the model output and the target
    ([mean_squared_error], on the batch [gather]ed from the dataset), and the
    value reported for the epoch is the mean of its per-batch losses. *)
Theorem training_loop_meets_spec {E : TransformerEncoder} (optimizer : Type)
    (update : Model1.QuantumTransformer -> optimizer -> tensor -> tensor ->
              Model1.QuantumTransformer * optimizer)
    (randperm : nat -> nat -> list nat)
    (d : QuantumWaveDataset) (bs : nat) (l : DataLoader) (n T G L : nat)
    (m : Model1.QuantumTransformer) (o : optimizer) (num_epochs : nat) :
  (forall e k, Permutation (randperm e k) (seq 0 k)) ->
  (forall m o bx by_ L, well_formed m L -> well_formed (fst (update m o bx by_)) L) ->
  dataset_shaped d n T G -> wf (X d) -> wf (y d) ->
  DataLoader_init d bs = Ok l ->
  T * G <= L ->
  well_formed m L ->
  training_loop update randperm l m o num_epochs =
    Ok (spec_training update l (fun e => batch_indices l (randperm e n))
          m o (seq 0 num_epochs)) /\
  length (snd (spec_training update l (fun e => batch_indices l (randperm e n))
                 m o (seq 0 num_epochs))) = num_epochs /\
  forall e, is_partition n (batch_size l) (batch_indices l (randperm e n)) /\
            length (batch_indices l (randperm e n)) = loader_len l.
Proof.
  intros Hperm Hupd Hd HwX Hwy Hl HL Hwf.
  apply DataLoader_init_inv in Hl as (Hld & Hbs & Hpos & Hn).
  apply (training_loop_spec_gen optimizer update randperm Hperm Hupd l n T G L);
    auto.
  - now rewrite Hld.
  - now rewrite Hld.
  - now rewrite Hld.
  - now rewrite Hbs.
  - destruct Hd as (<- & _). exact Hn.
Qed.

Lemma training_loop_meets_spec_witness :
  training_loop example_update example_randperm example_loader
      example_model1 0 3 =
    Ok (spec_training example_update example_loader
          (fun e => batch_indices example_loader (example_randperm e 2))
          example_model1 0 (seq 0 3)) /\
  length (snd (spec_training example_update example_loader
                 (fun e => batch_indices example_loader (example_randperm e 2))
                 example_model1 0 (seq 0 3))) = 3 /\
  forall e, is_partition 2 (batch_size example_loader)
              (batch_indices example_loader (example_randperm e 2)) /\
            length (batch_indices example_loader (example_randperm e 2))
              = loader_len example_loader.
Proof.
  apply (training_loop_meets_spec (E := Torch.encoder) nat example_update
           example_randperm example_dataset 1 example_loader 2 1 1 1
           example_model1 0 3).
  - intros e k. apply Permutation_sym, Permutation_rev.
  - intros m o bx by_ L H. exact H.
  - repeat split.
  - reflexivity.
  - reflexivity.
  - reflexivity.
  - simpl. lia.
  - unfold well_formed. simpl. repeat split; reflexivity.
Defined.

(** *** Parameters change through the update step only *)

Section TrainerFrame.
Context {E : TransformerEncoder}.
Variable optimizer : Type.
Variable update : Model1.QuantumTransformer -> optimizer -> tensor -> tensor ->
                  Model1.QuantumTransformer * optimizer.

(** Were the update step to leave the parameters alone, training would
    too: nothing else in the loop writes to them. *)
Hypothesis update_frame : forall m o bx by_,
  parameters (fst (update m o bx by_)) = parameters m.

Lemma spec_epoch_parameters (l : DataLoader) (batches : list (list nat)) :
  forall m o,
    parameters (fst (fst (spec_epoch update l m o batches))) = parameters m.
Proof.
  induction batches as [|idxs rest IH]; intros m o; [reflexivity|].
  cbn [spec_epoch fst]. now rewrite IH, update_frame.
Qed.

Lemma spec_training_parameters (l : DataLoader)
    (batches_of : nat -> list (list nat)) (epochs : list nat) :
  forall m o,
    parameters (fst (fst (spec_training update l batches_of m o epochs)))
      = parameters m.
Proof.
  induction epochs as [|e rest IH]; intros m o; [reflexivity|].
  cbn [spec_training fst]. now rewrite IH, spec_epoch_parameters.
Qed.
End TrainerFrame.

(** ** The two models evaluated on an example (C4, C9)

    Two batch elements, one time step, one grid point; the weights are those
    of [example_model1] and [example_model2], which are the same. *)

Section Evaluation.
Local Open Scope R_scope.

Ltac reals_cbv :=
  cbv -[Rplus Rmult Rminus Rdiv Rinv sqrt exp Rmax IZR INR Ropp R sin cos ln].

Ltac exp_zero :=
  repeat match goal with
  | |- context [exp (?n / ?d)] =>
      replace (exp (n / d)) with 1
        by (replace n with 0 by ring; unfold Rdiv; rewrite Rmult_0_l, exp_0;
            reflexivity)
  end.

Lemma squash_den_pos d : 0 < sqrt (d / 2 * (d / 2) + 1 / 100000).
Proof. apply sqrt_lt_R0. nra. Qed.

Lemma example_layer_norm (a b : R) :
  Torch.layer_norm example_norm 2 [a; b] = [squash (a - b); squash (b - a)].
Proof.
  reals_cbv.
  replace (INR 2) with 2 by (simpl; lra).
  f_equal; [|f_equal].
  - replace ((a - (a + (b + 0)) / 2)) with ((a - b) / 2) by lra.
    replace ((b - (a + (b + 0)) / 2)) with (-((a - b) / 2)) by lra.
    replace ((((a - b) / 2 * ((a - b) / 2) + (- ((a - b) / 2) * - ((a - b) / 2) + 0)) / 2)) with ((a - b) / 2 * ((a - b) / 2)) by lra.
    lra.
  - replace ((b - (a + (b + 0)) / 2)) with ((b - a) / 2) by lra.
    replace ((a - (a + (b + 0)) / 2)) with (-((b - a) / 2)) by lra.
    replace (((- ((b - a) / 2) * - ((b - a) / 2) + ((b - a) / 2 * ((b - a) / 2) + 0)) / 2)) with ((b - a) / 2 * ((b - a) / 2)) by lra.
    lra.
Qed.

Lemma example_attention_two (x0 x1 y0 y1 : R) :
  Torch.attention example_attn [[x0; x1]; [y0; y1]] =
    [[(x0 + y0) / 2; (x1 + y1) / 2]; [(x0 + y0) / 2; (x1 + y1) / 2]].
Proof.
  reals_cbv. exp_zero.
  repeat (f_equal; try lra).
Qed.

Lemma example_attention_one (x0 x1 : R) :
  Torch.attention example_attn [[x0; x1]] = [[x0; x1]].
Proof.
  reals_cbv. exp_zero.
  repeat (f_equal; try lra).
Qed.

Lemma example_feed_forward (x0 x1 : R) :
  linear_token example_linear2
    (map Torch.relu (linear_token example_linear1 [x0; x1])) = [0; 0].
Proof.
  reals_cbv.
  repeat (f_equal; try lra).
Qed.

Lemma example_encoder_two (x0 x1 y0 y1 : R) :
  encoder_forward (TransformerEncoder := Torch.encoder) [example_layer] false
    [[x0; x1]; [y0; y1]] =
  [ norm_pair (squash ((x0 + (x0 + y0) / 2) - (x1 + (x1 + y1) / 2)))
              (squash ((x1 + (x1 + y1) / 2) - (x0 + (x0 + y0) / 2)));
    norm_pair (squash ((y0 + (x0 + y0) / 2) - (y1 + (x1 + y1) / 2)))
              (squash ((y1 + (x1 + y1) / 2) - (y0 + (x0 + y0) / 2))) ].
Proof.
  cbn [encoder_forward Torch.encoder Torch.encoder_stack fold_left].
  unfold Torch.encoder_layer.
  cbn [example_layer Torch.self_attn Torch.norm1 Torch.norm2 Torch.linear1 Torch.linear2
       Torch.embed_dim example_attn].
  rewrite example_attention_two.
  cbn [length tabulate seq map nth Torch.vec_add].
  rewrite !example_layer_norm.
  rewrite !example_feed_forward.
  cbn [nth].
  unfold norm_pair. repeat (f_equal; try lra).
Qed.

Ltac tensor_cbv :=
  cbv -[Rplus Rmult Rminus Rdiv Rinv sqrt exp Rmax IZR INR Ropp R sin cos ln
        encoder_forward Torch.encoder example_layer norm_pair squash].

Lemma example_embedding (a b : R) :
  linear (mk_Linear 3 2 example_emb_w example_emb_b)
    (mk_tensor [2; 1; 3]%nat [a; 0; 0; b; 0; 0]) =
  Ok (mk_tensor [2; 1; 2]%nat [a; 0; b; 0]).
Proof. tensor_cbv. repeat (f_equal; try lra). Qed.

Lemma example_add_pe (a b : R) :
  tensor_add (mk_tensor [2; 1; 2]%nat [a; 0; b; 0]) (mk_tensor [1; 1; 2]%nat [0; 1]) =
  Ok (mk_tensor [2; 1; 2]%nat [a; 1; b; 1]).
Proof. tensor_cbv. repeat (f_equal; try lra). Qed.

Lemma example_output (u0 u1 v0 v1 : R) :
  linear (mk_Linear 2 2 example_out_w example_out_b)
    (mk_tensor [2; 1; 2]%nat [u0; u1; v0; v1]) =
  Ok (mk_tensor [2; 1; 2]%nat [u0; u1; v0; v1]).
Proof. tensor_cbv. repeat (f_equal; try lra). Qed.

(** Along the batch axis: the two batch elements are one sequence. *)
Lemma example_encoder_seq_first (a b : R) :
  transformer_encoder (E := Torch.encoder) false 2 [example_layer] false
    (mk_tensor [2; 1; 2]%nat [a; 1; b; 1]) =
  Ok (mk_tensor [2; 1; 2]%nat
        (norm_pair (squash ((a + (a + b) / 2) - (1 + (1 + 1) / 2)))
                   (squash ((1 + (1 + 1) / 2) - (a + (a + b) / 2))) ++
         norm_pair (squash ((b + (a + b) / 2) - (1 + (1 + 1) / 2)))
                   (squash ((1 + (1 + 1) / 2) - (b + (a + b) / 2))))).
Proof.
  tensor_cbv. rewrite !example_encoder_two. reflexivity.
Qed.

Lemma example_encoder_one (x0 x1 : R) :
  encoder_forward (TransformerEncoder := Torch.encoder) [example_layer] false
    [[x0; x1]] =
  [ norm_pair (squash ((x0 + x0) - (x1 + x1))) (squash ((x1 + x1) - (x0 + x0))) ].
Proof.
  cbn [encoder_forward Torch.encoder Torch.encoder_stack fold_left].
  unfold Torch.encoder_layer.
  cbn [example_layer Torch.self_attn Torch.norm1 Torch.norm2 Torch.linear1 Torch.linear2
       Torch.embed_dim example_attn].
  rewrite example_attention_one.
  cbn [length tabulate seq map nth Torch.vec_add].
  rewrite !example_layer_norm.
  rewrite !example_feed_forward.
  cbn [nth].
  unfold norm_pair. repeat (f_equal; try lra).
Qed.

(** Batch first: every batch element is a sequence of its own. *)
Lemma example_encoder_batch_first (a b : R) :
  transformer_encoder (E := Torch.encoder) true 2 [example_layer] false
    (mk_tensor [2; 1; 2]%nat [a; 1; b; 1]) =
  Ok (mk_tensor [2; 1; 2]%nat
        (norm_pair (squash ((a + a) - (1 + 1))) (squash ((1 + 1) - (a + a))) ++
         norm_pair (squash ((b + b) - (1 + 1))) (squash ((1 + 1) - (b + b))))).
Proof.
  tensor_cbv. rewrite !example_encoder_one. reflexivity.
Qed.

Lemma example_forward1 (a b : R) :
  Model1.forward example_model1 (field_211 a b) (field_211 0 0) (field_211 0 0) =
  Ok (mk_tensor [2; 1; 1; 2]%nat (out1 a b ++ out1 b a)).
Proof.
  unfold Model1.forward, Model1.forward_with.
  replace (stack_last (field_211 a b) (field_211 0 0) (field_211 0 0))
    with (Ok (mk_tensor [2; 1; 1; 3]%nat [a; 0; 0; b; 0; 0])) by reflexivity.
  cbn [bind shape].
  replace (view (mk_tensor [2; 1; 1; 3]%nat [a; 0; 0; b; 0; 0]) [2; 1 * 1; 3]%nat)
    with (Ok (mk_tensor [2; 1; 3]%nat [a; 0; 0; b; 0; 0])) by reflexivity.
  cbn [bind].
  change (Model1.embedding example_model1)
    with (mk_Linear 3 2 example_emb_w example_emb_b).
  rewrite example_embedding. cbn [bind shape nth].
  replace (slice1 (Model1.positional_encoding example_model1) 1)
    with (Ok (mk_tensor [1; 1; 2]%nat [0; 1])) by reflexivity.
  cbn [bind]. rewrite example_add_pe. cbn [bind].
  change (transformer_encoder Model1.batch_first (Model1.d_model example_model1)
            (Model1.encoder example_model1) (Model1.training example_model1))
    with (transformer_encoder (E := Torch.encoder) false 2 [example_layer] false).
  rewrite example_encoder_seq_first. cbn [bind].
  change (Model1.output_layer example_model1)
    with (mk_Linear 2 2 example_out_w example_out_b).
  unfold norm_pair at 1 2. cbn [app].
  rewrite example_output. cbn [bind].
  unfold out1, norm_pair. cbn [app].
  replace (b + (a + b) / 2) with (b + (b + a) / 2) by lra.
  reflexivity.
Qed.

Lemma example_pe2_slice :
  slice1 (Model2.pe example_pe2) 1 = Ok (mk_tensor [1; 1; 2]%nat [0; 1]).
Proof.
  cbv -[Rplus Rmult Rminus Rdiv Rinv sqrt exp Rmax IZR INR Ropp R sin cos ln div_term].
  simpl INR. rewrite Rmult_0_l, sin_0, cos_0. reflexivity.
Qed.

Lemma example_forward2 (a b : R) :
  Model2.forward example_model2 (field_211 a b) (field_211 0 0) (field_211 0 0) =
  Ok (mk_tensor [2; 1; 1]%nat [nth 0 (out2 a) 0; nth 0 (out2 b) 0],
      mk_tensor [2; 1; 1]%nat [nth 1 (out2 a) 0; nth 1 (out2 b) 0]).
Proof.
  unfold Model2.forward. cbn [shape field_211].
  replace (stack_last (field_211 a b) (field_211 0 0) (field_211 0 0))
    with (Ok (mk_tensor [2; 1; 1; 3]%nat [a; 0; 0; b; 0; 0])) by reflexivity.
  cbn [bind shape].
  replace (view (mk_tensor [2; 1; 1; 3]%nat [a; 0; 0; b; 0; 0]) [2; 1 * 1; 3]%nat)
    with (Ok (mk_tensor [2; 1; 3]%nat [a; 0; 0; b; 0; 0])) by reflexivity.
  cbn [bind].
  change (Model2.input_proj example_model2)
    with (mk_Linear 3 2 example_emb_w example_emb_b).
  rewrite example_embedding. cbn [bind].
  unfold Model2.PositionalEncoding_forward. cbn [shape nth].
  change (Model2.positional_encoding example_model2) with example_pe2.
  rewrite example_pe2_slice. cbn [bind]. rewrite example_add_pe. cbn [bind].
  change (transformer_encoder Model2.batch_first (Model2.d_model example_model2)
            (Model2.encoder example_model2) (Model2.training example_model2))
    with (transformer_encoder (E := Torch.encoder) true 2 [example_layer] false).
  rewrite example_encoder_batch_first. cbn [bind].
  change (Model2.output_proj example_model2)
    with (mk_Linear 2 2 example_out_w example_out_b).
  unfold norm_pair at 1 2. cbn [app].
  rewrite example_output. cbn [bind].
  reflexivity.
Qed.

Lemma squash_pos (d : R) : 0 < d -> 0 < squash d.
Proof.
  intros Hd. unfold squash. pose proof (squash_den_pos d) as Hs.
  apply Rdiv_lt_0_compat; lra.
Qed.

Lemma squash_neg (d : R) : d < 0 -> squash d < 0.
Proof.
  intros Hd. unfold squash. pose proof (squash_den_pos d) as Hs.
  apply Rinv_0_lt_compat in Hs. unfold Rdiv at 1. nra.
Qed.

Lemma squash_0 : squash 0 = 0.
Proof. unfold squash, Rdiv. now rewrite !Rmult_0_l. Qed.

Lemma out1_first_neg : nth 0 (out1 1 0) 0 < 0.
Proof.
  unfold out1, norm_pair. cbn [nth]. apply squash_neg.
  assert (squash (1 + (1 + 0) / 2 - (1 + (1 + 1) / 2)) < 0) by (apply squash_neg; lra).
  assert (0 < squash (1 + (1 + 1) / 2 - (1 + (1 + 0) / 2))) by (apply squash_pos; lra).
  lra.
Qed.

Lemma out1_first_pos : 0 < nth 0 (out1 1 5) 0.
Proof.
  unfold out1, norm_pair. cbn [nth]. apply squash_pos.
  assert (0 < squash (1 + (1 + 5) / 2 - (1 + (1 + 1) / 2))) by (apply squash_pos; lra).
  assert (squash (1 + (1 + 1) / 2 - (1 + (1 + 5) / 2)) < 0) by (apply squash_neg; lra).
  lra.
Qed.

Lemma out2_first_zero : nth 0 (out2 1) 0 = 0.
Proof.
  unfold out2, norm_pair. cbn [nth].
  replace (1 + 1 - (1 + 1)) with 0 by lra.
  now rewrite squash_0, Rminus_diag, squash_0.
Qed.

(** The example models are what the constructors build from the example
    weights, switched to evaluation. *)
Lemma example_model1_from_init :
  Model1.init (E := Torch.encoder) 2 1 1 example_emb_w example_emb_b [example_layer]
    example_out_w example_out_b = Ok example_model1_fresh.
Proof.
  unfold Model1.init, create_positional_encoding, positional_table.
  cbn [Nat.eqb assign_cols_ok Nat.div Nat.divmod fst Nat.add orb bind Nat.mul
       flat_map seq tabulate map app Nat.even].
  unfold example_model1_fresh. repeat f_equal.
  - simpl INR. now rewrite Rmult_0_l, sin_0.
  - simpl INR. now rewrite Rmult_0_l, cos_0.
Qed.

Lemma example_model2_from_init :
  Model2.init (E := Torch.encoder) 1 2 example_emb_w example_emb_b [example_layer]
    example_out_w example_out_b = Ok (train example_model2).
Proof. reflexivity. Qed.

(** C4 (the code does not do what the claim says). In the first model the
    encoder runs along the batch axis.  The two input batches below agree on
    batch element 0 and differ on batch element 1 only, yet the outputs at
    batch element 0 differ: one is negative, the other positive. *)
Theorem batch_elements_interfere :
  exists out out',
    Model1.forward example_model1 (field_211 1 0) (field_211 0 0) (field_211 0 0)
      = Ok out /\
    Model1.forward example_model1 (field_211 1 5) (field_211 0 0) (field_211 0 0)
      = Ok out' /\
    select0 (field_211 1 0) 0 = select0 (field_211 1 5) 0 /\
    get out [0; 0; 0; 0]%nat < 0 /\ 0 < get out' [0; 0; 0; 0]%nat /\
    select0 out 0 <> select0 out' 0.
Proof.
  exists (mk_tensor [2; 1; 1; 2]%nat (out1 1 0 ++ out1 0 1)),
         (mk_tensor [2; 1; 1; 2]%nat (out1 1 5 ++ out1 5 1)).
  split; [apply example_forward1|]. split; [apply example_forward1|].
  split; [reflexivity|].
  pose proof out1_first_neg as Hn. pose proof out1_first_pos as Hp.
  split; [exact Hn|]. split; [exact Hp|].
  intros Heq. injection Heq as Heq _.
  change (nth 0 (out1 1 0) 0 = nth 0 (out1 1 5) 0) in Heq. lra.
Qed.

(** C9 (the two definitions do not compute the same function). With the
    same weights and the same input, on which both are defined, channel 0 of
    the first model's output at batch element 0 is negative while the real
    field the second model returns is 0 there. *)
Theorem two_definitions_differ :
  exists out re im,
    Model1.forward example_model1 (field_211 1 0) (field_211 0 0) (field_211 0 0)
      = Ok out /\
    Model2.forward example_model2 (field_211 1 0) (field_211 0 0) (field_211 0 0)
      = Ok (re, im) /\
    Model1.embedding example_model1 = Model2.input_proj example_model2 /\
    Model1.encoder example_model1 = Model2.encoder example_model2 /\
    Model1.output_layer example_model1 = Model2.output_proj example_model2 /\
    get out [0; 0; 0; 0]%nat < 0 /\ get re [0; 0; 0]%nat = 0 /\
    select_last out 0 <> Ok re.
Proof.
  eexists. eexists. eexists.
  split; [apply example_forward1|]. split; [apply example_forward2|].
  split; [reflexivity|]. split; [reflexivity|]. split; [reflexivity|].
  pose proof out1_first_neg as Hn. pose proof out2_first_zero as Hz.
  split; [exact Hn|]. split; [exact Hz|].
  intros Heq. injection Heq as Heq _.
  change (nth 0 (out1 1 0) 0 = nth 0 (out2 1) 0) in Heq. lra.
Qed.
End Evaluation.

(** ** What the runs leave behind (C8) *)

Ltac run_prog :=
  unfold bind_prog, lift, attr, ret; cbn [fst snd bind].

Ltac step_result :=
  match goal with
  | |- context [match ?r with Ok _ => _ | Raise _ => _ end] =>
      match r with
      | Ok _ => fail 1
      | Raise _ => fail 1
      | _ => destruct r; cbn [fst snd bind]
      end
  end.

Section ObjectForward.
Context {E : TransformerEncoder}.

(** The methods run on the object return what [forward] returns and leave
    the object as it was. *)
Lemma forward1_run (a b c : tensor) (m : Model1.QuantumTransformer) :
  OnObject.forward1 a b c m = (m, Model1.forward m a b c).
Proof.
  unfold OnObject.forward1, Model1.forward, Model1.forward_with. run_prog.
  destruct (stack_last a b c) as [x|]; cbn [fst snd bind]; [|reflexivity].
  destruct (shape x) as [|? [|? [|? [|? [|? ?]]]]]; try reflexivity.
  run_prog. repeat step_result; reflexivity.
Qed.

Lemma forward2_run (a b c : tensor) (m : Model2.QuantumTransformer) :
  OnObject.forward2 a b c m = (m, Model2.forward m a b c).
Proof.
  unfold OnObject.forward2, Model2.forward.
  destruct (shape a) as [|? [|? [|? [|? ?]]]]; try reflexivity.
  run_prog. repeat step_result; reflexivity.
Qed.

Lemma run1 (a b c : tensor) (m : Model1.QuantumTransformer) :
  run a b c m = (m, call m a b c).
Proof.
  cbn [run OnObject.QuantumTransformer1_Object call Model1.QuantumTransformer_Module].
  unfold bind_prog. rewrite forward1_run. cbn [fst snd].
  destruct (Model1.forward m a b c); reflexivity.
Qed.

Lemma run2 (a b c : tensor) (m : Model2.QuantumTransformer) :
  run a b c m = (m, call m a b c).
Proof.
  cbn [run OnObject.QuantumTransformer2_Object call Model2.QuantumTransformer_Module].
  unfold bind_prog. rewrite forward2_run. cbn [fst snd].
  destruct (Model2.forward m a b c); reflexivity.
Qed.
End ObjectForward.

Section ObjectPropagator.
Context {M : Type} {MM : Module M} {MO : ModuleObject M}.

(** One iteration, unfolded: the potential is indexed, the model is called
    with the grad mode off and its output unpacked, the mode is put back,
    and the pair, which does not require grad, is appended. *)
Lemma propagate_steps_cons (p : tensor) (t : nat) (ts : list nat)
    (r i : tensor) (acc : list (tensor * tensor)) (w : interp M) :
  OnObject.propagate_steps p (t :: ts) r i acc w =
    match select0 p t with
    | Raise e => (w, Raise e)
    | Ok v =>
        let r1 := run r i (unsqueeze0 v) (the_model w) in
        let w' := mk_interp (fst r1) (grad_enabled w) in
        match snd r1 with
        | Raise e => (w', Raise e)
        | Ok o =>
            match unpack2 o with
            | Raise e => (w', Raise e)
            | Ok q =>
                OnObject.propagate_steps p ts (fst q) (snd q)
                  (acc ++ [(fst q, snd q)]) w'
            end
        end
    end.
Proof.
  cbn [OnObject.propagate_steps].
  unfold bind_prog, lift, ret, OnObject.no_grad, OnObject.model_call, OnObject.numpy.
  cbn [fst snd the_model grad_enabled].
  destruct (select0 p t) as [v|e]; cbn [fst snd]; [|reflexivity].
  destruct (run r i (unsqueeze0 v) (the_model w)) as [m' [o|e]];
    cbn [fst snd the_model grad_enabled]; [|reflexivity].
  destruct (unpack2 o) as [q|e]; cbn [fst snd the_model grad_enabled]; reflexivity.
Qed.

(** *** What a propagation leaves behind *)

Section Keeps.
Variable Inv : M -> Prop.
Hypothesis run_keeps : forall a b c m, Inv m -> Inv (fst (run a b c m)).

(** Whatever the calls of the model preserve, the loop preserves, however
    it ends; and the grad mode is put back after every step. *)
Lemma propagate_steps_keeps (p : tensor) (ts : list nat) :
  forall r i acc w,
    Inv (the_model w) ->
    Inv (the_model (fst (OnObject.propagate_steps p ts r i acc w))) /\
    grad_enabled (fst (OnObject.propagate_steps p ts r i acc w)) = grad_enabled w.
Proof.
  induction ts as [|t ts IH]; intros r i acc w Hw.
  - cbn. auto.
  - rewrite propagate_steps_cons.
    destruct (select0 p t) as [v|e]; [|auto]. cbv zeta.
    pose proof (run_keeps r i (unsqueeze0 v) (the_model w) Hw) as Hr.
    destruct (run r i (unsqueeze0 v) (the_model w)) as [m' [o|e]];
      cbn [fst snd the_model grad_enabled] in *; [|auto].
    destruct (unpack2 o) as [q|e]; cbn [fst snd the_model grad_enabled]; [|auto].
    apply (IH (fst q) (snd q) (acc ++ [(fst q, snd q)])
             (mk_interp m' (grad_enabled w)) Hr).
Qed.

Lemma propagate_wavefunction_keeps (r i p : tensor) (N : nat) (w : interp M) :
  Inv (eval (the_model w)) ->
  Inv (the_model (fst (OnObject.propagate_wavefunction r i p N w))) /\
  grad_enabled (fst (OnObject.propagate_wavefunction r i p N w)) = grad_enabled w.
Proof.
  intros H. unfold OnObject.propagate_wavefunction, bind_prog, OnObject.model_eval.
  cbn [fst snd].
  apply (propagate_steps_keeps p (seq 0 N) r i []
           (mk_interp (eval (the_model w)) (grad_enabled w)) H).
Qed.
End Keeps.

(** When a call leaves the object as it was, the statements run on the
    objects return what [propagate_wavefunction] returns. *)
Hypothesis run_same : forall a b c m, run a b c m = (m, call m a b c).

Lemma propagate_steps_refines (p : tensor) (ts : list nat) :
  forall r i acc (m : M) (g : bool),
    OnObject.propagate_steps p ts r i acc (mk_interp m g) =
      (mk_interp m g, propagate_steps m p ts r i acc).
Proof.
  induction ts as [|t ts IH]; intros r i acc m g.
  - reflexivity.
  - rewrite propagate_steps_cons. cbn [propagate_steps the_model grad_enabled].
    destruct (select0 p t) as [v|e]; cbn [bind]; [|reflexivity]. cbv zeta.
    rewrite run_same. cbn [fst snd].
    destruct (call m r i (unsqueeze0 v)) as [o|e]; cbn [bind]; [|reflexivity].
    destruct (unpack2 o) as [q|e]; cbn [bind]; [|reflexivity].
    rewrite IH. destruct q as [qr qi]. reflexivity.
Qed.

Lemma propagate_wavefunction_refines (r i p : tensor) (N : nat) (m : M) (g : bool) :
  OnObject.propagate_wavefunction r i p N (mk_interp m g) =
    (mk_interp (eval m) g, snd (propagate_wavefunction m r i p N)).
Proof.
  unfold OnObject.propagate_wavefunction, propagate_wavefunction.
  unfold bind_prog at 1. unfold OnObject.model_eval at 1.
  cbn [fst snd the_model grad_enabled]. apply propagate_steps_refines.
Qed.
End ObjectPropagator.

Lemma run_keeps_of_same {M : Type} {MM : Module M} {MO : ModuleObject M}
    (Inv : M -> Prop) :
  (forall a b c m, run a b c m = (m, call m a b c)) ->
  forall a b c m, Inv m -> Inv (fst (run a b c m)).
Proof. intros H a b c m Hm. now rewrite H. Qed.

Section ObjectTrainer.
Context {E : TransformerEncoder}.
Variable optimizer : Type.
Variable update : Model1.QuantumTransformer -> optimizer -> tensor -> tensor ->
                  Model1.QuantumTransformer * optimizer.
Variable randperm : nat -> nat -> list nat.

(** *** The training loop on the objects returns what [training_loop] returns *)

Lemma train_step_refines (l : DataLoader) (idxs : list nat)
    (st : train_state optimizer) :
  OnObject.train_step update l idxs st =
    match train_step update l st idxs with
    | Ok st' => (st', Ok tt)
    | Raise e => (st, Raise e)
    end.
Proof.
  unfold OnObject.train_step, train_step. run_prog.
  destruct (fetch l idxs) as [b|]; cbn [fst snd bind]; [|reflexivity].
  destruct (select_last (fst b) 0) as [re|]; cbn [fst snd bind]; [|reflexivity].
  destruct (select_last (fst b) 1) as [im|]; cbn [fst snd bind]; [|reflexivity].
  destruct (select_last (fst b) 2) as [pot|]; cbn [fst snd bind]; [|reflexivity].
  unfold OnObject.on_model. rewrite forward1_run. cbn [fst snd].
  destruct st as [m o t]. cbn [st_model st_optimizer st_total_loss].
  destruct (Model1.forward m re im pot) as [out|]; cbn [fst snd bind]; [|reflexivity].
  destruct (mse_loss out (snd b)) as [loss|]; cbn [fst snd bind]; reflexivity.
Qed.

Lemma train_batches_refines (l : DataLoader) (batches : list (list nat)) :
  forall st : train_state optimizer,
    match train_batches update l st batches with
    | Ok st' => OnObject.train_batches update l batches st = (st', Ok tt)
    | Raise e => snd (OnObject.train_batches update l batches st) = Raise e
    end.
Proof.
  induction batches as [|idxs rest IH]; intros st.
  - reflexivity.
  - cbn [train_batches OnObject.train_batches]. unfold bind_prog.
    rewrite train_step_refines.
    destruct (train_step update l st idxs) as [st'|e]; cbn [fst snd bind];
      [|reflexivity].
    apply IH.
Qed.

Lemma train_epoch_unfold (l : DataLoader) (e : nat) (st : train_state optimizer) :
  OnObject.train_epoch update randperm l e st =
    let r := OnObject.train_batches update l
               (batch_indices l (randperm e (dataset_len (loader_dataset l))))
               (mk_state (train (st_model st)) (st_optimizer st) 0%R) in
    match snd r with
    | Ok _ => (fst r, py_div (st_total_loss (fst r)) (loader_len l))
    | Raise x => (fst r, Raise x)
    end.
Proof.
  unfold OnObject.train_epoch, bind_prog, OnObject.start_epoch, attr, lift.
  cbn [fst snd].
  destruct (OnObject.train_batches update l _ _) as [s [[]|x]]; cbn [fst snd];
    [|reflexivity].
  destruct (py_div _ _); reflexivity.
Qed.

Lemma train_epoch_refines (l : DataLoader) (e : nat)
    (m : Model1.QuantumTransformer) (o : optimizer) (t : R) :
  match train_epoch update randperm l m o e with
  | Ok r =>
      exists t', OnObject.train_epoch update randperm l e (mk_state m o t) =
                   (mk_state (fst (fst r)) (snd (fst r)) t', Ok (snd r))
  | Raise x =>
      snd (OnObject.train_epoch update randperm l e (mk_state m o t)) = Raise x
  end.
Proof.
  rewrite train_epoch_unfold. unfold train_epoch.
  cbn [st_model st_optimizer]. cbv zeta.
  pose proof (train_batches_refines l
                (batch_indices l (randperm e (dataset_len (loader_dataset l))))
                (mk_state (train m) o 0%R)) as H.
  destruct (train_batches update l (mk_state (train m) o 0)
              (batch_indices l (randperm e (dataset_len (loader_dataset l)))))
    as [st'|x]; cbn [bind].
  - rewrite H. cbn [fst snd].
    destruct (py_div (st_total_loss st') (loader_len l)) as [mean|x]; cbn [bind fst snd].
    + exists (st_total_loss st'). destruct st'; reflexivity.
    + reflexivity.
  - destruct (OnObject.train_batches update l _ _) as [s r]. cbn [fst snd] in *.
    now rewrite H.
Qed.

Lemma train_epochs_refines (l : DataLoader) (epochs : list nat) :
  forall (m : Model1.QuantumTransformer) (o : optimizer) (t : R) (printed : list R),
    match train_epochs update randperm l m o epochs printed with
    | Ok r =>
        exists t', OnObject.train_epochs update randperm l epochs printed
                     (mk_state m o t) =
                   (mk_state (fst (fst r)) (snd (fst r)) t', Ok (snd r))
    | Raise x =>
        snd (OnObject.train_epochs update randperm l epochs printed (mk_state m o t))
          = Raise x
    end.
Proof.
  induction epochs as [|e rest IH]; intros m o t printed.
  - cbn. exists t. reflexivity.
  - cbn [train_epochs OnObject.train_epochs]. unfold bind_prog.
    pose proof (train_epoch_refines l e m o t) as H.
    destruct (train_epoch update randperm l m o e) as [[[m' o'] mean]|x]; cbn [bind].
    + destruct H as (t' & ->). cbn [fst snd]. apply IH.
    + destruct (OnObject.train_epoch update randperm l e _) as [s r].
      cbn [snd] in *. now rewrite H.
Qed.

Lemma training_loop_refines (l : DataLoader)
    (m : Model1.QuantumTransformer) (o : optimizer) (t : R) (num_epochs : nat) :
  training_loop update randperm l m o num_epochs =
    match OnObject.training_loop update randperm l num_epochs (mk_state m o t) with
    | (st, Ok printed) => Ok (st_model st, st_optimizer st, printed)
    | (_, Raise e) => Raise e
    end.
Proof.
  unfold training_loop, OnObject.training_loop.
  pose proof (train_epochs_refines l (seq 0 num_epochs) m o t []) as H.
  destruct (train_epochs update randperm l m o (seq 0 num_epochs) [])
    as [[[m' o'] pr]|x].
  - destruct H as (t' & ->). reflexivity.
  - destruct (OnObject.train_epochs update randperm l _ _ _) as [s r].
    cbn [snd] in H. now rewrite H.
Qed.

(** *** What the training loop writes *)

Section Keeps.
Variable P : @params Model1.QuantumTransformer _ -> Prop.
Hypothesis update_keeps : forall m o bx by_,
  P (parameters m) -> P (parameters (fst (update m o bx by_))).

Lemma train_step_keeps (l : DataLoader) (idxs : list nat)
    (st : train_state optimizer) :
  P (parameters (st_model st)) ->
  P (parameters (st_model (fst (OnObject.train_step update l idxs st)))).
Proof.
  intros H. rewrite train_step_refines.
  unfold train_step.
  destruct (fetch l idxs) as [b|]; cbn [fst snd bind]; [|exact H].
  destruct (select_last (fst b) 0) as [re|]; cbn [fst snd bind]; [|exact H].
  destruct (select_last (fst b) 1) as [im|]; cbn [fst snd bind]; [|exact H].
  destruct (select_last (fst b) 2) as [pot|]; cbn [fst snd bind]; [|exact H].
  destruct (Model1.forward (st_model st) re im pot) as [out|]; cbn [fst snd bind];
    [|exact H].
  destruct (mse_loss out (snd b)) as [loss|]; cbn [fst snd bind st_model]; [|exact H].
  now apply update_keeps.
Qed.

Lemma train_batches_keeps (l : DataLoader) (batches : list (list nat)) :
  forall st : train_state optimizer,
    P (parameters (st_model st)) ->
    P (parameters (st_model (fst (OnObject.train_batches update l batches st)))).
Proof.
  induction batches as [|idxs rest IH]; intros st H; [exact H|].
  cbn [OnObject.train_batches]. unfold bind_prog.
  pose proof (train_step_keeps l idxs st H) as Hs.
  destruct (OnObject.train_step update l idxs st) as [st' [[]|e]]; cbn [fst snd] in *.
  - now apply IH.
  - exact Hs.
Qed.

Lemma train_epoch_keeps (l : DataLoader) (e : nat) (st : train_state optimizer) :
  P (parameters (st_model st)) ->
  P (parameters (st_model (fst (OnObject.train_epoch update randperm l e st)))).
Proof.
  intros H. rewrite train_epoch_unfold. cbv zeta.
  pose proof (train_batches_keeps l
                (batch_indices l (randperm e (dataset_len (loader_dataset l))))
                (mk_state (train (st_model st)) (st_optimizer st) 0%R) H) as Hb.
  destruct (OnObject.train_batches update l _ _) as [st' [[]|x]]; exact Hb.
Qed.

Lemma train_epochs_keeps (l : DataLoader) (epochs : list nat) :
  forall (printed : list R) (st : train_state optimizer),
    P (parameters (st_model st)) ->
    P (parameters (st_model
         (fst (OnObject.train_epochs update randperm l epochs printed st)))).
Proof.
  induction epochs as [|e rest IH]; intros printed st H; [exact H|].
  cbn [OnObject.train_epochs]. unfold bind_prog.
  pose proof (train_epoch_keeps l e st H) as He.
  destruct (OnObject.train_epoch update randperm l e st) as [st' [mean|x]];
    cbn [fst snd] in *.
  - now apply IH.
  - exact He.
Qed.
End Keeps.
End ObjectTrainer.

(** C8. The parameters of a model are written by the trainer's update step
    and by nothing else.  The statements of [propagate_wavefunction] and of
    the training loop are run on the objects they share with their caller.
    A propagation, with a model of either class, whatever the inputs and
    whether it returns or raises, leaves every parameter of the model as it
    was: the model is left in evaluation mode, the grad mode is put back to
    what it was, and the run returns what [propagate_wavefunction] returns;
    in particular no prediction requires grad when it is converted with
    [numpy()], the calls of the model being made with the grad mode off.  A
    training run, however it ends, preserves every property of the
    parameters that the update step preserves, and it returns what
    [training_loop] returns. *)
Theorem parameters_written_by_update_only {E : TransformerEncoder}
    (optimizer : Type)
    (update : Model1.QuantumTransformer -> optimizer -> tensor -> tensor ->
              Model1.QuantumTransformer * optimizer)
    (randperm : nat -> nat -> list nat)
    (P : @params Model1.QuantumTransformer _ -> Prop)
    (m1 : Model1.QuantumTransformer) (m2 : Model2.QuantumTransformer)
    (grad : bool) (r i p : tensor) (N : nat)
    (l : DataLoader) (o : optimizer) (total_loss : R) (num_epochs : nat) :
  (forall m o bx by_, P (parameters m) -> P (parameters (fst (update m o bx by_)))) ->
  P (parameters m1) ->
  (let after := OnObject.propagate_wavefunction r i p N (mk_interp m1 grad) in
   parameters (the_model (fst after)) = parameters m1 /\
   is_training (the_model (fst after)) = false /\
   grad_enabled (fst after) = grad /\
   snd after = snd (propagate_wavefunction m1 r i p N)) /\
  (let after := OnObject.propagate_wavefunction r i p N (mk_interp m2 grad) in
   parameters (the_model (fst after)) = parameters m2 /\
   is_training (the_model (fst after)) = false /\
   grad_enabled (fst after) = grad /\
   snd after = snd (propagate_wavefunction m2 r i p N)) /\
  (let after := OnObject.training_loop update randperm l num_epochs
                  (mk_state m1 o total_loss) in
   P (parameters (st_model (fst after))) /\
   training_loop update randperm l m1 o num_epochs =
     match after with
     | (st, Ok printed) => Ok (st_model st, st_optimizer st, printed)
     | (_, Raise e) => Raise e
     end).
Proof.
  intros Hupd HP. cbv zeta. split; [|split].
  - destruct (propagate_wavefunction_keeps
                (fun m => parameters m = parameters m1 /\ is_training m = false)
                (run_keeps_of_same _ run1) r i p N (mk_interp m1 grad))
      as ((Hp & Ht) & Hg); [split; reflexivity|].
    repeat split; try assumption.
    now rewrite (propagate_wavefunction_refines run1).
  - destruct (propagate_wavefunction_keeps
                (fun m => parameters m = parameters m2 /\ is_training m = false)
                (run_keeps_of_same _ run2) r i p N (mk_interp m2 grad))
      as ((Hp & Ht) & Hg); [split; reflexivity|].
    repeat split; try assumption.
    now rewrite (propagate_wavefunction_refines run2).
  - split.
    + apply (train_epochs_keeps optimizer update randperm P Hupd). exact HP.
    + apply training_loop_refines.
Qed.

Lemma parameters_written_by_update_only_witness :
  (let after := OnObject.propagate_wavefunction
                  (field_11 [1]%R) (field_11 [0]%R) (mk_tensor [1; 1; 1] [0]%R) 1
                  (mk_interp example_model1_fresh true) in
   parameters (the_model (fst after)) = parameters example_model1_fresh /\
   is_training (the_model (fst after)) = false /\
   grad_enabled (fst after) = true /\
   snd after = snd (propagate_wavefunction example_model1_fresh
                      (field_11 [1]%R) (field_11 [0]%R) (mk_tensor [1; 1; 1] [0]%R) 1)) /\
  (let after := OnObject.propagate_wavefunction
                  (field_11 [1]%R) (field_11 [0]%R) (mk_tensor [1; 1; 1] [0]%R) 1
                  (mk_interp example_model2_init true) in
   parameters (the_model (fst after)) = parameters example_model2_init /\
   is_training (the_model (fst after)) = false /\
   grad_enabled (fst after) = true /\
   snd after = snd (propagate_wavefunction example_model2_init
                      (field_11 [1]%R) (field_11 [0]%R) (mk_tensor [1; 1; 1] [0]%R) 1)) /\
  (let after := OnObject.training_loop example_update example_randperm example_loader 3
                  (mk_state example_model1_fresh 0 0%R) in
   has_table (mk_tensor [1; 1; 2] [0; 1]%R) (parameters (st_model (fst after))) /\
   training_loop example_update example_randperm example_loader
       example_model1_fresh 0 3 =
     match after with
     | (st, Ok printed) => Ok (st_model st, st_optimizer st, printed)
     | (_, Raise e) => Raise e
     end).
Proof.
  apply (parameters_written_by_update_only (E := Torch.encoder) nat example_update
           example_randperm (has_table (mk_tensor [1; 1; 2] [0; 1]%R))
           example_model1_fresh example_model2_init true
           (field_11 [1]%R) (field_11 [0]%R) (mk_tensor [1; 1; 1] [0]%R) 1
           example_loader 0 0%R 3).
  - intros m o bx by_ H. exact H.
  - reflexivity.
Defined.

(** ** The cells that prepare and run the propagation *)

Lemma nth_flat_map_seq_bounded {B : Type} (f : nat -> list B) (k : nat) (d : B) :
  forall n s i j,
    (forall r, s <= r < s + n -> length (f r) = k) ->
    i < n -> j < k ->
    nth (i * k + j) (flat_map f (seq s n)) d = nth j (f (s + i)) d.
Proof.
  induction n as [|n IH]; intros s i j Hlen Hi Hj; [lia|].
  simpl. destruct i as [|i].
  - simpl. rewrite app_nth1 by (rewrite Hlen; lia).
    now rewrite Nat.add_0_r.
  - rewrite app_nth2 by (rewrite Hlen by lia; simpl; lia).
    rewrite Hlen by lia. replace (S i * k + j - k) with (i * k + j) by (simpl; lia).
    rewrite IH by (try lia; intros; apply Hlen; lia). f_equal. f_equal. lia.
Qed.

Lemma slice_bounds_len (w a : nat) (stop : option nat) :
  fst (slice_bounds w a stop) + snd (slice_bounds w a stop) <= w.
Proof. unfold slice_bounds. destruct stop; simpl; lia. Qed.

(** A slice of a vector. *)
Lemma slice_axis_vector (t : tensor) (w a : nat) (stop : option nat) :
  shape t = [w] ->
  slice_axis 0 t a stop =
    Ok (mk_tensor [snd (slice_bounds w a stop)]
          (firstn (snd (slice_bounds w a stop))
             (skipn (fst (slice_bounds w a stop)) (data t)))).
Proof.
  intros Hs. unfold slice_axis. rewrite Hs. cbn [skipn firstn numel fold_right seq flat_map app].
  now rewrite !Nat.mul_1_r, app_nil_r.
Qed.

(** A slice of the columns of a matrix. *)
Lemma slice_axis_columns (t : tensor) (S w a : nat) (stop : option nat) :
  shape t = [S; w] ->
  slice_axis 1 t a stop =
    Ok (mk_tensor [S; snd (slice_bounds w a stop)]
          (flat_map (fun r => firstn (snd (slice_bounds w a stop))
                                (skipn (r * w + fst (slice_bounds w a stop)) (data t)))
             (seq 0 S))).
Proof.
  intros Hs. unfold slice_axis. rewrite Hs. cbn [skipn firstn numel fold_right app].
  replace (S * 1) with S by lia. do 2 f_equal.
  apply flat_map_ext_seq. intros r _. now rewrite !Nat.mul_1_r.
Qed.

Lemma third_le (W : nat) : 2 * (W / 3) <= W /\ W / 3 <= W.
Proof. pose proof (Nat.Div0.mul_div_le W 3). lia. Qed.

Lemma row_index_lt (t c S W : nat) : t < S -> c < W -> t * W + c < S * W.
Proof. intros. now apply token_index_lt. Qed.

Lemma dvr_pair_ok (Y : tensor) (n' S' W' G i : nat) :
  shape Y = [n'; S'; W'] -> 0 < n' -> i < S' ->
  exists q, dvr_pair Y G i = Ok q.
Proof.
  intros HY Hn Hi. unfold dvr_pair, trajectory_idx.
  destruct (select0_shape Y n' [S'; W'] 0 HY Hn) as (traj & -> & Ht). cbn [bind].
  destruct (select0_shape traj S' [W'] i Ht Hi) as (step & -> & Hs). cbn [bind].
  rewrite !(slice_axis_vector step W') by exact Hs. cbn [bind]. eauto.
Qed.

Lemma prepare_propagation_ok (f : store_file) (n S W n' S' W' : nat) :
  shape (dataset_X f) = [n; S; W] -> wf (dataset_X f) -> 0 < n -> 0 < S ->
  shape (dataset_y f) = [n'; S'; W'] -> 0 < n' -> S <= S' ->
  exists p,
    prepare_propagation f = Ok p /\
    prep_sequence_length p = S /\ prep_n_grid p = W / 3 /\
    shape (prep_psi_real p) = [1; W / 3] /\
    shape (prep_psi_imag p) = [1; W / 3] /\
    shape (prep_potential p) = [S; W - 2 * (W / 3)] /\
    length (prep_dvr_wave p) = S /\
    (forall g, g < W / 3 ->
       get (prep_psi_real p) [0; g] = get (dataset_X f) [0; 0; g] /\
       get (prep_psi_imag p) [0; g] = get (dataset_X f) [0; 0; W / 3 + g]) /\
    (forall t g, t < S -> g < W - 2 * (W / 3) ->
       get (prep_potential p) [t; g] = get (dataset_X f) [0; t; 2 * (W / 3) + g]).
Proof.
  intros HX HwX Hn HS HY Hn' HS'.
  destruct (third_le W) as [H2G HG]. set (G := W / 3) in *.
  unfold prepare_propagation, trajectory_idx. rewrite HX. fold G.
  destruct (select0_ok (dataset_X f) n [S; W] 0 HX HwX Hn)
    as (traj & -> & Ht & Hwt & Hdt). cbn [bind].
  destruct (select0_ok traj S [W] 0 Ht Hwt HS) as (step0 & -> & Hs0 & Hw0 & Hd0).
  cbn [bind].
  rewrite !(slice_axis_vector step0 W) by exact Hs0. cbn [bind].
  rewrite (slice_axis_columns traj S W) by exact Ht. cbn [bind].
  destruct (mapM_ok (dvr_pair (dataset_y f) G) (fun _ => True) (seq 0 S))
    as (dvr & -> & _ & Hld).
  { apply Forall_forall. intros i Hi. apply in_seq in Hi.
    destruct (dvr_pair_ok (dataset_y f) n' S' W' G i HY Hn') as (q & Hq); [lia|].
    eauto. }
  cbn [bind]. eexists; split; [reflexivity|].
  cbn [prep_sequence_length prep_n_grid prep_psi_real prep_psi_imag prep_potential
       prep_dvr_wave unsqueeze0 shape data].
  assert (B1 : slice_bounds W 0 (Some G) = (0, G))
    by (unfold slice_bounds; f_equal; lia).
  assert (B2 : slice_bounds W G (Some (2 * G)) = (G, G))
    by (unfold slice_bounds; f_equal; lia).
  assert (B3 : slice_bounds W (2 * G) None = (2 * G, W - 2 * G))
    by (unfold slice_bounds; f_equal; lia).
  rewrite B1, B2, B3. cbn [fst snd].
  rewrite length_seq in Hld.
  unfold wf in Hwt. rewrite Ht in Hwt. cbn [numel fold_right] in Hwt, Hdt, Hd0.
  rewrite Nat.mul_1_r in Hwt, Hdt, Hd0. cbn [Nat.mul Nat.add skipn] in Hdt, Hd0.
  repeat split; auto.
  - unfold get, unsqueeze0. cbn [shape data ravel numel fold_right].
    rewrite HX. cbn [ravel numel fold_right].
    replace (0 * (G * 1) + (g * 1 + 0)) with g by lia.
    replace (0 * (S * (W * 1)) + (0 * (W * 1) + (g * 1 + 0))) with (0 + g) by lia.
    rewrite (nth_chunk (data step0) 0 G g) by assumption. cbn [Nat.add].
    rewrite Hd0, nth_firstn.
    replace (g <? W) with true by (symmetry; apply Nat.ltb_lt; lia).
    rewrite Hdt, nth_firstn.
    replace (g <? S * W) with true
      by (symmetry; apply Nat.ltb_lt; pose proof (row_index_lt 0 g S W); lia).
    reflexivity.
  - unfold get, unsqueeze0. cbn [shape data ravel numel fold_right].
    rewrite HX. cbn [ravel numel fold_right].
    replace (0 * (G * 1) + (g * 1 + 0)) with g by lia.
    replace (0 * (S * (W * 1)) + (0 * (W * 1) + ((G + g) * 1 + 0))) with (G + g) by lia.
    rewrite (nth_chunk (data step0) G G g) by assumption.
    rewrite Hd0, nth_firstn.
    replace (G + g <? W) with true by (symmetry; apply Nat.ltb_lt; lia).
    rewrite Hdt, nth_firstn.
    replace (G + g <? S * W) with true
      by (symmetry; apply Nat.ltb_lt; pose proof (row_index_lt 0 (G + g) S W); lia).
    reflexivity.
  - intros t g Ht' Hg. unfold get, unsqueeze0. cbn [shape data ravel numel fold_right].
    rewrite HX. cbn [ravel numel fold_right].
    replace (t * ((W - 2 * G) * 1) + (g * 1 + 0)) with (t * (W - 2 * G) + g) by lia.
    replace (0 * (S * (W * 1)) + (t * (W * 1) + ((2 * G + g) * 1 + 0)))
      with (t * W + 2 * G + g) by lia.
    assert (Hlt : forall r, r < S -> r * W + W <= S * W).
    { intros r Hr. replace (r * W + W) with ((r + 1) * W) by lia.
      apply Nat.mul_le_mono_r. lia. }
    rewrite (nth_flat_map_seq_bounded _ (W - 2 * G)); try assumption.
    + cbn [Nat.add]. rewrite nth_chunk by assumption.
      rewrite Hdt, nth_firstn.
      replace (t * W + 2 * G + g <? S * W) with true
        by (symmetry; apply Nat.ltb_lt; specialize (Hlt t Ht'); lia).
      reflexivity.
    + intros r Hr. rewrite length_firstn, length_skipn, Hwt.
      specialize (Hlt r ltac:(lia)). lia.
Qed.


Lemma mapM_nth_error {A B : Type} (f : A -> result B) :
  forall (l : list A) (bs : list B),
    mapM f l = Ok bs ->
    forall i a, nth_error l i = Some a ->
      exists b, nth_error bs i = Some b /\ f a = Ok b.
Proof.
  induction l as [|x l IH]; intros bs Hm i a Hi.
  - destruct i; discriminate.
  - cbn [mapM] in Hm. destruct (f x) as [b|e] eqn:Hx; [|discriminate].
    cbn [bind] in Hm. destruct (mapM f l) as [bs'|e] eqn:Hl; [|discriminate].
    cbn [bind] in Hm. injection Hm as <-.
    destruct i as [|i].
    + injection Hi as <-. exists b. auto.
    + exact (IH bs' eq_refl i a Hi).
Qed.

(** The reference pair of time step [i]: the first [G] columns of row [i] of
    the first trajectory of [dataset_y], and the columns after them. *)
Lemma dvr_pair_spec (Y : tensor) (n' S' W' G i : nat) :
  shape Y = [n'; S'; W'] -> wf Y -> 0 < n' -> i < S' -> G <= W' ->
  exists re im,
    dvr_pair Y G i = Ok (re, im) /\
    shape re = [G] /\ shape im = [W' - G] /\
    (forall g, g < G -> get re [g] = get Y [0; i; g]) /\
    (forall g, g < W' - G -> get im [g] = get Y [0; i; G + g]).
Proof.
  intros HY HwY Hn Hi HG. unfold dvr_pair, trajectory_idx.
  destruct (select0_ok Y n' [S'; W'] 0 HY HwY Hn) as (traj & -> & Ht & Hwt & Hdt).
  cbn [bind].
  destruct (select0_ok traj S' [W'] i Ht Hwt Hi) as (step & -> & Hs & Hws & Hds).
  cbn [bind].
  rewrite !(slice_axis_vector step W') by exact Hs. cbn [bind].
  assert (B1 : slice_bounds W' 0 (Some G) = (0, G))
    by (unfold slice_bounds; f_equal; lia).
  assert (B2 : slice_bounds W' G None = (G, W' - G))
    by (unfold slice_bounds; f_equal; lia).
  rewrite B1, B2. cbn [fst snd].
  eexists. eexists. split; [reflexivity|]. split; [reflexivity|]. split; [reflexivity|].
  cbn [numel fold_right] in Hdt, Hds. rewrite Nat.mul_1_r in Hdt, Hds.
  cbn [Nat.mul Nat.add skipn] in Hdt.
  assert (Hrow : i * W' + W' <= S' * W').
  { replace (i * W' + W') with ((i + 1) * W') by lia.
    apply Nat.mul_le_mono_r. lia. }
  assert (Hentry : forall c, c < W' ->
            nth c (data step) 0%R = get Y [0; i; c]).
  { intros c Hc. rewrite Hds, nth_chunk by assumption.
    rewrite Hdt, nth_firstn.
    replace (i * W' + c <? S' * W') with true by (symmetry; apply Nat.ltb_lt; lia).
    unfold get. rewrite HY. f_equal. simpl. lia. }
  split.
  - intros g Hg. unfold get at 1. cbn [shape data ravel numel fold_right].
    replace (g * 1 + 0) with g by lia.
    rewrite (nth_chunk (data step) 0 G g) by assumption. apply Hentry. lia.
  - intros g Hg. unfold get at 1. cbn [shape data ravel numel fold_right].
    replace (g * 1 + 0) with g by lia.
    rewrite (nth_chunk (data step) G (W' - G) g) by assumption. apply Hentry. lia.
Qed.

Lemma prepare_propagation_dvr (f : store_file) (n S W : nat) (p : prepared) :
  shape (dataset_X f) = [n; S; W] ->
  prepare_propagation f = Ok p ->
  mapM (dvr_pair (dataset_y f) (W / 3)) (seq 0 S) = Ok (prep_dvr_wave p).
Proof.
  intros HX. unfold prepare_propagation. rewrite HX.
  destruct (select0 (dataset_X f) trajectory_idx) as [traj|]; [|discriminate].
  cbn [bind]. destruct (select0 traj 0) as [step0|]; [|discriminate].
  cbn [bind]. destruct (slice_axis 0 step0 0 _) as [re|]; [|discriminate].
  cbn [bind]. destruct (slice_axis 0 step0 _ _) as [im|]; [|discriminate].
  cbn [bind]. destruct (slice_axis 1 traj _ _) as [pot|]; [|discriminate].
  cbn [bind]. destruct (mapM _ _) as [dvr|]; [|discriminate].
  cbn [bind]. intros H. injection H as <-. reflexivity.
Qed.

(** X13. Cells 9 and 10 on a store whose [dataset_X] has shape (n, S, W) and
    whose [dataset_y] has shape (n', S', W'), with at least one trajectory
    and one time step in each, [S <= S'] and [W / 3 <= W']: with
    [G = W // 3], the initial fields are columns [0, G) and [G, 2G) of time
    step 0 of trajectory 0, the potential is columns [2G, W) of all its time
    steps (wider than [G] when 3 does not divide [W]), and the reference
    pairs are columns [0, G) and [G, W') of [dataset_y]. *)
Theorem prepare_propagation_spec (f : store_file) (n S W n' S' W' : nat) :
  shape (dataset_X f) = [n; S; W] -> wf (dataset_X f) -> 0 < n -> 0 < S ->
  shape (dataset_y f) = [n'; S'; W'] -> wf (dataset_y f) -> 0 < n' ->
  S <= S' -> W / 3 <= W' ->
  exists p,
    prepare_propagation f = Ok p /\
    prep_sequence_length p = S /\ prep_n_grid p = W / 3 /\
    shape (prep_psi_real p) = [1; W / 3] /\
    shape (prep_psi_imag p) = [1; W / 3] /\
    shape (prep_potential p) = [S; W - 2 * (W / 3)] /\
    length (prep_dvr_wave p) = S /\
    (forall g, g < W / 3 ->
       get (prep_psi_real p) [0; g] = get (dataset_X f) [0; 0; g] /\
       get (prep_psi_imag p) [0; g] = get (dataset_X f) [0; 0; W / 3 + g]) /\
    (forall t g, t < S -> g < W - 2 * (W / 3) ->
       get (prep_potential p) [t; g] = get (dataset_X f) [0; t; 2 * (W / 3) + g]) /\
    (forall i, i < S ->
       exists re im,
         nth_error (prep_dvr_wave p) i = Some (re, im) /\
         shape re = [W / 3] /\ shape im = [W' - W / 3] /\
         (forall g, g < W / 3 -> get re [g] = get (dataset_y f) [0; i; g]) /\
         (forall g, g < W' - W / 3 ->
            get im [g] = get (dataset_y f) [0; i; W / 3 + g])).
Proof.
  intros HX HwX Hn HS HY HwY Hn' HS' HG.
  destruct (prepare_propagation_ok f n S W n' S' W' HX HwX Hn HS HY Hn' HS')
    as (p & Hp & H1 & H2 & H3 & H4 & H5 & H6 & H7 & H8).
  exists p. repeat (split; [assumption|]).
  intros i Hi.
  pose proof (prepare_propagation_dvr f n S W p HX Hp) as Hm.
  destruct (mapM_nth_error _ _ _ Hm i i) as (q & Hq & Hd).
  { rewrite nth_error_nth' with (d := 0) by (rewrite length_seq; lia).
    now rewrite seq_nth. }
  destruct (dvr_pair_spec (dataset_y f) n' S' W' (W / 3) i HY HwY Hn')
    as (re & im & Hri & Hrest); [lia | exact HG |].
  exists re, im. split; [|exact Hrest]. congruence.
Qed.

Lemma prepare_propagation_spec_witness :
  exists p,
    prepare_propagation example_store_blocks = Ok p /\
    prep_sequence_length p = 2 /\ prep_n_grid p = 6 / 3 /\
    shape (prep_psi_real p) = [1; 6 / 3] /\
    shape (prep_psi_imag p) = [1; 6 / 3] /\
    shape (prep_potential p) = [2; 6 - 2 * (6 / 3)] /\
    length (prep_dvr_wave p) = 2 /\
    (forall g, g < 6 / 3 ->
       get (prep_psi_real p) [0; g] = get (dataset_X example_store_blocks) [0; 0; g] /\
       get (prep_psi_imag p) [0; g] =
         get (dataset_X example_store_blocks) [0; 0; 6 / 3 + g]) /\
    (forall t g, t < 2 -> g < 6 - 2 * (6 / 3) ->
       get (prep_potential p) [t; g] =
         get (dataset_X example_store_blocks) [0; t; 2 * (6 / 3) + g]) /\
    (forall i, i < 2 ->
       exists re im,
         nth_error (prep_dvr_wave p) i = Some (re, im) /\
         shape re = [6 / 3] /\ shape im = [4 - 6 / 3] /\
         (forall g, g < 6 / 3 -> get re [g] = get (dataset_y example_store_blocks) [0; i; g]) /\
         (forall g, g < 4 - 6 / 3 ->
            get im [g] = get (dataset_y example_store_blocks) [0; i; 6 / 3 + g])).
Proof.
  apply (prepare_propagation_spec example_store_blocks 1 2 6 1 2 4);
    try reflexivity; simpl; lia.
Defined.

Section CellPipelines.
Context {E : TransformerEncoder}.

Lemma forward2_shape_mismatch (m : Model2.QuantumTransformer) (a b c : tensor)
    (B T G : nat) :
  shape a = [B; T; G] ->
  shape a <> shape b \/ shape a <> shape c ->
  Model2.forward m a b c = Raise RuntimeError_stack.
Proof.
  intros Ha H. unfold Model2.forward. rewrite Ha.
  rewrite stack_last_raise by exact H. reflexivity.
Qed.

(** X15. Cells 9, 10 and 13 never produce a list: the fields cut out of the store
    have rank 2. *)
Theorem cells_9_10_13_raise
    (m1 : Model1.QuantumTransformer) (m2 : Model2.QuantumTransformer)
    (f : store_file) (n S W n' S' W' : nat) :
  shape (dataset_X f) = [n; S; W] -> wf (dataset_X f) -> 0 < n -> 0 < S ->
  shape (dataset_y f) = [n'; S'; W'] -> 0 < n' -> S <= S' ->
  cells_9_10_13 m1 f =
    Raise (if W mod 3 =? 0 then ValueError_unpack 4 3 else RuntimeError_stack) /\
  cells_9_10_13 m2 f = Raise (ValueError_unpack 3 2).
Proof.
  intros HX HwX Hn HS HY Hn' HS'.
  destruct (prepare_propagation_ok f n S W n' S' W' HX HwX Hn HS HY Hn' HS')
    as (p & Hp & HN & _ & Hr & Hi & Hpot & _).
  unfold cells_9_10_13, run_propagation. rewrite Hp. cbn [bind]. rewrite HN.
  destruct (select0_shape _ S [W - 2 * (W / 3)] 0 Hpot HS) as (v & Hv & Hsv).
  split.
  - apply (propagate_first_call_raises m1 _ _ _ v S _ HS Hv).
    cbn [call Model1.QuantumTransformer_Module].
    destruct (W mod 3 =? 0) eqn:E3.
    + apply Nat.eqb_eq in E3.
      assert (HW : W - 2 * (W / 3) = W / 3)
        by (pose proof (Nat.div_mod_eq W 3); lia).
      rewrite (forward1_rank2 _ _ _ _ 1 (W / 3)); auto.
      unfold unsqueeze0. cbn [shape]. now rewrite Hsv, HW.
    + apply Nat.eqb_neq in E3.
      rewrite forward1_shape_mismatch; [reflexivity|]. right.
      unfold unsqueeze0. cbn [shape]. rewrite Hr, Hsv.
      intros Heq. assert (Hq : W / 3 = W - 2 * (W / 3)) by congruence.
      pose proof (Nat.div_mod_eq W 3). lia.
  - apply (propagate_first_call_raises m2 _ _ _ v S _ HS Hv).
    cbn [call Model2.QuantumTransformer_Module].
    rewrite (forward2_rank2 _ _ _ _ 1 (W / 3)); auto.
Qed.

Lemma add_axes_spec (p : prepared) (G S Gp : nat) :
  shape (prep_psi_real p) = [1; G] -> shape (prep_psi_imag p) = [1; G] ->
  shape (prep_potential p) = [S; Gp] ->
  exists q, add_axes p = Ok q /\
    shape (prep_psi_real q) = [1; 1; G] /\ shape (prep_psi_imag q) = [1; 1; G] /\
    shape (prep_potential q) = [1; S; Gp] /\
    prep_sequence_length q = prep_sequence_length p.
Proof.
  intros Hr Hi Hp. unfold add_axes, unsqueeze1. rewrite Hr, Hi. cbn [bind].
  eexists; split; [reflexivity|]. cbn. rewrite Hp. auto.
Qed.

(** X16. Cells 9, 10 and 11 on a trajectory of two or more time steps: the
    potential handed to the model at step 0 is the whole schedule, and
    [torch.stack] refuses it, with either model. *)
Theorem cells_9_10_11_raise
    (m1 : Model1.QuantumTransformer) (m2 : Model2.QuantumTransformer)
    (f : store_file) (n S W n' S' W' : nat) :
  shape (dataset_X f) = [n; S; W] -> wf (dataset_X f) -> 0 < n -> 2 <= S ->
  shape (dataset_y f) = [n'; S'; W'] -> 0 < n' -> S <= S' ->
  cells_9_10_11 m1 f = Raise RuntimeError_stack /\
  cells_9_10_11 m2 f = Raise RuntimeError_stack.
Proof.
  intros HX HwX Hn HS HY Hn' HS'.
  destruct (prepare_propagation_ok f n S W n' S' W' HX HwX Hn ltac:(lia) HY Hn' HS')
    as (p & Hp & HN & _ & Hr & Hi & Hpot & _).
  destruct (add_axes_spec p _ _ _ Hr Hi Hpot) as (q & Hq & Hr' & Hi' & Hp' & HN').
  unfold cells_9_10_11, run_propagation. rewrite Hp. cbn [bind].
  rewrite Hq. cbn [bind]. rewrite HN', HN.
  destruct (select0_shape _ 1 [S; W - 2 * (W / 3)] 0 Hp') as (v & Hv & Hsv); [lia|].
  assert (Hne : shape (prep_psi_real q) <> shape (unsqueeze0 v)).
  { unfold unsqueeze0. cbn [shape]. rewrite Hr', Hsv. intros Heq. injection Heq as Heq _. lia. }
  split.
  - apply (propagate_first_call_raises m1 _ _ _ v S _ ltac:(lia) Hv).
    cbn [call Model1.QuantumTransformer_Module].
    rewrite forward1_shape_mismatch; auto.
  - apply (propagate_first_call_raises m2 _ _ _ v S _ ltac:(lia) Hv).
    cbn [call Model2.QuantumTransformer_Module].
    rewrite (forward2_shape_mismatch _ _ _ _ 1 1 (W / 3)); auto.
Qed.
End CellPipelines.

Lemma cells_9_10_13_raise_witness :
  cells_9_10_13 example_model1 example_store_blocks =
    Raise (if 6 mod 3 =? 0 then ValueError_unpack 4 3 else RuntimeError_stack) /\
  cells_9_10_13 example_model2 example_store_blocks = Raise (ValueError_unpack 3 2).
Proof.
  apply (cells_9_10_13_raise (E := Torch.encoder) example_model1 example_model2
           example_store_blocks 1 2 6 1 2 4); try reflexivity; lia.
Defined.

Lemma cells_9_10_11_raise_witness :
  cells_9_10_11 example_model1 example_store_blocks = Raise RuntimeError_stack /\
  cells_9_10_11 example_model2 example_store_blocks = Raise RuntimeError_stack.
Proof.
  apply (cells_9_10_11_raise (E := Torch.encoder) example_model1 example_model2
           example_store_blocks 1 2 6 1 2 4); try reflexivity; lia.
Defined.

(** ** The dataset and the layout of the store *)

(** Entry (t, g, c) of a slice of a tensor with three trailing axes
    (T, G, C), read in a store whose last axis is G*C wide. *)
Lemma get_item_entry (dX : list R) (n T G C i t g c : nat) :
  i < n -> t < T -> g < G -> c < C ->
  nth (ravel [T; G; C] [t; g; c])
      (firstn (numel [T; G; C]) (skipn (i * numel [T; G; C]) dX)) 0%R =
  nth (ravel [n; T; C * G] [i; t; C * g + c]) dX 0%R.
Proof.
  intros Hi Ht Hg Hc.
  rewrite nth_chunk.
  - f_equal. simpl. ring.
  - pose proof (flat_index_lt t g c T G C Ht Hg Hc). simpl.
    replace (t * (G * (C * 1)) + (g * (C * 1) + (c * 1 + 0)))
      with ((t * G + g) * C + c) by ring.
    replace (T * (G * (C * 1))) with (T * (G * C)) by ring. exact H.
Qed.

Lemma dataset_item_entries (f : store_file) (n T G i : nat) :
  shape (dataset_X f) = [n; T; 3 * G] -> wf (dataset_X f) ->
  shape (dataset_y f) = [n; T; 2 * G] -> wf (dataset_y f) ->
  i < n ->
  exists d a b,
    QuantumWaveDataset_init f = Ok d /\
    dataset_getitem d (Z.of_nat i) = Ok (a, b) /\
    (forall t g c, t < T -> g < G -> c < 3 ->
       get a [t; g; c] = get (dataset_X f) [i; t; 3 * g + c]) /\
    (forall t g c, t < T -> g < G -> c < 2 ->
       get b [t; g; c] = get (dataset_y f) [i; t; 2 * g + c]) /\
    (forall c, c < 3 ->
       exists psi, select_last a c = Ok psi /\ shape psi = [T; G] /\
         forall t g, t < T -> g < G ->
           get psi [t; g] = get (dataset_X f) [i; t; 3 * g + c]).
Proof.
  intros HX HwX Hy Hwy Hi.
  rewrite (QuantumWaveDataset_init_ok f n T G HX HwX Hy Hwy).
  eexists. eexists. eexists. split; [reflexivity|].
  unfold dataset_getitem. cbn [X y].
  rewrite (getitem_nat _ n [T; G; 3]), (getitem_nat _ n [T; G; 2]) by auto.
  unfold select0. cbn [shape data]. rewrite (proj2 (Nat.ltb_lt _ _) Hi). cbn [bind].
  split; [reflexivity|].
  assert (Ha : forall t g c, t < T -> g < G -> c < 3 ->
            nth (ravel [T; G; 3] [t; g; c])
              (firstn (numel [T; G; 3]) (skipn (i * numel [T; G; 3]) (data (dataset_X f))))
              0%R = get (dataset_X f) [i; t; 3 * g + c]).
  { intros t g c Ht Hg Hc. unfold get. rewrite HX.
    now apply get_item_entry. }
  split; [|split].
  - intros t g c Ht Hg Hc. unfold get at 1. cbn [shape data]. now apply Ha.
  - intros t g c Ht Hg Hc. unfold get. cbn [shape data]. rewrite Hy.
    now apply get_item_entry.
  - intros c Hc. unfold select_last. cbn [shape rev app data].
    rewrite (proj2 (Nat.ltb_lt _ _) Hc).
    eexists; split; [reflexivity|]. split; [reflexivity|].
    intros t g Ht Hg. unfold get at 1. cbn [shape data].
    replace (ravel [T; G] [t; g]) with (t * G + g) by (simpl; ring).
    replace (numel [T; G]) with (T * G) by (simpl; ring).
    rewrite nth_tabulate by now apply token_index_lt.
    rewrite <- (Ha t g c Ht Hg Hc). f_equal. simpl. ring.
Qed.

(** X8. An item of the dataset is trajectory [i] with its last axis split into
    grid point and channel: entry (t, g, c) of the input is entry
    (i, t, 3g + c) of [dataset_X], and of the target entry (i, t, 2g + c) of
    [dataset_y].  So the training loop's [batch_x[..., c]] reads columns
    c, c + 3, c + 6, ... of the store. *)
Theorem dataset_item_layout (f : store_file) (n T G i : nat) :
  shape (dataset_X f) = [n; T; 3 * G] -> wf (dataset_X f) ->
  shape (dataset_y f) = [n; T; 2 * G] -> wf (dataset_y f) ->
  i < n ->
  exists d a b,
    QuantumWaveDataset_init f = Ok d /\
    dataset_getitem d (Z.of_nat i) = Ok (a, b) /\
    (forall t g c, t < T -> g < G -> c < 3 ->
       get a [t; g; c] = get (dataset_X f) [i; t; 3 * g + c]) /\
    (forall t g c, t < T -> g < G -> c < 2 ->
       get b [t; g; c] = get (dataset_y f) [i; t; 2 * g + c]) /\
    (forall c, c < 3 ->
       exists psi, select_last a c = Ok psi /\ shape psi = [T; G] /\
         forall t g, t < T -> g < G ->
           get psi [t; g] = get (dataset_X f) [i; t; 3 * g + c]).
Proof. apply dataset_item_entries. Qed.

Lemma view_raise (t : tensor) (s : list nat) :
  numel s <> length (data t) -> view t s = Raise RuntimeError_view.
Proof. intros H. unfold view. now rewrite (proj2 (Nat.eqb_neq _ _) H). Qed.

(** X9. A channel width that is not a multiple of 3, or a [dataset_y] with the
    wrong number of entries, is refused by [view]. *)
Theorem dataset_init_refuses (f : store_file) (n T W : nat) :
  shape (dataset_X f) = [n; T; W] -> wf (dataset_X f) ->
  0 < n -> 0 < T ->
  W mod 3 <> 0 \/ length (data (dataset_y f)) <> n * T * (W / 3) * 2 ->
  QuantumWaveDataset_init f = Raise RuntimeError_view.
Proof.
  intros HX HwX Hn HT Hbad. unfold QuantumWaveDataset_init. rewrite HX.
  unfold wf in HwX. rewrite HX in HwX. cbn [numel fold_right] in HwX.
  destruct (Nat.eq_dec (W mod 3) 0) as [H3|H3].
  - destruct Hbad as [Hbad|Hbad]; [contradiction|].
    rewrite view_ok.
    + cbn [bind]. rewrite view_raise; [reflexivity|].
      cbn [numel fold_right]. lia.
    + cbn [numel fold_right]. rewrite HwX.
      pose proof (Nat.div_mod_eq W 3). nia.
  - rewrite view_raise; [reflexivity|].
    cbn [numel fold_right]. rewrite HwX.
    pose proof (Nat.div_mod_eq W 3).
    assert (W / 3 * 3 < W) by lia.
    assert (0 < n * T) by nia.
    intros Heq.
    assert (n * T * (W / 3 * 3) = n * T * W) by lia.
    apply Nat.mul_cancel_l in H2; lia.
Qed.

(** A dataset whose tensors are not of rank 3 is refused when the shape is
    unpacked. *)
Lemma dataset_init_rank (f : store_file) :
  length (shape (dataset_X f)) <> 3 ->
  QuantumWaveDataset_init f =
    Raise (ValueError_unpack 3 (length (shape (dataset_X f)))).
Proof.
  intros H. unfold QuantumWaveDataset_init.
  destruct (shape (dataset_X f)) as [|a [|b [|c [|d s]]]]; simpl in *;
    try reflexivity; congruence.
Qed.

(** [__getitem__]: an index outside [-n, n) raises, and a negative index
    reads the item it denotes counted from the end. *)
Lemma dataset_getitem_bounds (d : QuantumWaveDataset) (n T G : nat) (idx : Z) :
  dataset_shaped d n T G ->
  ((idx < - Z.of_nat n \/ Z.of_nat n <= idx)%Z ->
     dataset_getitem d idx = Raise IndexError) /\
  ((- Z.of_nat n <= idx < 0)%Z ->
     dataset_getitem d idx = dataset_getitem d (idx + Z.of_nat n)).
Proof.
  intros (_ & HX & Hy). split.
  - intros Hout. unfold dataset_getitem.
    now rewrite (getitem_out_of_range _ n _ idx HX Hout).
  - intros Hneg. unfold dataset_getitem, getitem. rewrite HX, Hy.
    rewrite (proj2 (Z.leb_gt 0 idx)) by lia. cbn [andb].
    rewrite (proj2 (Z.leb_le (- Z.of_nat n) idx)) by lia.
    rewrite (proj2 (Z.ltb_lt idx 0)) by lia. cbn [andb].
    rewrite (proj2 (Z.leb_le 0 (idx + Z.of_nat n))) by lia.
    rewrite (proj2 (Z.ltb_lt (idx + Z.of_nat n) (Z.of_nat n))) by lia.
    reflexivity.
Qed.

Lemma dataset_item_layout_witness :
  exists d a b,
    QuantumWaveDataset_init example_store_blocks = Ok d /\
    dataset_getitem d (Z.of_nat 0) = Ok (a, b) /\
    (forall t g c, t < 2 -> g < 2 -> c < 3 ->
       get a [t; g; c] = get (dataset_X example_store_blocks) [0; t; 3 * g + c]) /\
    (forall t g c, t < 2 -> g < 2 -> c < 2 ->
       get b [t; g; c] = get (dataset_y example_store_blocks) [0; t; 2 * g + c]) /\
    (forall c, c < 3 ->
       exists psi, select_last a c = Ok psi /\ shape psi = [2; 2] /\
         forall t g, t < 2 -> g < 2 ->
           get psi [t; g] = get (dataset_X example_store_blocks) [0; t; 3 * g + c]).
Proof.
  apply (dataset_item_layout example_store_blocks 1 2 2 0); try reflexivity; lia.
Defined.

Lemma dataset_init_refuses_witness :
  QuantumWaveDataset_init
    (mk_store (mk_tensor [1; 1; 4] [1; 2; 3; 4]%R) (mk_tensor [1; 1; 2] [1; 2]%R))
  = Raise RuntimeError_view.
Proof.
  apply (dataset_init_refuses
           (mk_store (mk_tensor [1; 1; 4] [1; 2; 3; 4]%R) (mk_tensor [1; 1; 2] [1; 2]%R))
           1 1 4); try reflexivity; try lia.
  left. simpl. lia.
Defined.

(** ** The positional table and the number of tokens *)


Lemma slice1_shape (t : tensor) (L D n : nat) :
  shape t = [1; L; D] ->
  exists z, slice1 t n = Ok z /\ shape z = [1; Nat.min n L; D].
Proof.
  intros Hs. unfold slice1. rewrite Hs. eexists; split; reflexivity.
Qed.

Lemma broadcast_dim_none (x y : nat) :
  x <> y -> x <> 1 -> y <> 1 -> broadcast_dim x y = None.
Proof.
  intros H1 H2 H3. unfold broadcast_dim.
  now rewrite (proj2 (Nat.eqb_neq _ _) H1), (proj2 (Nat.eqb_neq _ _) H2),
    (proj2 (Nat.eqb_neq _ _) H3).
Qed.

Lemma tensor_add_rows_mismatch (x p : tensor) (B N L D : nat) :
  shape x = [B; N; D] -> shape p = [1; L; D] ->
  N <> L -> N <> 1 -> L <> 1 ->
  tensor_add x p = Raise RuntimeError_broadcast.
Proof.
  intros Hx Hp H1 H2 H3. unfold tensor_add, broadcast_map2, broadcast_shapes.
  rewrite Hx, Hp. cbn [rev app broadcast_rev].
  now rewrite broadcast_dim_same, (broadcast_dim_none N L).
Qed.

Lemma firstn_flat_map_seq {A : Type} (f : nat -> list A) (k : nat) :
  forall n L s,
    (forall r, s <= r < s + L -> length (f r) = k) ->
    n <= L ->
    firstn (n * k) (flat_map f (seq s L)) = flat_map f (seq s n).
Proof.
  induction n as [|n IH]; intros L s Hlen Hn.
  - reflexivity.
  - destruct L as [|L]; [lia|]. cbn [seq flat_map].
    replace (S n * k) with (length (f s) + n * k) by (rewrite Hlen; simpl; lia).
    rewrite firstn_app_2. f_equal.
    apply IH; [|lia]. intros r Hr. apply Hlen. lia.
Qed.

(** Tables of different lengths agree on the rows they share. *)
Lemma positional_table_slice (L1 L2 d n : nat) (t1 t2 : tensor) :
  positional_table L1 d = Ok t1 -> positional_table L2 d = Ok t2 ->
  n <= L1 -> n <= L2 ->
  slice1 t1 n = slice1 t2 n.
Proof.
  unfold positional_table. intros H1 H2 Hn1 Hn2.
  destruct (assign_cols_ok _ _); [|discriminate].
  destruct (assign_cols_ok _ _); [|discriminate].
  injection H1 as <-. injection H2 as <-.
  unfold slice1. cbn [shape data].
  rewrite !Nat.min_l by assumption.
  cbn [seq flat_map skipn Nat.mul numel fold_right].
  rewrite !app_nil_r, !Nat.mul_1_r. do 2 f_equal.
  rewrite !(firstn_flat_map_seq _ d); auto; intros; apply length_tabulate.
Qed.

Lemma create_positional_encoding_ok (L d : nat) :
  0 < d -> Nat.even d = true \/ d = 1 ->
  exists pe, create_positional_encoding L d = Ok pe.
Proof.
  intros Hd Hw. unfold create_positional_encoding.
  rewrite (proj2 (Nat.eqb_neq d 0)) by lia.
  destruct Hw as [Hev| ->].
  - pose proof (positional_table_even_ok L d Hev) as Hok.
    destruct (positional_table L d); [eauto | discriminate Hok].
  - eexists. reflexivity.
Qed.

Section TableBounds.
Context {E : TransformerEncoder}.

(** When the positional table has two or more rows but fewer than the
    input has tokens, the addition of the table cannot broadcast. *)
Lemma forward_with_table_too_short (layout : bool) (m : Model1.QuantumTransformer)
    (L : nat) (psi_real psi_imag potential : tensor) (B T G : nat) :
  well_formed m L ->
  shape psi_real = [B; T; G] ->
  shape psi_imag = [B; T; G] ->
  shape potential = [B; T; G] ->
  2 <= L -> L < T * G ->
  Model1.forward_with layout m psi_real psi_imag potential =
    Raise RuntimeError_broadcast.
Proof.
  intros (Hi & Ho & Hpe & Hpw & Hi2 & Ho2) Hr Him Hp HL2 HL.
  unfold Model1.forward_with.
  destruct (stack_last_ok _ _ _ _ Hr Him Hp) as (x0 & -> & Hs0 & Hl0).
  cbn [bind]. rewrite Hs0. cbn [app].
  rewrite view_ok by (rewrite Hl0; simpl; lia). cbn [bind].
  destruct (linear_ok (Model1.embedding m) (mk_tensor [B; T * G; 3] (data x0)) [B; T * G])
    as (x1 & -> & Hs1 & Hl1); [now rewrite Hi|].
  cbn [bind]. rewrite Hs1. cbn [app nth]. rewrite Ho in *.
  destruct (slice1_shape _ _ _ (T * G) Hpe) as (p & -> & Hsp).
  cbn [bind]. rewrite Nat.min_r in Hsp by lia.
  now rewrite (tensor_add_rows_mismatch x1 p B (T * G) L (Model1.d_model m)) by (auto; lia).
Qed.

(** X4. The first model accepts no input with more tokens than its table has
    rows: a model built for [seq_length * n_grid = L >= 2] raises on every
    batch of fields of shape (B, T, G) with [T * G > L], whatever the
    batch size. *)
Theorem first_model_table_too_short (m : Model1.QuantumTransformer)
    (L : nat) (psi_real psi_imag potential : tensor) (B T G : nat) :
  well_formed m L ->
  shape psi_real = [B; T; G] ->
  shape psi_imag = [B; T; G] ->
  shape potential = [B; T; G] ->
  2 <= L -> L < T * G ->
  Model1.forward m psi_real psi_imag potential = Raise RuntimeError_broadcast.
Proof. intros. now apply (forward_with_table_too_short _ m L _ _ _ B T G). Qed.

Lemma init2_well_formed grid d in_w in_b enc out_w out_b (m : Model2.QuantumTransformer) :
  Model2.init grid d in_w in_b enc out_w out_b = Ok m ->
  well_formed (as_model1 m) Model2.max_len /\ Model2.training m = true /\
  Model2.d_model m = d /\ Model2.n_grid m = grid /\
  Model2.input_proj m = mk_Linear 3 d in_w in_b /\
  Model2.output_proj m = mk_Linear d 2 out_w out_b /\
  Model2.encoder m = enc /\
  positional_table Model2.max_len d = Ok (Model2.pe (Model2.positional_encoding m)).
Proof.
  unfold Model2.init, Model2.PositionalEncoding_init.
  destruct (positional_table Model2.max_len d) as [t|] eqn:Ht; [|discriminate].
  cbn [bind]. intros H; injection H as <-.
  apply Model1Facts.positional_table_inv in Ht as [Hs Hw].
  unfold well_formed, as_model1. cbn. auto 12.
Qed.

(** X6. The second model takes inputs of at most [max_len = 1000] tokens,
    whatever [n_grid] it was constructed with: on fields of shape (B, T, G)
    it returns two tensors of that shape when [T * G <= max_len] and raises
    when [T * G > max_len]. *)
Theorem second_model_token_limit grid d in_w in_b enc out_w out_b
    (m : Model2.QuantumTransformer) (psi_real psi_imag potential : tensor)
    (B T G : nat) :
  Model2.init grid d in_w in_b enc out_w out_b = Ok m ->
  shape psi_real = [B; T; G] ->
  shape psi_imag = [B; T; G] ->
  shape potential = [B; T; G] ->
  (T * G <= Model2.max_len ->
     exists out, Model2.forward m psi_real psi_imag potential = Ok out /\
                 shape (fst out) = [B; T; G] /\ shape (snd out) = [B; T; G]) /\
  (Model2.max_len < T * G ->
     Model2.forward m psi_real psi_imag potential = Raise RuntimeError_broadcast).
Proof.
  intros Hinit Hr Hi Hp.
  destruct (init2_well_formed _ _ _ _ _ _ _ _ Hinit) as (Hwf & _).
  split; intros HT.
  - apply (forward2_shapes m Model2.max_len); auto.
  - rewrite (forward2_is_batch_first_forward1 (as_model1 m) m _ _ _ B T G)
      by (auto; reflexivity).
    rewrite (forward_with_table_too_short true (as_model1 m) Model2.max_len _ _ _ B T G);
      auto.
    apply Nat.leb_le. reflexivity.
Qed.

(** The whole constructor is [init] behind the encoder layer's checks. *)
Lemma new_init d h layers ff p seq_length n_grid emb_w emb_b enc out_w out_b
    (m : Model1.QuantumTransformer) :
  Model1.new d h layers ff p seq_length n_grid emb_w emb_b enc out_w out_b = Ok m ->
  Model1.init d seq_length n_grid emb_w emb_b enc out_w out_b = Ok m /\
  TransformerEncoderLayer_init d h ff p = Ok tt.
Proof.
  unfold Model1.new, Model1.init.
  destruct (create_positional_encoding _ _) as [pe|]; [|discriminate]. cbn [bind].
  destruct (TransformerEncoderLayer_init d h ff p) as [[]|]; [|discriminate].
  cbn [bind]. auto.
Qed.

(** So is the second model's; its constructor raises ValueError for
    [d_model = 0], where the table alone would have been built. *)
Lemma new2_init grid d layers h ff p in_w in_b enc out_w out_b
    (m : Model2.QuantumTransformer) :
  Model2.new grid d layers h ff p in_w in_b enc out_w out_b = Ok m ->
  Model2.init grid d in_w in_b enc out_w out_b = Ok m /\
  TransformerEncoderLayer_init d h ff p = Ok tt /\ 0 < d.
Proof.
  unfold Model2.new, Model2.init.
  destruct (Model2.PositionalEncoding_init d) as [pe|]; [|discriminate]. cbn [bind].
  destruct (TransformerEncoderLayer_init d h ff p) as [[]|] eqn:Hc; [|discriminate].
  cbn [bind]. intros H. split; [exact H|]. split; [reflexivity|].
  unfold TransformerEncoderLayer_init in Hc.
  destruct (d =? 0) eqn:Hd; [discriminate|]. apply Nat.eqb_neq in Hd. lia.
Qed.

(** X7. The outcome of the first model's constructor, for every width,
    number of heads and dropout probability.  [d_model = 0] raises
    ZeroDivisionError and an odd [d_model >= 3] the RuntimeError of the slice
    assignment, both in [create_positional_encoding]; for the other widths
    the encoder layer is built next, and [num_heads = 0] raises ValueError,
    a number of heads that does not divide [d_model] raises AssertionError,
    and a dropout outside [0, 1] raises ValueError; otherwise the result is
    a model in training mode whose layers fit together and whose table has
    [seq_length * n_grid] rows. *)
Theorem first_model_init_outcome (d num_heads num_layers dim_feedforward : nat)
    (dropout : R) (seq_length n_grid : nat)
    (emb_w : list (list R)) (emb_b : list R) (enc : encoder_weights)
    (out_w : list (list R)) (out_b : list R)
    (r : result Model1.QuantumTransformer) :
  r = Model1.new d num_heads num_layers dim_feedforward dropout seq_length n_grid
        emb_w emb_b enc out_w out_b ->
  (d = 0 -> r = Raise ZeroDivisionError) /\
  (Nat.odd d = true -> 3 <= d -> r = Raise RuntimeError_assign) /\
  ((Nat.even d = true /\ 0 < d) \/ d = 1 ->
     (num_heads = 0 -> r = Raise ValueError) /\
     (0 < num_heads -> d mod num_heads <> 0 -> r = Raise AssertionError_encoder) /\
     (0 < num_heads -> d mod num_heads = 0 -> (dropout < 0 \/ 1 < dropout)%R ->
        r = Raise ValueError) /\
     (0 < num_heads -> d mod num_heads = 0 -> (0 <= dropout <= 1)%R ->
        exists m,
          r = Ok m /\
          well_formed m (seq_length * n_grid) /\
          Model1.training m = true /\ Model1.d_model m = d /\
          Model1.encoder m = enc /\
          Model1.embedding m = mk_Linear 3 d emb_w emb_b /\
          Model1.output_layer m = mk_Linear d 2 out_w out_b)).
Proof.
  intros ->. split; [|split].
  - intros ->. reflexivity.
  - intros Hodd Hd. apply Nat.odd_spec in Hodd. destruct Hodd as [k ->].
    unfold Model1.new.
    replace (2 * k + 1) with (2 * (k - 1 + 1) + 1) by lia.
    now rewrite create_positional_encoding_odd.
  - intros Hw.
    assert (Hd : 0 < d) by (destruct Hw as [[_ H]| ->]; lia).
    destruct (create_positional_encoding_ok (seq_length * n_grid) d Hd) as (pe & Hpe).
    { destruct Hw as [[H _]|H]; auto. }
    unfold Model1.new. rewrite Hpe. cbn [bind].
    unfold TransformerEncoderLayer_init.
    rewrite (proj2 (Nat.eqb_neq d 0)) by lia. cbn [orb].
    split; [|split; [|split]].
    + intros ->. reflexivity.
    + intros Hh Hm.
      rewrite (proj2 (Nat.eqb_neq num_heads 0)) by lia.
      now rewrite (proj2 (Nat.eqb_neq _ 0) Hm).
    + intros Hh Hm Hp.
      rewrite (proj2 (Nat.eqb_neq num_heads 0)) by lia.
      rewrite Hm. cbn [Nat.eqb negb].
      destruct (Rlt_dec dropout 0); [reflexivity|].
      destruct (Rlt_dec 1 dropout); [reflexivity|]. lra.
    + intros Hh Hm Hp.
      rewrite (proj2 (Nat.eqb_neq num_heads 0)) by lia.
      rewrite Hm. cbn [Nat.eqb negb].
      destruct (Rlt_dec dropout 0); [lra|].
      destruct (Rlt_dec 1 dropout); [lra|]. cbn [bind].
      eexists. split; [reflexivity|]. cbn.
      split; [|auto 7].
      apply (Model1Facts.init_well_formed d seq_length n_grid emb_w emb_b enc out_w out_b).
      unfold Model1.init. now rewrite Hpe.
Qed.

(** X3. Built from the same weights, the second model computes what the first
    would with [batch_first=True]: on every input of shape (B, T, G) whose
    tokens both tables cover, the second model's pair is the two channels of
    the batch-first forward pass of the first (and both raise alike). *)
Theorem second_model_is_batch_first_first (d seq_length n_grid grid : nat)
    (w_in : list (list R)) (b_in : list R) (enc : encoder_weights)
    (w_out : list (list R)) (b_out : list R)
    (m1 : Model1.QuantumTransformer) (m2 : Model2.QuantumTransformer)
    (psi_real psi_imag potential : tensor) (B T G : nat) :
  Model1.init d seq_length n_grid w_in b_in enc w_out b_out = Ok m1 ->
  Model2.init grid d w_in b_in enc w_out b_out = Ok m2 ->
  shape psi_real = [B; T; G] ->
  T * G <= seq_length * n_grid -> T * G <= Model2.max_len ->
  Model2.forward m2 psi_real psi_imag potential =
    (out <- Model1.forward_with true m1 psi_real psi_imag potential ;;
     re <- select_last out 0 ;;
     im <- select_last out 1 ;;
     Ok (re, im)).
Proof.
  intros H1 H2 Hs HL1 HL2.
  destruct (init2_well_formed _ _ _ _ _ _ _ _ H2)
    as (_ & Htr & Hd & _ & Hin & Hout & Henc & Hpe2).
  unfold Model1.init, create_positional_encoding in H1.
  destruct (d =? 0); [discriminate|].
  destruct (positional_table (seq_length * n_grid) d) as [t1|] eqn:Hpe1; [|discriminate].
  cbn [bind] in H1. injection H1 as <-.
  apply forward2_is_batch_first_forward1 with (B := B) (T := T) (G := G);
    cbn [Model1.embedding Model1.encoder Model1.output_layer Model1.d_model
         Model1.training Model1.positional_encoding]; auto.
  now apply (positional_table_slice (seq_length * n_grid) Model2.max_len d).
Qed.
End TableBounds.

Lemma first_model_table_too_short_witness :
  Model1.forward example_model1_two_rows
    (field_11 [1; 0; 0]%R) (field_11 [0; 0; 0]%R) (field_11 [0; 0; 0]%R)
  = Raise RuntimeError_broadcast.
Proof.
  apply (first_model_table_too_short example_model1_two_rows 2
           (field_11 [1; 0; 0]%R) (field_11 [0; 0; 0]%R) (field_11 [0; 0; 0]%R) 1 1 3);
    try reflexivity; try lia.
  unfold well_formed. simpl. repeat split; reflexivity.
Defined.

Lemma second_model_token_limit_witness :
  exists out,
    Model2.forward example_model2_init
      (field_11 [1; 0]%R) (field_11 [0; 0]%R) (field_11 [0; 0]%R) = Ok out /\
    shape (fst out) = [1; 1; 2] /\ shape (snd out) = [1; 1; 2].
Proof.
  apply (second_model_token_limit (E := Torch.encoder) 1 2
           example_emb_w example_emb_b [example_layer] example_out_w example_out_b
           example_model2_init
           (field_11 [1; 0]%R) (field_11 [0; 0]%R) (field_11 [0; 0]%R) 1 1 2);
    try reflexivity.
  apply Nat.leb_le. reflexivity.
Defined.

Lemma first_model_init_outcome_witness :
  exists m,
    Model1.new (E := Torch.encoder) 2 1 1 1 (1 / 10) 1 1 example_emb_w example_emb_b
      [example_layer] example_out_w example_out_b = Ok m /\
    well_formed m (1 * 1) /\
    Model1.training m = true /\ Model1.d_model m = 2 /\
    Model1.encoder m = [example_layer] /\
    Model1.embedding m = mk_Linear 3 2 example_emb_w example_emb_b /\
    Model1.output_layer m = mk_Linear 2 2 example_out_w example_out_b.
Proof.
  destruct (first_model_init_outcome (E := Torch.encoder) 2 1 1 1 (1 / 10) 1 1
              example_emb_w example_emb_b [example_layer] example_out_w example_out_b
              _ eq_refl) as (_ & _ & H).
  destruct H as (_ & _ & _ & H); [left; split; [reflexivity | lia] |].
  apply H; [lia | reflexivity | lra].
Defined.

Lemma second_model_is_batch_first_first_witness :
  Model2.forward example_model2_init
    (field_11 [1]%R) (field_11 [0]%R) (field_11 [0]%R) =
  (out <- Model1.forward_with true example_model1_init
            (field_11 [1]%R) (field_11 [0]%R) (field_11 [0]%R) ;;
   re <- select_last out 0 ;;
   im <- select_last out 1 ;;
   Ok (re, im)).
Proof.
  apply (second_model_is_batch_first_first (E := Torch.encoder) 2 1 1 1
           example_emb_w example_emb_b [example_layer] example_out_w example_out_b
           example_model1_init example_model2_init
           (field_11 [1]%R) (field_11 [0]%R) (field_11 [0]%R) 1 1 1);
    try reflexivity; apply Nat.leb_le; reflexivity.
Defined.

(** ** The propagation loop with fields of rank 3 *)


Section PropagatorChain.
Context {M : Type} {MM : Module M}.

(** What a list returned by the loop is made of: the accumulator, then one
    pair per time step; the pair of step [k] is the unpacked output of the
    model on the pair of step [k - 1] (the initial fields for [k = 0]) and
    the potential of that step. *)
Lemma propagate_steps_chain (m : M) (p : tensor) (d : tensor * tensor) :
  forall ts r i acc out,
    propagate_steps m p ts r i acc = Ok out ->
    exists new,
      out = acc ++ new /\ length new = length ts /\
      forall k, k < length ts ->
        exists v pv,
          select0 p (nth k ts 0) = Ok v /\
          call m (fst (nth k ((r, i) :: new) d)) (snd (nth k ((r, i) :: new) d))
            (unsqueeze0 v) = Ok pv /\
          unpack2 pv = Ok (nth k new d).
Proof.
  induction ts as [|t ts IH]; intros r i acc out H.
  - cbn in H. injection H as <-. exists []. rewrite app_nil_r.
    split; [reflexivity|]. split; [reflexivity|]. cbn. intros k Hk. lia.
  - cbn [propagate_steps] in H.
    destruct (select0 p t) as [v|] eqn:Hv; [|discriminate]. cbn [bind] in H.
    destruct (call m r i (unsqueeze0 v)) as [pv|] eqn:Hc; [|discriminate].
    cbn [bind] in H.
    destruct (unpack2 pv) as [q|] eqn:Hu; [|discriminate]. cbn [bind] in H.
    destruct (IH _ _ _ _ H) as (new & -> & Hlen & Hk).
    exists (q :: new). split; [now rewrite <- app_assoc|].
    split; [cbn; now rewrite Hlen|].
    intros [|k] Hlt.
    + exists v, pv. cbn. auto.
    + cbn [length] in Hlt. destruct (Hk k ltac:(lia)) as (v' & pv' & H1 & H2 & H3).
      exists v', pv'. cbn [nth]. destruct q as [qr qi]. cbn [fst snd] in *. auto.
Qed.
End PropagatorChain.

Section PropagatorSecondModel.
Context {E : TransformerEncoder}.

(** X21. With the second model, fields of shape (1, 1, G) and a potential of
    shape (S, 1, G), [N <= S] steps are taken: the list has [N] pairs of
    fields of shape (1, 1, G), and pair [t] is the model's prediction from
    pair [t - 1] (the initial fields for [t = 0]) and [potential[t]]: the
    predictions are fed back, the model being in evaluation mode. *)
Theorem propagate_second_model_chain (m : Model2.QuantumTransformer)
    (L G S N : nat) (r i p : tensor) (d : tensor * tensor) :
  well_formed (as_model1 m) L -> G <= L ->
  shape r = [1; 1; G] -> shape i = [1; 1; G] -> shape p = [S; 1; G] ->
  N <= S ->
  exists out,
    snd (propagate_wavefunction m r i p N) = Ok out /\
    length out = N /\
    Forall (fun q => shape (fst q) = [1; 1; G] /\ shape (snd q) = [1; 1; G]) out /\
    forall t, t < N ->
      exists v,
        select0 p t = Ok v /\
        Model2.forward (eval m)
          (fst (nth t ((r, i) :: out) d)) (snd (nth t ((r, i) :: out) d))
          (unsqueeze0 v) = Ok (nth t out d).
Proof.
  intros Hwf HL Hr Hi Hp HN. unfold propagate_wavefunction. cbn [snd].
  assert (Hwf' : well_formed (as_model1 (eval m)) L) by exact Hwf.
  destruct (propagate_steps_rank3 (eval m) L G S p Hwf') with
    (ts := seq 0 N) (r := r) (i := i) (acc := @nil (tensor * tensor))
    as (out & Ho & Hlen & Hall); auto.
  - lia.
  - apply Forall_forall. intros t Ht. apply in_seq in Ht. lia.
  - exists out. rewrite length_seq in Hlen.
    split; [exact Ho|]. split; [exact Hlen|]. split; [exact Hall|].
    destruct (propagate_steps_chain (eval m) p d _ _ _ _ _ Ho)
      as (new & Hnew & _ & Hk).
    cbn [app] in Hnew. subst new.
    intros t Ht. rewrite length_seq in Hk.
    destruct (Hk t Ht) as (v & pv & Hv & Hc & Hu).
    rewrite seq_nth in Hv by exact Ht. exists v. split; [exact Hv|].
    cbn [call Model2.QuantumTransformer_Module] in Hc.
    destruct (Model2.forward (eval m) _ _ _) as [[a b]|]; [|discriminate].
    cbn [bind fst snd] in Hc. injection Hc as <-. cbn [unpack2] in Hu.
    now rewrite <- Hu.
Qed.

Lemma propagate_steps_exhausted (m : Model2.QuantumTransformer) (L G S : nat)
    (p : tensor) (rest : list nat) :
  well_formed (as_model1 m) L -> 1 * G <= L ->
  shape p = [S; 1; G] ->
  forall k a r i acc,
    a + k = S ->
    shape r = [1; 1; G] -> shape i = [1; 1; G] ->
    propagate_steps m p (seq a k ++ S :: rest) r i acc = Raise IndexError.
Proof.
  intros Hwf HL Hp. induction k as [|k IH]; intros a r i acc Ha Hr Hi.
  - cbn [seq app propagate_steps]. unfold select0. rewrite Hp.
    now rewrite Nat.ltb_irrefl.
  - cbn [seq app propagate_steps].
    destruct (select0_shape p S [1; G] a Hp) as (v & -> & Hv); [lia|].
    cbn [bind call Model2.QuantumTransformer_Module].
    destruct (forward2_shapes m L r i (unsqueeze0 v) 1 1 G Hwf Hr Hi)
      as (out & -> & Ho1 & Ho2); [unfold unsqueeze0; simpl; now rewrite Hv | exact HL |].
    cbn [bind unpack2 fst snd]. apply IH; auto. lia.
Qed.

(** X22. Asked for more steps than the potential has time steps, the propagator
    runs the model [S] times and then raises IndexError at [potential[S]]:
    the predictions made so far are lost. *)
Theorem propagate_schedule_exhausted (m : Model2.QuantumTransformer)
    (L G S N : nat) (r i p : tensor) :
  well_formed (as_model1 m) L -> G <= L ->
  shape r = [1; 1; G] -> shape i = [1; 1; G] -> shape p = [S; 1; G] ->
  S < N ->
  snd (propagate_wavefunction m r i p N) = Raise IndexError.
Proof.
  intros Hwf HL Hr Hi Hp HN. unfold propagate_wavefunction. cbn [snd].
  replace N with (S + (1 + (N - S - 1))) by lia.
  rewrite seq_app. cbn [seq Nat.add].
  apply (propagate_steps_exhausted (eval m) L G S p); auto. lia.
Qed.
End PropagatorSecondModel.

Lemma propagate_second_model_chain_witness :
  exists out,
    snd (propagate_wavefunction example_model2
           (field_11 [1]%R) (field_11 [0]%R) (mk_tensor [2; 1; 1] [0; 0]%R) 2) = Ok out /\
    length out = 2 /\
    Forall (fun q => shape (fst q) = [1; 1; 1] /\ shape (snd q) = [1; 1; 1]) out /\
    forall t, t < 2 ->
      exists v,
        select0 (mk_tensor [2; 1; 1] [0; 0]%R) t = Ok v /\
        Model2.forward (eval example_model2)
          (fst (nth t ((field_11 [1]%R, field_11 [0]%R) :: out)
                  (field_11 [], field_11 [])))
          (snd (nth t ((field_11 [1]%R, field_11 [0]%R) :: out)
                  (field_11 [], field_11 [])))
          (unsqueeze0 v) = Ok (nth t out (field_11 [], field_11 [])).
Proof.
  apply (propagate_second_model_chain (E := Torch.encoder) example_model2
           Model2.max_len 1 2 2 (field_11 [1]%R) (field_11 [0]%R)
           (mk_tensor [2; 1; 1] [0; 0]%R) (field_11 [], field_11 []));
    try reflexivity; try lia.
  - unfold well_formed. repeat split; reflexivity.
  - apply Nat.leb_le. reflexivity.
Defined.

Lemma propagate_schedule_exhausted_witness :
  snd (propagate_wavefunction example_model2
         (field_11 [1]%R) (field_11 [0]%R) (mk_tensor [2; 1; 1] [0; 0]%R) 3)
  = Raise IndexError.
Proof.
  apply (propagate_schedule_exhausted (E := Torch.encoder) example_model2
           Model2.max_len 1 2 3 (field_11 [1]%R) (field_11 [0]%R)
           (mk_tensor [2; 1; 1] [0; 0]%R));
    try reflexivity; try lia.
  - unfold well_formed. repeat split; reflexivity.
  - apply Nat.leb_le. reflexivity.
Defined.

Lemma propagate_first_model_rank3_witness :
  snd (propagate_wavefunction example_model1
         (field_11 [1]%R) (field_11 [0]%R) (mk_tensor [1; 1; 1] [0]%R) 1)
  = Raise (ValueError_unpack 2 1).
Proof.
  apply (propagate_first_model_rank3 (E := Torch.encoder) example_model1
           1 1 1 1 (field_11 [1]%R) (field_11 [0]%R) (mk_tensor [1; 1; 1] [0]%R));
    try reflexivity; try lia.
  unfold well_formed. simpl. repeat split; reflexivity.
Defined.

(** ** The training loop: channel split and table length *)


Lemma list_by_triples (n : nat) (d : list R) :
  length d = n * 3 ->
  flat_map (fun i => [nth (i * 3 + 0) d 0%R; nth (i * 3 + 1) d 0%R; nth (i * 3 + 2) d 0%R])
    (seq 0 n) = d.
Proof.
  intros Hl.
  apply (nth_ext _ _ 0%R 0%R).
  - rewrite (length_flat_map_seq _ 3) by reflexivity. lia.
  - intros q Hq. rewrite (length_flat_map_seq _ 3) in Hq by reflexivity.
    pose proof (Nat.div_mod_eq q 3) as Hdm.
    pose proof (Nat.mod_upper_bound q 3 ltac:(lia)) as Hm.
    assert (Hd : q / 3 < n) by (apply Nat.Div0.div_lt_upper_bound; lia).
    replace q with (q / 3 * 3 + q mod 3) at 1 by lia.
    rewrite (nth_flat_map_seq _ 3) by (auto; reflexivity).
    cbn [Nat.add].
    destruct (q mod 3) as [|[|[|r]]] eqn:Hr; cbn [nth]; try lia; f_equal; lia.
Qed.

(** X11. The channel split of the training loop and the [torch.stack] at the top
    of the forward pass undo each other: from [X[..., 0]], [X[..., 1]] and
    [X[..., 2]] of a batch whose last axis has length 3, [forward] rebuilds
    the batch itself. *)
Theorem split_then_stack (x : tensor) (pre : list nat) :
  shape x = pre ++ [3] -> wf x ->
  exists a b c,
    select_last x 0 = Ok a /\ select_last x 1 = Ok b /\ select_last x 2 = Ok c /\
    shape a = pre /\ shape b = pre /\ shape c = pre /\
    stack_last a b c = Ok x.
Proof.
  intros Hs Hw. unfold select_last. rewrite Hs, rev_app_distr. cbn [rev app].
  rewrite rev_involutive. cbn [Nat.ltb Nat.leb].
  eexists. eexists. eexists.
  split; [reflexivity|]. split; [reflexivity|]. split; [reflexivity|].
  split; [reflexivity|]. split; [reflexivity|]. split; [reflexivity|].
  unfold stack_last. cbn [shape data]. rewrite list_nat_eqb_refl. cbn [andb].
  destruct x as [s d]. cbn [shape data] in *. subst s. f_equal. f_equal.
  unfold wf in Hw. cbn [shape data] in Hw. rewrite numel_app in Hw.
  cbn [numel fold_right] in Hw. rewrite Nat.mul_1_r in Hw.
  etransitivity; [|exact (list_by_triples (numel pre) d Hw)].
  apply flat_map_ext_seq. intros i Hi.
  rewrite !nth_tabulate by lia. reflexivity.
Qed.

Lemma split_then_stack_witness :
  exists a b c,
    select_last (X example_dataset) 0 = Ok a /\
    select_last (X example_dataset) 1 = Ok b /\
    select_last (X example_dataset) 2 = Ok c /\
    shape a = [2; 1; 1] /\ shape b = [2; 1; 1] /\ shape c = [2; 1; 1] /\
    stack_last a b c = Ok (X example_dataset).
Proof.
  apply (split_then_stack (X example_dataset) [2; 1; 1]); reflexivity.
Defined.

Section TrainerFailure.
Context {E : TransformerEncoder}.
Variable optimizer : Type.
Variable update : Model1.QuantumTransformer -> optimizer -> tensor -> tensor ->
                  Model1.QuantumTransformer * optimizer.
Variable randperm : nat -> nat -> list nat.

Lemma train_step_table_too_short (l : DataLoader) (n T G L : nat)
    (st : train_state optimizer) (idxs : list nat) :
  dataset_shaped (loader_dataset l) n T G ->
  well_formed (st_model st) L -> 2 <= L -> L < T * G ->
  idxs <> [] -> Forall (fun i => i < n) idxs ->
  train_step update l st idxs = Raise RuntimeError_broadcast.
Proof.
  intros Hd Hwf HL2 HL Hne Hin. unfold train_step.
  destruct (fetch_ok l n T G idxs Hd Hne Hin) as (b & -> & Hbx & Hby).
  cbn [bind].
  destruct (select_last_ok (fst b) [length idxs; T; G] 3 0 Hbx) as (r & -> & Hr); [lia|].
  destruct (select_last_ok (fst b) [length idxs; T; G] 3 1 Hbx) as (i & -> & Hi); [lia|].
  destruct (select_last_ok (fst b) [length idxs; T; G] 3 2 Hbx) as (p & -> & Hp); [lia|].
  cbn [bind]. unfold Model1.forward.
  now rewrite (forward_with_table_too_short _ (st_model st) L r i p (length idxs) T G).
Qed.

(** X12. A model whose positional table has [L >= 2] rows cannot be trained on
    trajectories of more than [L] tokens: the first forward pass of the
    first epoch raises, before any update of the parameters, whatever the
    batch size and the order of the samples.  Cell 5 builds the table for
    [n_grid = 64], so this is the fate of a dataset on a finer grid. *)
Theorem training_loop_table_too_short
    (d : QuantumWaveDataset) (bs : nat) (l : DataLoader) (n T G L : nat)
    (m : Model1.QuantumTransformer) (o : optimizer) (num_epochs : nat) :
  (forall e k, Permutation (randperm e k) (seq 0 k)) ->
  dataset_shaped d n T G ->
  DataLoader_init d bs = Ok l ->
  well_formed m L -> 2 <= L -> L < T * G ->
  0 < num_epochs ->
  training_loop update randperm l m o num_epochs = Raise RuntimeError_broadcast.
Proof.
  intros Hperm Hd Hl Hwf HL2 HL Hep.
  apply DataLoader_init_inv in Hl as (Hld & Hbs & Hpos & Hn).
  destruct num_epochs as [|k]; [lia|].
  unfold training_loop. cbn [seq train_epochs]. unfold train_epoch.
  assert (Hd' : dataset_shaped (loader_dataset l) n T G) by now rewrite Hld.
  assert (Hlen : dataset_len (loader_dataset l) = n) by apply Hd'.
  destruct (batch_indices_partition l (randperm 0 (dataset_len (loader_dataset l))))
    as (Hpart & _); [lia | apply Hperm |].
  pose proof (partition_in_range _ _ _ Hpart) as Hrange.
  destruct Hpart as (Hcat & _).
  destruct (batch_indices l (randperm 0 (dataset_len (loader_dataset l))))
    as [|idxs rest].
  - cbn [concat] in Hcat. apply Permutation_length in Hcat.
    rewrite length_seq in Hcat. cbn in Hcat. rewrite Hld in Hcat. lia.
  - destruct (Forall_inv Hrange) as (Hne & Hin).
    cbn [train_batches].
    rewrite (train_step_table_too_short l n T G L); auto.
    rewrite Hlen in Hin. exact Hin.
Qed.
End TrainerFailure.

Lemma training_loop_table_too_short_witness :
  training_loop example_update example_randperm example_loader_fine
    (train example_model1_two_rows) 0 3 = Raise RuntimeError_broadcast.
Proof.
  apply (training_loop_table_too_short (E := Torch.encoder) nat example_update
           example_randperm example_dataset_fine 1 example_loader_fine 1 1 3 2
           (train example_model1_two_rows) 0 3).
  - intros e k. apply Permutation_sym, Permutation_rev.
  - repeat split.
  - reflexivity.
  - unfold well_formed. simpl. repeat split; reflexivity.
  - lia.
  - simpl. lia.
  - lia.
Defined.

(** The sample model with a table of two rows is what the constructor
    builds for [seq_length * n_grid = 2]. *)
Lemma example_model1_two_rows_from_new :
  Model1.new (E := Torch.encoder) 2 1 1 1 (1 / 10) 2 1 example_emb_w example_emb_b
    [example_layer] example_out_w example_out_b
  = Ok (train example_model1_two_rows).
Proof.
  unfold Model1.new, create_positional_encoding, positional_table,
    TransformerEncoderLayer_init.
  cbn [Nat.eqb assign_cols_ok Nat.div Nat.divmod Nat.modulo fst snd Nat.add Nat.sub
       orb negb bind Nat.mul flat_map seq tabulate map app Nat.even].
  destruct (Rlt_dec (1 / 10) 0); [lra|].
  destruct (Rlt_dec 1 (1 / 10)); [lra|].
  cbn [bind]. unfold example_model1_two_rows. cbn [train Model1.QuantumTransformer_Module
    Model1.embedding Model1.positional_encoding Model1.d_model Model1.encoder
    Model1.output_layer].
  assert (Hd : div_term 2 0 = 1%R).
  { unfold div_term. simpl INR. now rewrite Rmult_0_l, exp_0. }
  rewrite Hd. simpl INR. rewrite Rmult_0_l, Rmult_1_l, sin_0, cos_0.
  reflexivity.
Qed.

(** C7, as stated, fails for a model and a loader that the constructors
    build: the model's table has two rows, the loader's one sample has three
    tokens, and the first forward pass raises.  No epoch is completed and no
    loss is reported, for any positive number of epochs asked for. *)
Theorem training_loop_meets_spec_counterexample :
  Model1.new (E := Torch.encoder) 2 1 1 1 (1 / 10) 2 1 example_emb_w example_emb_b
    [example_layer] example_out_w example_out_b
    = Ok (train example_model1_two_rows) /\
  DataLoader_init example_dataset_fine 1 = Ok example_loader_fine /\
  dataset_shaped example_dataset_fine 1 1 3 /\
  training_loop example_update example_randperm example_loader_fine
    (train example_model1_two_rows) 0 3 = Raise RuntimeError_broadcast /\
  forall r,
    training_loop example_update example_randperm example_loader_fine
      (train example_model1_two_rows) 0 3 <> Ok r.
Proof.
  assert (H : training_loop example_update example_randperm example_loader_fine
                (train example_model1_two_rows) 0 3 = Raise RuntimeError_broadcast).
  { unfold training_loop. cbn [seq train_epochs]. unfold train_epoch.
    change (batch_indices example_loader_fine
              (example_randperm 0 (dataset_len (loader_dataset example_loader_fine))))
      with [[0]].
    cbn [train_batches].
    rewrite (train_step_table_too_short nat example_update example_loader_fine 1 1 3 2);
      try reflexivity; try (simpl; lia); try discriminate.
    all: try (repeat split; fail).
    all: try (repeat constructor; fail).
    all: try (unfold well_formed; simpl; repeat split; reflexivity). }
  split; [exact example_model1_two_rows_from_new|].
  split; [reflexivity|]. split; [repeat split|]. split; [exact H|].
  intros r Hr. rewrite H in Hr. discriminate.
Qed.

(** ** Two readings of the store; samples for the dependence theorems *)


(** X14. The dataset class and the propagation cells read the same store in two
    ways.  [QuantumWaveDataset] takes the last axis of [dataset_X] as grid
    point by grid point, three channels each (column [3g + c]); cells 9 and
    10 take it as three blocks of [G] columns.  So the initial fields and
    the potential cut out for the propagation are, in terms of the item the
    model is trained on, a mixture of channels: column [k] of the store is
    channel [k mod 3] of grid point [k / 3]. *)
Theorem store_read_two_ways (f : store_file) (n T G : nat) :
  shape (dataset_X f) = [n; T; 3 * G] -> wf (dataset_X f) ->
  shape (dataset_y f) = [n; T; 2 * G] -> wf (dataset_y f) ->
  0 < n -> 0 < T ->
  exists d a b p,
    QuantumWaveDataset_init f = Ok d /\
    dataset_getitem d (Z.of_nat 0) = Ok (a, b) /\
    prepare_propagation f = Ok p /\
    shape (prep_psi_real p) = [1; G] /\
    shape (prep_psi_imag p) = [1; G] /\
    shape (prep_potential p) = [T; G] /\
    (forall g, g < G ->
       get (prep_psi_real p) [0; g] = get a [0; g / 3; g mod 3] /\
       get (prep_psi_imag p) [0; g] = get a [0; (G + g) / 3; (G + g) mod 3]) /\
    (forall t g, t < T -> g < G ->
       get (prep_potential p) [t; g] =
         get a [t; (2 * G + g) / 3; (2 * G + g) mod 3]).
Proof.
  intros HX HwX HY HwY Hn HT.
  destruct (dataset_item_entries f n T G 0 HX HwX HY HwY Hn)
    as (d & a & b & Hd & Hab & Ha & _).
  destruct (prepare_propagation_ok f n T (3 * G) n T (2 * G) HX HwX Hn HT HY Hn
              (Nat.le_refl T))
    as (p & Hp & _ & _ & Hr & Hi & Hpot & _ & Hri & Hv).
  assert (HG : 3 * G / 3 = G)
    by (rewrite Nat.mul_comm; apply Nat.div_mul; discriminate).
  rewrite HG in *.
  replace (3 * G - 2 * G) with G in * by lia.
  exists d, a, b, p.
  repeat (split; [assumption|]).
  assert (Hcol : forall t k, t < T -> k < 3 * G ->
            get (dataset_X f) [0; t; k] = get a [t; k / 3; k mod 3]).
  { intros t k Ht Hk.
    pose proof (Nat.div_mod_eq k 3) as Hdm.
    pose proof (Nat.mod_upper_bound k 3 ltac:(lia)) as Hm.
    rewrite Ha; auto.
    - now rewrite <- Hdm.
    - apply Nat.Div0.div_lt_upper_bound. lia. }
  split.
  - intros g Hg. destruct (Hri g Hg) as [H1 H2].
    rewrite H1, H2. split; apply Hcol; lia.
  - intros t g Ht Hg. rewrite Hv by assumption. apply Hcol; lia.
Qed.

Lemma store_read_two_ways_witness :
  exists d a b p,
    QuantumWaveDataset_init example_store_blocks = Ok d /\
    dataset_getitem d (Z.of_nat 0) = Ok (a, b) /\
    prepare_propagation example_store_blocks = Ok p /\
    shape (prep_psi_real p) = [1; 2] /\
    shape (prep_psi_imag p) = [1; 2] /\
    shape (prep_potential p) = [2; 2] /\
    (forall g, g < 2 ->
       get (prep_psi_real p) [0; g] = get a [0; g / 3; g mod 3] /\
       get (prep_psi_imag p) [0; g] = get a [0; (2 + g) / 3; (2 + g) mod 3]) /\
    (forall t g, t < 2 -> g < 2 ->
       get (prep_potential p) [t; g] =
         get a [t; (2 * 2 + g) / 3; (2 * 2 + g) mod 3]).
Proof.
  apply (store_read_two_ways example_store_blocks 1 2 2); try reflexivity; lia.
Defined.

Lemma first_model_token_isolated_witness :
  exists out out',
    Model1.forward example_model1_two_rows
      (field_11 [1; 0]%R) (field_11 [0; 0]%R) (field_11 [0; 0]%R) = Ok out /\
    Model1.forward example_model1_two_rows
      (field_11 [1; 7]%R) (field_11 [0; 0]%R) (field_11 [0; 0]%R) = Ok out' /\
    forall b c, b < 1 -> c < 2 -> get out [b; 0; 0; c] = get out' [b; 0; 0; c].
Proof.
  apply (first_model_token_isolated (E := Torch.encoder) example_model1_two_rows 2
           (field_11 [1; 0]%R) (field_11 [0; 0]%R) (field_11 [0; 0]%R)
           (field_11 [1; 7]%R) (field_11 [0; 0]%R) (field_11 [0; 0]%R) 1 1 2 0 0);
    try reflexivity; try lia.
  - unfold well_formed. simpl. repeat split; reflexivity.
  - intros s Hs. assert (s = 0) by lia. subst s. repeat split.
Defined.

Lemma second_model_batch_independent_witness :
  exists out out',
    Model2.forward example_model2
      (field_211 1 0) (field_211 0 0) (field_211 0 0) = Ok out /\
    Model2.forward example_model2
      (field_211 1 5) (field_211 0 0) (field_211 0 0) = Ok out' /\
    forall t g, t < 1 -> g < 1 ->
      get (fst out) [0; t; g] = get (fst out') [0; t; g] /\
      get (snd out) [0; t; g] = get (snd out') [0; t; g].
Proof.
  apply (second_model_batch_independent (E := Torch.encoder) example_model2
           Model2.max_len
           (field_211 1 0) (field_211 0 0) (field_211 0 0)
           (field_211 1 5) (field_211 0 0) (field_211 0 0) 2 1 1 0);
    try reflexivity; try lia.
  - unfold well_formed. repeat split; reflexivity.
  - apply Nat.leb_le. reflexivity.
  - intros t g Ht Hg. assert (t = 0) by lia. assert (g = 0) by lia. subst.
    repeat split.
Defined.

(** ** What the propagator and the models accept *)


Lemma stack_last_shapes (a b c x : tensor) :
  stack_last a b c = Ok x ->
  shape a = shape b /\ shape a = shape c /\ shape x = shape a ++ [3].
Proof.
  unfold stack_last.
  destruct (list_nat_eqb (shape a) (shape b)) eqn:E1; [|discriminate].
  destruct (list_nat_eqb (shape a) (shape c)) eqn:E2; [|discriminate].
  apply list_nat_eqb_eq in E1, E2. cbn [andb].
  intros H; injection H as <-. auto.
Qed.

Section WhatTheModelsAccept.
Context {E : TransformerEncoder}.

(** The first forward pass returns only on three fields of one shape
    (B, T, G), and what it returns has shape (B, T, G, 2). *)
Lemma forward_with_inv (layout : bool) (m : Model1.QuantumTransformer)
    (a b c out : tensor) :
  Model1.forward_with layout m a b c = Ok out ->
  exists B T G,
    shape a = [B; T; G] /\ shape b = [B; T; G] /\ shape c = [B; T; G] /\
    shape out = [B; T; G; 2].
Proof.
  unfold Model1.forward_with.
  destruct (stack_last a b c) as [x|] eqn:Hx; [|discriminate]. cbn [bind].
  apply stack_last_shapes in Hx as (Hab & Hac & Hsx).
  destruct (shape x) as [|B [|T [|G [|w [|? ?]]]]] eqn:Hs; try discriminate.
  destruct (view x _) as [x0|]; [|discriminate]. cbn [bind].
  destruct (linear _ x0) as [x1|]; [|discriminate]. cbn [bind].
  destruct (slice1 _ _) as [pe|]; [|discriminate]. cbn [bind].
  destruct (tensor_add x1 pe) as [x2|]; [|discriminate]. cbn [bind].
  destruct (transformer_encoder _ _ _ _ x2) as [x3|]; [|discriminate]. cbn [bind].
  destruct (linear _ x3) as [x4|]; [|discriminate]. cbn [bind].
  intros Hv. apply view_inv in Hv as (Hout & _).
  exists B, T, G.
  assert (Ha : shape a = [B; T; G]).
  { change [B; T; G; w] with ([B; T; G] ++ [w]) in Hsx.
    symmetry in Hsx. now apply app_inj_tail in Hsx as [-> _]. }
  rewrite <- Hab, <- Hac. auto.
Qed.

(** The second forward pass returns only on three fields of one shape
    (B, T, G). *)
Lemma forward2_inv (m : Model2.QuantumTransformer) (a b c : tensor)
    (out : tensor * tensor) :
  Model2.forward m a b c = Ok out ->
  exists B T G,
    shape a = [B; T; G] /\ shape b = [B; T; G] /\ shape c = [B; T; G].
Proof.
  unfold Model2.forward.
  destruct (shape a) as [|B [|T [|G [|? ?]]]] eqn:Hs; try discriminate.
  destruct (stack_last a b c) as [x|] eqn:Hx; [|discriminate].
  apply stack_last_shapes in Hx as (Hab & Hac & _).
  intros _. exists B, T, G. rewrite <- Hab, <- Hac. auto.
Qed.

(** X18. The propagator never returns a prediction of the first model: whatever
    the model, the fields, the potential and the number [N >= 1] of steps,
    the first iteration raises.  The model is handed
    [potential[0].unsqueeze(0)], whose batch axis has length 1, so its
    output, if any, has a batch axis of length 1, and the assignment
    [psi_real, psi_imag = model(...)] finds one value to unpack. *)
Theorem first_model_never_propagates (m : Model1.QuantumTransformer)
    (initial_psi_real initial_psi_imag potential : tensor) (N : nat) :
  0 < N ->
  exists e,
    snd (propagate_wavefunction m initial_psi_real initial_psi_imag potential N)
      = Raise e.
Proof.
  intros HN. destruct N as [|N]; [lia|].
  unfold propagate_wavefunction. cbn [snd seq propagate_steps].
  destruct (select0 potential 0) as [v|e]; cbn [bind]; [|eauto].
  cbn [call Model1.QuantumTransformer_Module].
  destruct (Model1.forward (eval m) initial_psi_real initial_psi_imag (unsqueeze0 v))
    as [out|e] eqn:Hf; cbn [bind]; [|eauto].
  apply forward_with_inv in Hf as (B & T & G & _ & _ & Hc & Ho).
  unfold unsqueeze0 in Hc. cbn [shape] in Hc. injection Hc as <- _.
  cbn [unpack2]. rewrite Ho. cbn [Nat.eqb bind]. eexists. reflexivity.
Qed.

(** X20. With the second model the propagator can return only when the fields
    have a batch axis of length 1 and a time axis, and the potential has
    the same time and grid axes behind its step axis: with any other
    shapes, and [N >= 1], it raises. *)
Theorem second_model_propagates_only_rank3 (m : Model2.QuantumTransformer)
    (initial_psi_real initial_psi_imag potential : tensor) (N : nat) :
  0 < N ->
  (exists e,
     snd (propagate_wavefunction m initial_psi_real initial_psi_imag potential N)
       = Raise e) \/
  (exists S T G,
     shape initial_psi_real = [1; T; G] /\ shape initial_psi_imag = [1; T; G] /\
     shape potential = [S; T; G] /\ 0 < S).
Proof.
  intros HN. destruct N as [|N]; [lia|].
  unfold propagate_wavefunction. cbn [snd seq propagate_steps].
  destruct (select0 potential 0) as [v|e] eqn:Hv; cbn [bind]; [|eauto].
  cbn [call Model2.QuantumTransformer_Module].
  destruct (Model2.forward (eval m) initial_psi_real initial_psi_imag (unsqueeze0 v))
    as [out|e] eqn:Hf; cbn [bind]; [|eauto].
  right. apply forward2_inv in Hf as (B & T & G & Ha & Hb & Hc).
  unfold unsqueeze0 in Hc. cbn [shape] in Hc. injection Hc as <- Hsv.
  unfold select0 in Hv.
  destruct (shape potential) as [|S s] eqn:Hp; [discriminate|].
  destruct (0 <? S) eqn:HS; [|discriminate]. apply Nat.ltb_lt in HS.
  injection Hv as <-. cbn [shape] in Hsv. subst s.
  exists S, T, G. auto.
Qed.
End WhatTheModelsAccept.

Lemma first_model_never_propagates_witness :
  exists e,
    snd (propagate_wavefunction example_model1
           (field_11 [1]%R) (field_11 [0]%R) (mk_tensor [1; 1; 1] [0]%R) 1)
      = Raise e.
Proof.
  apply (first_model_never_propagates (E := Torch.encoder) example_model1
           (field_11 [1]%R) (field_11 [0]%R) (mk_tensor [1; 1; 1] [0]%R) 1).
  lia.
Defined.

Lemma second_model_propagates_only_rank3_witness :
  (exists e,
     snd (propagate_wavefunction example_model2
            (row [1]%R) (row [0]%R) (schedule 1 1) 1) = Raise e) \/
  (exists S T G,
     shape (row [1]%R) = [1; T; G] /\ shape (row [0]%R) = [1; T; G] /\
     shape (schedule 1 1) = [S; T; G] /\ 0 < S).
Proof.
  apply (second_model_propagates_only_rank3 (E := Torch.encoder) example_model2
           (row [1]%R) (row [0]%R) (schedule 1 1) 1).
  lia.
Defined.

(** ** A positional table of one row *)


Lemma offset_split (B N D off : nat) :
  off < numel [B; N; D] ->
  exists b n k, b < B /\ n < N /\ k < D /\ off = (b * N + n) * D + k.
Proof.
  intros H. pose proof (in_range_unravel _ _ H) as Hr.
  pose proof (ravel_unravel _ _ H) as Hq.
  cbn [unravel] in Hr, Hq. cbn [in_range] in Hr. destruct Hr as (Hb & Hn & Hk & _).
  eexists. eexists. eexists. split; [exact Hb|]. split; [exact Hn|]. split; [exact Hk|].
  rewrite <- Hq at 1. cbn [ravel numel fold_right]. ring.
Qed.

Lemma src_offset_row (B N D b n k : nat) :
  b < B -> n < N -> k < D ->
  src_offset [1; 1; D] [B; N; D] ((b * N + n) * D + k) = k.
Proof.
  intros Hb Hn Hk. unfold src_offset. cbn [length Nat.sub skipn].
  replace ((b * N + n) * D + k) with (ravel [B; N; D] [b; n; k]) by (simpl; ring).
  rewrite unravel_ravel by (simpl; auto).
  cbn [clamp Nat.eqb].
  replace (if D =? 1 then 0 else k) with k
    by (destruct (D =? 1) eqn:E1; [apply Nat.eqb_eq in E1; lia | reflexivity]).
  simpl. ring.
Qed.

Lemma broadcast_shapes_row (B N D : nat) :
  broadcast_shapes [B; N; D] [1; 1; D] = Some [B; N; D].
Proof.
  unfold broadcast_shapes. simpl.
  now rewrite broadcast_dim_same, !broadcast_dim_one.
Qed.

(** Adding one row to every token is adding the table that repeats it. *)
Lemma tensor_add_row_tiled (x : tensor) (row : list R) (B N D : nat) :
  shape x = [B; N; D] -> length row = D ->
  tensor_add x (mk_tensor [1; 1; D] row) =
  tensor_add x (mk_tensor [1; N; D] (flat_map (fun _ => row) (seq 0 N))).
Proof.
  intros Hx Hrow. unfold tensor_add, broadcast_map2. cbn [shape data].
  rewrite Hx, broadcast_shapes_row, broadcast_shapes_pe. do 2 f_equal.
  apply tabulate_ext. intros off Hoff.
  destruct (offset_split B N D off Hoff) as (b & n & k & Hb & Hn & Hk & ->).
  rewrite src_offset_row, src_offset_pe by assumption.
  f_equal. rewrite (nth_flat_map_seq _ D) by auto. reflexivity.
Qed.

Section OneRow.
Context {E : TransformerEncoder}.

(** X5. A first model whose positional table has one row (built for
    [seq_length * n_grid = 1]) accepts inputs of any number of tokens: the
    row is broadcast, and the forward pass is that of the model whose table
    repeats the row for every token.  No exception signals that the table
    is too short. *)
Theorem first_model_one_row_table (m : Model1.QuantumTransformer)
    (psi_real psi_imag potential : tensor) (B T G : nat) :
  well_formed m 1 ->
  shape psi_real = [B; T; G] ->
  shape psi_imag = [B; T; G] ->
  shape potential = [B; T; G] ->
  0 < T * G ->
  well_formed (tile_table m (T * G)) (T * G) /\
  Model1.forward m psi_real psi_imag potential =
    Model1.forward (tile_table m (T * G)) psi_real psi_imag potential /\
  exists out,
    Model1.forward m psi_real psi_imag potential = Ok out /\
    shape out = [B; T; G; 2] /\ wf out.
Proof.
  intros Hwf Hr Him Hp HN.
  assert (Hwf' : well_formed (tile_table m (T * G)) (T * G)).
  { destruct Hwf as (Hi & Ho & Hpe & Hpw & Hi2 & Ho2).
    unfold well_formed, tile_table. cbn.
    repeat split; auto.
    unfold wf in *. cbn [shape data numel fold_right].
    rewrite Hpe in Hpw. cbn [numel fold_right] in Hpw.
    rewrite (length_flat_map_seq _ (Model1.d_model m)) by (intros; lia). lia. }
  assert (Heq : Model1.forward m psi_real psi_imag potential =
                Model1.forward (tile_table m (T * G)) psi_real psi_imag potential).
  { destruct Hwf as (Hi & Ho & Hpe & Hpw & Hi2 & Ho2).
    unfold Model1.forward, Model1.forward_with.
    cbn [tile_table Model1.embedding Model1.positional_encoding Model1.d_model
         Model1.encoder Model1.output_layer Model1.training].
    destruct (stack_last_ok _ _ _ _ Hr Him Hp) as (x0 & -> & Hs0 & Hl0).
    cbn [bind]. rewrite Hs0. cbn [app].
    rewrite view_ok by (rewrite Hl0; simpl; lia). cbn [bind].
    destruct (linear_ok (Model1.embedding m) (mk_tensor [B; T * G; 3] (data x0)) [B; T * G])
      as (x1 & -> & Hs1 & Hl1); [now rewrite Hi|].
    cbn [bind]. rewrite Hs1. cbn [app nth]. rewrite Ho in *.
    unfold wf in Hpw. rewrite Hpe in Hpw. cbn [numel fold_right] in Hpw.
    unfold slice1. rewrite Hpe. cbn [shape data bind].
    rewrite Nat.min_id, (Nat.min_r (T * G) 1) by lia.
    cbn [seq flat_map skipn Nat.mul numel fold_right]. rewrite !app_nil_r.
    replace (1 * (Model1.d_model m * 1)) with (Model1.d_model m) by lia.
    rewrite !firstn_all2
      by (try rewrite (length_flat_map_seq _ (Model1.d_model m)) by (intros; lia); lia).
    rewrite (tensor_add_row_tiled x1 _ B (T * G) (Model1.d_model m)) by (auto; lia).
    reflexivity. }
  split; [exact Hwf'|]. split; [exact Heq|].
  rewrite Heq.
  apply (Model1Facts.forward_shape_gen _ (T * G)); auto.
Qed.
End OneRow.

Lemma first_model_one_row_table_witness :
  well_formed (tile_table example_model1 (1 * 2)) (1 * 2) /\
  Model1.forward example_model1
    (field_11 [1; 0]%R) (field_11 [0; 0]%R) (field_11 [0; 0]%R) =
  Model1.forward (tile_table example_model1 (1 * 2))
    (field_11 [1; 0]%R) (field_11 [0; 0]%R) (field_11 [0; 0]%R) /\
  exists out,
    Model1.forward example_model1
      (field_11 [1; 0]%R) (field_11 [0; 0]%R) (field_11 [0; 0]%R) = Ok out /\
    shape out = [1; 1; 2; 2] /\ wf out.
Proof.
  apply (first_model_one_row_table (E := Torch.encoder) example_model1
           (field_11 [1; 0]%R) (field_11 [0; 0]%R) (field_11 [0; 0]%R) 1 1 2);
    try reflexivity; try (simpl; lia).
  unfold well_formed. simpl. repeat split; reflexivity.
Defined.

(** ** Trajectories of a single time step *)


Section SingleStep.
Context {E : TransformerEncoder}.

(** X17. Cells 9, 10 and 11 on a store whose trajectories have a single time
    step (and whose last axis is [3 * G] wide) do run with the second model:
    the list holds the one prediction, a pair of fields of shape
    (1, 1, G).  It is the only trajectory length for which cell 11 does not
    raise. *)
Theorem cells_9_10_11_single_step (m : Model2.QuantumTransformer)
    (f : store_file) (n G n' S' W' L : nat) :
  shape (dataset_X f) = [n; 1; 3 * G] -> wf (dataset_X f) -> 0 < n ->
  shape (dataset_y f) = [n'; S'; W'] -> 0 < n' -> 1 <= S' ->
  well_formed (as_model1 m) L -> G <= L ->
  exists out,
    cells_9_10_11 m f = Ok out /\ length out = 1 /\
    Forall (fun q => shape (fst q) = [1; 1; G] /\ shape (snd q) = [1; 1; G]) out.
Proof.
  intros HX HwX Hn HY Hn' HS' Hwf HL.
  destruct (prepare_propagation_ok f n 1 (3 * G) n' S' W' HX HwX Hn ltac:(lia) HY Hn' HS')
    as (p & Hp & HN & _ & Hr & Hi & Hpot & _).
  assert (HG : 3 * G / 3 = G)
    by (rewrite Nat.mul_comm; apply Nat.div_mul; discriminate).
  rewrite HG in *. replace (3 * G - 2 * G) with G in * by lia.
  destruct (add_axes_spec p _ _ _ Hr Hi Hpot) as (q & Hq & Hr' & Hi' & Hp' & HN').
  unfold cells_9_10_11, run_propagation. rewrite Hp. cbn [bind].
  rewrite Hq. cbn [bind]. rewrite HN', HN.
  apply (propagate_second_model_rank3 m L G 1 1); auto.
Qed.
End SingleStep.

Lemma cells_9_10_11_single_step_witness :
  exists out,
    cells_9_10_11 example_model2
      (mk_store (mk_tensor [1; 1; 3] [1; 0; 0]%R) (mk_tensor [1; 1; 2] [1; 0]%R))
      = Ok out /\ length out = 1 /\
    Forall (fun q => shape (fst q) = [1; 1; 1] /\ shape (snd q) = [1; 1; 1]) out.
Proof.
  apply (cells_9_10_11_single_step (E := Torch.encoder) example_model2
           (mk_store (mk_tensor [1; 1; 3] [1; 0; 0]%R) (mk_tensor [1; 1; 2] [1; 0]%R))
           1 1 1 1 2 Model2.max_len);
    try reflexivity; try lia.
  - unfold well_formed. repeat split; reflexivity.
  - apply Nat.leb_le. reflexivity.
Defined.
